(** * picoscope-rapid-block: block capture on a PicoScope 5000a and the
      HDF5 capture viewer

    A shallow embedding of [block_capture_single.py] and [readhdf5.py].

    Both scripts are effectful call-throughs: the first drives the vendor
    SDK ([picosdk.ps5000a]) and matplotlib, the second h5py and matplotlib.
    The SDK, the instrument behind it and [picosdk.functions.mV2adc] are
    not part of the repository; they are taken as an interface (a class of
    drivers over an abstract device state) so that every statement holds
    for whatever the instrument answers.  Calls made to the outside are
    recorded, in order, in a trace.  [print] calls have no influence on any
    other effect and are left out of the trace. *)

From stdpp Require Import gmap strings list fin_maps pretty.
From Stdlib Require Import ZArith QArith Lia.

Local Open Scope Z_scope.

(** ** Outcomes and the state-and-exception monad *)

(** The Python exceptions the two scripts can run into. *)
Inductive exn :=
| IndexError
| KeyError (key : string)
| TypeError
| ValueError
| OSError.

(** What running a piece of the program gives: a value, an exception, or
    the poll loop used up the iterations it was allowed. *)
Inductive outcome (A : Type) :=
| Ok (a : A)
| Raise (e : exn)
| OutOfFuel.
Arguments Ok {A} a.
Arguments Raise {A} e.
Arguments OutOfFuel {A}.

(** A computation over a state [S].  The state is returned in every case:
    what was done before an exception stays done. *)
Definition M (S A : Type) : Type := S -> outcome A * S.

Definition ret {S A} (a : A) : M S A := fun s => (Ok a, s).

Definition bind {S A B} (m : M S A) (k : A -> M S B) : M S B :=
  fun s =>
    match m s with
    | (Ok a, s') => k a s'
    | (Raise e, s') => (Raise e, s')
    | (OutOfFuel, s') => (OutOfFuel, s')
    end.

Definition raise {S A} (e : exn) : M S A := fun s => (Raise e, s).
Definition out_of_fuel {S A} : M S A := fun s => (OutOfFuel, s).
Definition get {S} : M S S := fun s => (Ok s, s).
Definition modify {S} (f : S -> S) : M S unit := fun s => (Ok tt, f s).

(** [x[i]] and [d[k]] on an optional result. *)
Definition or_raise {S A} (e : exn) (o : option A) : M S A :=
  match o with
  | Some a => ret a
  | None => raise e
  end.

Declare Scope py_scope.
Delimit Scope py_scope with py.
Notation "'let*' x ':=' m 'in' k" := (bind m (fun x => k))
  (at level 10, x name, m at level 100, k at level 200) : py_scope.
Notation "'let*' ' pat ':=' m 'in' k" := (bind m (fun x => match x with pat => k end))
  (at level 10, pat pattern, m at level 100, k at level 200) : py_scope.
Notation "m >>> k" := (bind m (fun _ => k))
  (at level 100, k at level 200, right associativity) : py_scope.

(** ** ctypes integers *)

(** [ctypes.c_int16(v).value] and [ctypes.c_int32(v).value]: ctypes does no
    overflow checking, the value is reduced to the two's complement range. *)
Definition c_int16 (v : Z) : Z := (v + 2 ^ 15) mod 2 ^ 16 - 2 ^ 15.
Definition c_int32 (v : Z) : Z := (v + 2 ^ 31) mod 2 ^ 32 - 2 ^ 31.
Arguments c_int16 : simpl never.
Arguments c_int32 : simpl never.

(** Python's [int(x)] on a number: truncation toward zero. *)
Definition py_int (q : Q) : Z := Z.quot (Qnum q) (Z.pos (Qden q)).
Arguments py_int : simpl never.

(** [int(b)] on a bool. *)
Definition int_of_bool (b : bool) : Z := if b then 1 else 0.

(** A numpy array lives in a store and is referred to by its address; the
    Python list [streaming_buffer] holds such references, so the script,
    the object and the driver all see the same array. *)
Definition addr := nat.

(** [np.zeros(n, dtype='int16')] *)
Definition np_zeros (n : Z) : list Z := replicate (Z.to_nat n) 0.
Arguments np_zeros : simpl never.

(** ** block_capture_single.py *)

Module block_capture_single.

(** *** The vendor SDK, as an interface *)

(** A call into [picosdk.ps5000a], with the arguments the Python code
    passes.  An argument passed as [ctypes.byref(cell)] appears as the value
    the cell holds when the call is made; [None] arguments are kept. *)
Inductive call :=
| OpenUnit (handle : Z) (serial : option string) (res : Z)
| MaximumValue (handle value : Z)
| SetChannel (handle channel enabled coupling range : Z) (offset : Q)
| SetSimpleTrigger (handle enable source threshold direction delay auto_ms : Z)
| SetDataBuffer (handle channel : Z) (buffer : addr) (buffer_lth segment mode : Z)
| MemorySegments (handle n_segments n_max_samples : Z)
| SetNoOfCaptures (handle n_captures : Z)
| RunBlock (handle pre post timebase : Z) (time_indisposed : option Z)
    (segment : Z) (lp_ready p_parameter : option Z)
| IsReady (handle ready : Z)
| GetValuesBulk (handle no_of_samples from_seg to_seg ratio mode : Z)
    (overflow : list Z)
| Stop (handle : Z)
| CloseUnit (handle : Z).

(** A driver over a device state [D]: each function gives the status code
    it returns, the values it leaves in the cells it was given by
    reference, and the next device state.  [ps5000aGetValuesBulk] also
    fills the arrays registered with the driver, which live in the store. *)
Class ps5000a (D : Type) := {
  ps5000aOpenUnit : Z -> option string -> Z -> D -> Z * Z * D;
  ps5000aMaximumValue : Z -> Z -> D -> Z * Z * D;
  ps5000aSetChannel : Z -> Z -> Z -> Z -> Z -> Q -> D -> Z * D;
  ps5000aSetSimpleTrigger : Z -> Z -> Z -> Z -> Z -> Z -> Z -> D -> Z * D;
  ps5000aSetDataBuffer : Z -> Z -> addr -> Z -> Z -> Z -> D -> Z * D;
  ps5000aMemorySegments : Z -> Z -> Z -> D -> Z * Z * D;
  ps5000aSetNoOfCaptures : Z -> Z -> D -> Z * D;
  ps5000aRunBlock :
    Z -> Z -> Z -> Z -> option Z -> Z -> option Z -> option Z -> D -> Z * D;
  ps5000aIsReady : Z -> Z -> D -> Z * Z * D;
  ps5000aGetValuesBulk :
    Z -> Z -> Z -> Z -> Z -> Z -> list Z -> gmap addr (list Z) -> D ->
    Z * (Z * list Z * gmap addr (list Z)) * D;
  ps5000aStop : Z -> D -> Z * D;
  ps5000aCloseUnit : Z -> D -> Z * D;
  (** [picosdk.functions.mV2adc(millivolts, range, maxADC)], given the
      value held by [maxADC]; [None] when it raises (a range index outside
      its table). *)
  mV2adc : Z -> Z -> Z -> option Q
}.

(** What the script leaves behind, in order. *)
Inductive event :=
| Api (c : call) (st : Z) (out : list Z)
    (* an SDK call, the status it returned, the values it wrote by reference *)
| Plot (ys : list Z)   (* plt.plot(array) *)
| Show.                (* plt.show() *)

(** *** The class *)

Record PicoBlockCap := {
  resolution : Z;
  timebase : Z;
  handle : Z;                  (* c_int16 *)
  max_adc : Z;                 (* c_int16 *)
  samples : Z;                 (* a Python int *)
  max_samples : Z;             (* c_int32 *)
  buffer : list addr;          (* a list of numpy arrays *)
  status : gmap string Z;
  overflow : list Z;           (* c_int16, then an array of c_int16 *)
  ready : Z;                   (* c_int16 *)
  check : Z;                   (* c_int16 *)
  samples_per_seg : Z          (* c_int32 *)
}.

Definition __init__ (handle : Z) (buffer : list addr) (buffer_size : Z)
  : PicoBlockCap :=
  {| resolution := 1;
     timebase := 1;
     handle := c_int16 handle;
     max_adc := c_int16 0;
     samples := buffer_size;
     max_samples := c_int32 buffer_size;
     buffer := buffer;
     status := ∅;
     overflow := [c_int16 0];
     ready := c_int16 0;
     check := c_int16 0;
     samples_per_seg := c_int32 0 |}.

Definition set_handle (v : Z) (o : PicoBlockCap) : PicoBlockCap :=
  {| resolution := resolution o; timebase := timebase o; handle := v;
     max_adc := max_adc o; samples := samples o; max_samples := max_samples o;
     buffer := buffer o; status := status o; overflow := overflow o;
     ready := ready o; check := check o; samples_per_seg := samples_per_seg o |}.

Definition set_max_adc (v : Z) (o : PicoBlockCap) : PicoBlockCap :=
  {| resolution := resolution o; timebase := timebase o; handle := handle o;
     max_adc := v; samples := samples o; max_samples := max_samples o;
     buffer := buffer o; status := status o; overflow := overflow o;
     ready := ready o; check := check o; samples_per_seg := samples_per_seg o |}.

Definition set_max_samples (v : Z) (o : PicoBlockCap) : PicoBlockCap :=
  {| resolution := resolution o; timebase := timebase o; handle := handle o;
     max_adc := max_adc o; samples := samples o; max_samples := v;
     buffer := buffer o; status := status o; overflow := overflow o;
     ready := ready o; check := check o; samples_per_seg := samples_per_seg o |}.

Definition set_status (f : gmap string Z -> gmap string Z) (o : PicoBlockCap)
  : PicoBlockCap :=
  {| resolution := resolution o; timebase := timebase o; handle := handle o;
     max_adc := max_adc o; samples := samples o; max_samples := max_samples o;
     buffer := buffer o; status := f (status o); overflow := overflow o;
     ready := ready o; check := check o; samples_per_seg := samples_per_seg o |}.

Definition set_overflow (v : list Z) (o : PicoBlockCap) : PicoBlockCap :=
  {| resolution := resolution o; timebase := timebase o; handle := handle o;
     max_adc := max_adc o; samples := samples o; max_samples := max_samples o;
     buffer := buffer o; status := status o; overflow := v;
     ready := ready o; check := check o; samples_per_seg := samples_per_seg o |}.

Definition set_ready (v : Z) (o : PicoBlockCap) : PicoBlockCap :=
  {| resolution := resolution o; timebase := timebase o; handle := handle o;
     max_adc := max_adc o; samples := samples o; max_samples := max_samples o;
     buffer := buffer o; status := status o; overflow := overflow o;
     ready := v; check := check o; samples_per_seg := samples_per_seg o |}.

Definition set_samples_per_seg (v : Z) (o : PicoBlockCap) : PicoBlockCap :=
  {| resolution := resolution o; timebase := timebase o; handle := handle o;
     max_adc := max_adc o; samples := samples o; max_samples := max_samples o;
     buffer := buffer o; status := status o; overflow := overflow o;
     ready := ready o; check := check o; samples_per_seg := v |}.

(** The state the script runs in: the one [PicoBlockCap] object it makes,
    the instrument, the store of numpy arrays, and the trace so far. *)
Record world (D : Type) := {
  self : PicoBlockCap;
  device : D;
  heap : gmap addr (list Z);
  trace : list event
}.
Arguments self {D} w.
Arguments device {D} w.
Arguments heap {D} w.
Arguments trace {D} w.

Section methods.
Context {D : Type} {drv : ps5000a D}.
Local Open Scope py_scope.

Definition get_self : M (world D) PicoBlockCap :=
  fun w => (Ok (self w), w).

Definition update_self (f : PicoBlockCap -> PicoBlockCap) : M (world D) unit :=
  modify (fun w =>
    {| self := f (self w); device := device w; heap := heap w; trace := trace w |}).

Definition emit (e : event) : M (world D) unit :=
  modify (fun w =>
    {| self := self w; device := device w; heap := heap w; trace := trace w ++ [e] |}).

(** [self.status[key] = st] and [self.status[key]] *)
Definition store_status (key : string) (st : Z) : M (world D) unit :=
  update_self (set_status (insert key st)).

Definition load_status (key : string) : M (world D) Z :=
  let* o := get_self in or_raise (KeyError key) (status o !! key).

(** An SDK call that touches only the instrument: run the driver, record
    the call with what came back. *)
Definition sdk {A} (c : call) (f : D -> Z * A * D) (out : A -> list Z)
  : M (world D) (Z * A) :=
  fun w =>
    let '(st, a, d) := f (device w) in
    (Ok (st, a),
     {| self := self w; device := d; heap := heap w;
        trace := trace w ++ [Api c st (out a)] |}).

Definition sdk0 (c : call) (f : D -> Z * D) : M (world D) Z :=
  let* '(st, _) := sdk c (fun d => let '(st, d') := f d in (st, tt, d')) (fun _ => []) in
  ret st.

(** [ps5000aGetValuesBulk] writes the captured samples into the registered
    arrays as well. *)
Definition sdk_get_values_bulk (h n from_seg to_seg ratio mode : Z) (ov : list Z)
  : M (world D) (Z * (Z * list Z)) :=
  fun w =>
    let '(st, (n', ov', hp'), d) :=
      ps5000aGetValuesBulk h n from_seg to_seg ratio mode ov (heap w) (device w) in
    (Ok (st, (c_int32 n', c_int16 <$> ov')),
     {| self := self w; device := d; heap := hp';
        trace := trace w ++
          [Api (GetValuesBulk h n from_seg to_seg ratio mode ov) st
             (c_int32 n' :: (c_int16 <$> ov'))] |}).

Definition open_unit (res : Z) : M (world D) Z :=
  let* o := get_self in
  let* '(st, h) := sdk (OpenUnit (handle o) None res)
                       (ps5000aOpenUnit (handle o) None res)
                       (fun h => [c_int16 h]) in
  update_self (set_handle (c_int16 h)) >>>
  store_status "openunit" st >>>
  let* o := get_self in
  let* '(st, m) := sdk (MaximumValue (handle o) (max_adc o))
                       (ps5000aMaximumValue (handle o) (max_adc o))
                       (fun m => [c_int16 m]) in
  update_self (set_max_adc (c_int16 m)) >>>
  store_status "maximumValue" st >>>
  load_status "openunit".

Definition set_channel (channel : Z) (en : bool) (coupling range : Z) (offset : Q)
  : M (world D) Z :=
  let* o := get_self in
  sdk0 (SetChannel (handle o) channel (int_of_bool en) coupling range offset)
       (ps5000aSetChannel (handle o) channel (int_of_bool en) coupling range offset).

Definition set_simple_trigger
  (en source range threshold_mv direction delay auto_ms : Z) : M (world D) Z :=
  let* o := get_self in
  let* adc := or_raise IndexError (mV2adc threshold_mv range (max_adc o)) in
  let threshold := py_int adc in
  sdk0 (SetSimpleTrigger (handle o) en source threshold direction delay auto_ms)
       (ps5000aSetSimpleTrigger (handle o) en source threshold direction delay auto_ms).

Definition set_buffer (channel : Z) (buffer : list addr) (segment : Z)
  : M (world D) Z :=
  let* o := get_self in
  let* b0 := or_raise IndexError (buffer !! 0%nat) in
  sdk0 (SetDataBuffer (handle o) channel b0 (max_samples o) segment 0)
       (ps5000aSetDataBuffer (handle o) channel b0 (max_samples o) segment 0).

Definition set_captures (captures : Z) : M (world D) Z :=
  let* o := get_self in
  let* '(st, n) := sdk (MemorySegments (handle o) captures (samples_per_seg o))
                       (ps5000aMemorySegments (handle o) captures (samples_per_seg o))
                       (fun n => [c_int32 n]) in
  update_self (set_samples_per_seg (c_int32 n)) >>>
  store_status "MemorySegments" st >>>
  let* o := get_self in
  let* st := sdk0 (SetNoOfCaptures (handle o) captures)
                  (ps5000aSetNoOfCaptures (handle o) captures) in
  store_status "SetNoOfCaptures" st >>>
  (if captures <? 0
   then raise ValueError
   else update_self (set_overflow (replicate (Z.to_nat captures) 0))) >>>
  load_status "SetNoOfCaptures".

Definition initalise_parameters : M (world D) unit :=
  let* o := get_self in
  let* st := open_unit (resolution o) in store_status "openunit" st >>>
  let* st := set_channel 0 true 0 9 0 in store_status "set_source" st >>>
  let* st := set_channel 1 false 0 9 0 in store_status "set_source" st >>>
  let* st := set_channel 2 false 0 9 0 in store_status "set_source" st >>>
  let* st := set_channel 3 false 0 9 0 in store_status "set_source" st >>>
  let* st := set_simple_trigger 1 0 9 0 2 0 10 in store_status "set_trigger" st >>>
  let* st := set_captures 1 in store_status "set_captures" st >>>
  let* o := get_self in
  let* st := set_buffer 0 (buffer o) 0 in store_status "set_buffer" st.

(** The [while self.ready.value == self.check.value] loop; [fuel] bounds
    the number of iterations. *)
Fixpoint poll (fuel : nat) : M (world D) unit :=
  let* o := get_self in
  if ready o =? check o then
    match fuel with
    | O => out_of_fuel
    | S fuel' =>
        let* '(st, r) := sdk (IsReady (handle o) (ready o))
                             (ps5000aIsReady (handle o) (ready o))
                             (fun r => [c_int16 r]) in
        update_self (set_ready (c_int16 r)) >>>
        store_status "isReady" st >>>
        poll fuel'
    end
  else ret tt.

Definition run_block (fuel : nat) : M (world D) unit :=
  let* o := get_self in
  let* st := sdk0 (RunBlock (handle o) 0 (samples o) (timebase o) None 0 None None)
                  (ps5000aRunBlock (handle o) 0 (samples o) (timebase o) None 0 None None) in
  store_status "runblock" st >>>
  poll fuel >>>
  let* o := get_self in
  let* '(st, (n, ov)) :=
    sdk_get_values_bulk (handle o) (max_samples o) 0 0 0 0 (overflow o) in
  update_self (set_max_samples n) >>>
  update_self (set_overflow ov) >>>
  store_status "GetValuesBulk" st >>>
  update_self (set_ready (c_int16 0)).

Definition stop_scope : M (world D) Z :=
  let* o := get_self in
  let* st := sdk0 (Stop (handle o)) (ps5000aStop (handle o)) in
  store_status "stop" st >>>
  let* o := get_self in
  let* st := sdk0 (CloseUnit (handle o)) (ps5000aCloseUnit (handle o)) in
  store_status "close" st >>>
  load_status "close".

(** *** The example script at the end of the module *)

(** [plt.plot(streaming_buffer[0])] *)
Definition plt_plot (streaming_buffer : list addr) : M (world D) unit :=
  let* a := or_raise IndexError (streaming_buffer !! 0%nat) in
  let* w := get in
  let* ys := or_raise IndexError (heap w !! a) in
  emit (Plot ys).

Definition plt_show : M (world D) unit := emit Show.

(** Everything after [test = PicoBlockCap(0, streaming_buffer, 100000)]. *)
Definition script (fuel : nat) (streaming_buffer : list addr) : M (world D) Z :=
  initalise_parameters >>>
  run_block fuel >>>
  plt_plot streaming_buffer >>>
  plt_show >>>
  run_block fuel >>>
  plt_plot streaming_buffer >>>
  plt_show >>>
  let* st := set_channel 0 false 0 9 0 in store_status "set_source" st >>>
  let* st := set_channel 1 true 0 9 0 in store_status "set_source" st >>>
  let* o := get_self in
  let* st := set_buffer 1 (buffer o) 0 in store_status "set_buffer" st >>>
  let* _ := set_simple_trigger 1 1 9 0 2 0 10 in
  run_block fuel >>>
  plt_plot streaming_buffer >>>
  plt_show >>>
  stop_scope.

(** The state at the first statement after the constructor: one array of
    100000 zeros in the store, [streaming_buffer] the list holding it. *)
Definition streaming_buffer : list addr := [0%nat].

Definition initial_world (d : D) : world D :=
  {| self := __init__ 0 streaming_buffer 100000;
     device := d;
     heap := {[ 0%nat := np_zeros 100000 ]};
     trace := [] |}.

Definition main (fuel : nat) (d : D) : outcome Z * world D :=
  script fuel streaming_buffer (initial_world d).

End methods.

(** *** Reading traces *)

Inductive api_name :=
| NOpenUnit | NMaximumValue | NSetChannel | NSetSimpleTrigger | NSetDataBuffer
| NMemorySegments | NSetNoOfCaptures | NRunBlock | NIsReady | NGetValuesBulk
| NStop | NCloseUnit | NPlot | NShow.

Definition name_of_call (c : call) : api_name :=
  match c with
  | OpenUnit _ _ _ => NOpenUnit
  | MaximumValue _ _ => NMaximumValue
  | SetChannel _ _ _ _ _ _ => NSetChannel
  | SetSimpleTrigger _ _ _ _ _ _ _ => NSetSimpleTrigger
  | SetDataBuffer _ _ _ _ _ _ => NSetDataBuffer
  | MemorySegments _ _ _ => NMemorySegments
  | SetNoOfCaptures _ _ => NSetNoOfCaptures
  | RunBlock _ _ _ _ _ _ _ _ => NRunBlock
  | IsReady _ _ => NIsReady
  | GetValuesBulk _ _ _ _ _ _ _ => NGetValuesBulk
  | Stop _ => NStop
  | CloseUnit _ => NCloseUnit
  end.

Definition name_of (e : event) : api_name :=
  match e with
  | Api c _ _ => name_of_call c
  | Plot _ => NPlot
  | Show => NShow
  end.

Definition names (t : list event) : list api_name := name_of <$> t.

(** The events of a run of polls: [r] is what the [ready] cell holds before
    the first one, each answer is the status returned and the value left in
    the cell. *)
Fixpoint poll_events (h r : Z) (answers : list (Z * Z)) : list event :=
  match answers with
  | [] => []
  | (st, r') :: rest => Api (IsReady h r) st [r'] :: poll_events h r' rest
  end.

(** What the [ready] cell holds after [n] calls of [ps5000aIsReady] made
    one after the other, starting with [r] in the cell and the instrument
    in state [d]. *)
Fixpoint nth_poll {D} {drv : ps5000a D} (h : Z) (n : nat) (r : Z) (d : D) : Z :=
  match n with
  | O => r
  | S n' =>
      let '(_, r', d') := ps5000aIsReady h r d in
      nth_poll h n' (c_int16 r') d'
  end.

(** The instrument state [ps5000aRunBlock] leaves when [run_block] is
    entered in [w]. *)
Definition armed {D} {drv : ps5000a D} (w : world D) : D :=
  (ps5000aRunBlock (handle (self w)) 0 (samples (self w)) (timebase (self w))
     None 0 None None (device w)).2.

(** The state right after the [ps5000aRunBlock] call of [run_block], and
    the state [run_block] returns in when the poll loop is left in [w]. *)
Definition after_run_block_call {D} {drv : ps5000a D} (w : world D) : world D :=
  let o := self w in
  let r := ps5000aRunBlock (handle o) 0 (samples o) (timebase o) None 0 None None
             (device w) in
  {| self := set_status (insert "runblock" r.1) o; device := r.2; heap := heap w;
     trace := trace w ++
       [Api (RunBlock (handle o) 0 (samples o) (timebase o) None 0 None None) r.1 []] |}.

Definition after_get_values_bulk {D} {drv : ps5000a D} (w : world D) : world D :=
  let o := self w in
  let r := ps5000aGetValuesBulk (handle o) (max_samples o) 0 0 0 0 (overflow o)
             (heap w) (device w) in
  {| self := set_ready (c_int16 0)
               (set_status (insert "GetValuesBulk" r.1.1)
                  (set_overflow (c_int16 <$> r.1.2.1.2)
                     (set_max_samples (c_int32 r.1.2.1.1) o)));
     device := r.2; heap := r.1.2.2;
     trace := trace w ++
       [Api (GetValuesBulk (handle o) (max_samples o) 0 0 0 0 (overflow o)) r.1.1
          (c_int32 r.1.2.1.1 :: (c_int16 <$> r.1.2.1.2))] |}.

(** Two objects that differ at most in the [ready] flag and in the status
    dictionary. *)
Definition same_settings (o o' : PicoBlockCap) : Prop :=
  set_ready 0 (set_status (fun _ => ∅) o) = set_ready 0 (set_status (fun _ => ∅) o').

(** Between [w] and [w'] the calls named in [L] were made, in that order,
    and the [ready] and [check] flags are as they were. *)
Definition emits {D} (L : list api_name) (w w' : world D) : Prop :=
  names (trace w') = names (trace w) ++ L /\
  ready (self w') = ready (self w) /\
  check (self w') = check (self w).

(** A computation that leaves the [ready] and [check] flags as they are,
    however it ends. *)
Definition keeps_flags {D A} (m : M (world D) A) : Prop :=
  forall w, ready (self (m w).2) = ready (self w) /\
            check (self (m w).2) = check (self w).

(** The calls of one acquisition that polled [n] times. *)
Definition acquisition (n : nat) : list api_name :=
  [NRunBlock] ++ replicate n NIsReady ++ [NGetValuesBulk].

(** *** Clients of the class *)

(** A step a client of the class takes after constructing the object: a
    method call, a store into the status dictionary, or a plot, as the
    example script does. *)
Inductive step :=
| call_open_unit (res : Z)
| call_set_channel (channel : Z) (en : bool) (coupling range : Z) (offset : Q)
| call_set_simple_trigger (en source range threshold_mv direction delay auto_ms : Z)
| call_set_buffer (channel : Z) (buffer : list addr) (segment : Z)
| call_set_captures (captures : Z)
| call_initalise_parameters
| call_run_block (fuel : nat)
| call_stop_scope
| do_store_status (key : string) (st : Z)
| do_plot (arrays : list addr)
| do_show.

Definition take_step {D} {drv : ps5000a D} (s : step) : M (world D) unit :=
  (match s with
   | call_open_unit res => open_unit res >>> ret tt
   | call_set_channel channel en coupling range offset =>
       set_channel channel en coupling range offset >>> ret tt
   | call_set_simple_trigger en source range threshold_mv direction delay auto_ms =>
       set_simple_trigger en source range threshold_mv direction delay auto_ms >>> ret tt
   | call_set_buffer channel buffer segment =>
       set_buffer channel buffer segment >>> ret tt
   | call_set_captures captures => set_captures captures >>> ret tt
   | call_initalise_parameters => initalise_parameters
   | call_run_block fuel => run_block fuel
   | call_stop_scope => stop_scope >>> ret tt
   | do_store_status key st => store_status key st
   | do_plot arrays => plt_plot arrays
   | do_show => plt_show
   end)%py.

(** The states a client can be in: right after the constructor, or after a
    step that came back (with a value or an exception) from such a state. *)
Inductive reachable {D} {drv : ps5000a D} : world D -> Prop :=
| reachable_init handle buffer buffer_size d hp :
    reachable {| self := __init__ handle buffer buffer_size;
                 device := d; heap := hp; trace := [] |}
| reachable_step s w r w' :
    reachable w -> take_step s w = (r, w') -> r <> OutOfFuel -> reachable w'.

(** *** Runs that differ in the status codes only *)

(** Two drivers that answer alike except for the status code. *)
Record same_answers {D} (drv1 drv2 : ps5000a D) : Prop := {
  same_OpenUnit : forall h s res d,
    let r1 := @ps5000aOpenUnit D drv1 h s res d in
    let r2 := @ps5000aOpenUnit D drv2 h s res d in
    r1.1.2 = r2.1.2 /\ r1.2 = r2.2;
  same_MaximumValue : forall h v d,
    let r1 := @ps5000aMaximumValue D drv1 h v d in
    let r2 := @ps5000aMaximumValue D drv2 h v d in
    r1.1.2 = r2.1.2 /\ r1.2 = r2.2;
  same_SetChannel : forall h c e cp rg off d,
    (@ps5000aSetChannel D drv1 h c e cp rg off d).2 =
    (@ps5000aSetChannel D drv2 h c e cp rg off d).2;
  same_SetSimpleTrigger : forall h e s t dr dl a d,
    (@ps5000aSetSimpleTrigger D drv1 h e s t dr dl a d).2 =
    (@ps5000aSetSimpleTrigger D drv2 h e s t dr dl a d).2;
  same_SetDataBuffer : forall h c b n sg m d,
    (@ps5000aSetDataBuffer D drv1 h c b n sg m d).2 =
    (@ps5000aSetDataBuffer D drv2 h c b n sg m d).2;
  same_MemorySegments : forall h n m d,
    let r1 := @ps5000aMemorySegments D drv1 h n m d in
    let r2 := @ps5000aMemorySegments D drv2 h n m d in
    r1.1.2 = r2.1.2 /\ r1.2 = r2.2;
  same_SetNoOfCaptures : forall h n d,
    (@ps5000aSetNoOfCaptures D drv1 h n d).2 =
    (@ps5000aSetNoOfCaptures D drv2 h n d).2;
  same_RunBlock : forall h pre post tb ti sg lp pp d,
    (@ps5000aRunBlock D drv1 h pre post tb ti sg lp pp d).2 =
    (@ps5000aRunBlock D drv2 h pre post tb ti sg lp pp d).2;
  same_IsReady : forall h r d,
    let r1 := @ps5000aIsReady D drv1 h r d in
    let r2 := @ps5000aIsReady D drv2 h r d in
    r1.1.2 = r2.1.2 /\ r1.2 = r2.2;
  same_GetValuesBulk : forall h n f t ra m ov hp d,
    let r1 := @ps5000aGetValuesBulk D drv1 h n f t ra m ov hp d in
    let r2 := @ps5000aGetValuesBulk D drv2 h n f t ra m ov hp d in
    r1.1.2 = r2.1.2 /\ r1.2 = r2.2;
  same_Stop : forall h d,
    (@ps5000aStop D drv1 h d).2 = (@ps5000aStop D drv2 h d).2;
  same_CloseUnit : forall h d,
    (@ps5000aCloseUnit D drv1 h d).2 = (@ps5000aCloseUnit D drv2 h d).2;
  same_mV2adc : forall mv rg m,
    @mV2adc D drv1 mv rg m = @mV2adc D drv2 mv rg m
}.

(** An event with its status code blanked. *)
Definition forget_status (e : event) : event :=
  match e with
  | Api c _ out => Api c 0 out
  | e => e
  end.

(** Two objects alike except for the codes held in [status], which has the
    same keys in both. *)
Definition same_object (o1 o2 : PicoBlockCap) : Prop :=
  set_status (fun _ => ∅) o1 = set_status (fun _ => ∅) o2 /\
  dom (status o1) = dom (status o2).

Definition same_world {D} (w1 w2 : world D) : Prop :=
  same_object (self w1) (self w2) /\
  device w1 = device w2 /\
  heap w1 = heap w2 /\
  forget_status <$> trace w1 = forget_status <$> trace w2.

(** The same kind of outcome: both a value, the same exception, or both
    still polling. *)
Definition same_outcome {A B} (r1 : outcome A) (r2 : outcome B) : Prop :=
  match r1, r2 with
  | Ok _, Ok _ => True
  | Raise e1, Raise e2 => e1 = e2
  | OutOfFuel, OutOfFuel => True
  | _, _ => False
  end.

(** Two computations that, started in two such worlds, end in two such
    worlds with the same kind of outcome and with values related by [R]. *)
Definition same_run {D A B} (R : A -> B -> Prop)
  (m1 : M (world D) A) (m2 : M (world D) B) : Prop :=
  forall w1 w2, same_world w1 w2 ->
    same_world (m1 w1).2 (m2 w2).2 /\
    match (m1 w1).1, (m2 w2).1 with
    | Ok a, Ok b => R a b
    | Raise e1, Raise e2 => e1 = e2
    | OutOfFuel, OutOfFuel => True
    | _, _ => False
    end.

(** *** A simulated instrument, to run the script on *)

Record sim_state := {
  countdown : option nat;     (* polls left before the capture is done *)
  registered : option addr    (* the array given to ps5000aSetDataBuffer *)
}.

(** picosdk's conversion: [round(millivolts * maxADC / vRange)], rounding
    halves to even. *)
Definition sim_mV2adc (millivolts range max_adc : Z) : option Q :=
  v_range ← [10; 20; 50; 100; 200; 500; 1000; 2000; 5000; 10000; 20000;
             50000; 100000; 200000] !! Z.to_nat range;
  if range <? 0 then None else
  let n := millivolts * max_adc in
  let f := n `div` v_range in
  let r := n `mod` v_range in
  Some (inject_Z (if 2 * r <? v_range then f
                  else if v_range <? 2 * r then f + 1
                  else if Z.even f then f else f + 1)).

(** An instrument that answers every call with the status [code], reports
    ready after [delay] polls that report busy ([None]: never), and then
    delivers three samples into the registered array. *)
Definition sim_driver (code : Z) (delay : option nat) : ps5000a sim_state := {|
  ps5000aOpenUnit _ _ _ d := (code, 16384, d);
  ps5000aMaximumValue _ _ d := (code, 32767, d);
  ps5000aSetChannel _ _ _ _ _ _ d := (code, d);
  ps5000aSetSimpleTrigger _ _ _ _ _ _ _ d := (code, d);
  ps5000aSetDataBuffer _ _ a _ _ _ d :=
    (code, {| countdown := countdown d; registered := Some a |});
  ps5000aMemorySegments _ _ _ d := (code, 1000000, d);
  ps5000aSetNoOfCaptures _ _ d := (code, d);
  ps5000aRunBlock _ _ _ _ _ _ _ _ d :=
    (code, {| countdown := delay; registered := registered d |});
  ps5000aIsReady _ _ d :=
    match countdown d with
    | Some O => (code, 1, d)
    | Some (S n) => (code, 0, {| countdown := Some n; registered := registered d |})
    | None => (code, 0, d)
    end;
  ps5000aGetValuesBulk _ n _ _ _ _ ov hp d :=
    (code,
     (n, ov, match registered d with
             | Some a => <[a := [1; -2; 3]]> hp
             | None => hp
             end),
     d);
  ps5000aStop _ d := (code, d);
  ps5000aCloseUnit _ d := (code, d);
  mV2adc := sim_mV2adc
|}.

Definition sim_off : sim_state := {| countdown := None; registered := None |}.

(** The instrument that needs three polls, the one that never finishes, and
    the one that answers every call with the code 7. *)
Definition sim_ready : ps5000a sim_state := sim_driver 0 (Some 2%nat).
Definition sim_stuck : ps5000a sim_state := sim_driver 0 None.
Definition sim_failing : ps5000a sim_state := sim_driver 7 (Some 2%nat).

(** The script's starting state on the simulated instrument. *)
Definition sim_world : world sim_state := initial_world sim_off.

(** *** What the calls are made of *)

Definition handle_of_call (c : call) : Z :=
  match c with
  | OpenUnit h _ _ => h
  | MaximumValue h _ => h
  | SetChannel h _ _ _ _ _ => h
  | SetSimpleTrigger h _ _ _ _ _ _ => h
  | SetDataBuffer h _ _ _ _ _ => h
  | MemorySegments h _ _ => h
  | SetNoOfCaptures h _ => h
  | RunBlock h _ _ _ _ _ _ _ => h
  | IsReady h _ => h
  | GetValuesBulk h _ _ _ _ _ _ => h
  | Stop h => h
  | CloseUnit h => h
  end.

(** The arguments of [c] that the class takes from the object are those
    of [o]: the handle always; the cells handed over by reference; the
    sample count and the timebase of [ps5000aRunBlock]; the length given to
    [ps5000aSetDataBuffer]; and the constants the methods write out. *)
Definition made_by (o : PicoBlockCap) (c : call) : Prop :=
  match c with
  | OpenUnit h serial _ => h = handle o /\ serial = None
  | MaximumValue h v => h = handle o /\ v = max_adc o
  | SetChannel h _ _ _ _ _ => h = handle o
  | SetSimpleTrigger h _ _ _ _ _ _ => h = handle o
  | SetDataBuffer h _ _ n _ mode => h = handle o /\ n = max_samples o /\ mode = 0
  | MemorySegments h _ sps => h = handle o /\ sps = samples_per_seg o
  | SetNoOfCaptures h _ => h = handle o
  | RunBlock h pre post tb ti seg lp pp =>
      h = handle o /\ pre = 0 /\ post = samples o /\ tb = timebase o /\
      ti = None /\ seg = 0 /\ lp = None /\ pp = None
  | IsReady h r => h = handle o /\ r = ready o
  | GetValuesBulk h n from_seg to_seg ratio mode ov =>
      h = handle o /\ n = max_samples o /\ from_seg = 0 /\ to_seg = 0 /\
      ratio = 0 /\ mode = 0 /\ ov = overflow o
  | Stop h => h = handle o
  | CloseUnit h => h = handle o
  end.

(** Started with the object [o] satisfying [I], the computation ends (with
    a value, an exception or still polling) with an object satisfying [I],
    and what it has added to the trace satisfies [P] entry by entry. *)
Definition adds_from {D A} (I : PicoBlockCap -> Prop) (P : event -> Prop)
  (o : PicoBlockCap) (m : M (world D) A) : Prop :=
  forall w, self w = o -> I o ->
    I (self (m w).2) /\
    exists t, trace (m w).2 = trace w ++ t /\ Forall P t.

(** The values a [c_int16] and a [c_int32] cell can hold. *)
Definition int16 (v : Z) : Prop := - 2 ^ 15 <= v < 2 ^ 15.
Definition int32 (v : Z) : Prop := - 2 ^ 31 <= v < 2 ^ 31.

Definition cells_in_range (o : PicoBlockCap) : Prop :=
  int16 (handle o) /\ int16 (max_adc o) /\ int32 (max_samples o) /\
  Forall int16 (overflow o) /\ int16 (ready o) /\ int16 (check o) /\
  int32 (samples_per_seg o).

(** The fields no method assigns. *)
Definition settings (o : PicoBlockCap) : Z * Z * Z * list addr * Z :=
  (resolution o, timebase o, samples o, buffer o, check o).

(** An acquisition request as [run_block] writes it, for [n] samples. *)
Definition run_block_request (n : Z) (e : event) : Prop :=
  match e with
  | Api (RunBlock _ pre post tb ti seg lp pp) _ _ =>
      pre = 0 /\ post = n /\ tb = 1 /\ ti = None /\ seg = 0 /\ lp = None /\ pp = None
  | _ => True
  end.

(** An entry made with the handle [h], or made without any. *)
Definition with_handle (h : Z) (e : event) : Prop :=
  match e with
  | Api c _ _ => handle_of_call c = h
  | _ => True
  end.

(** An entry that is neither the stop nor the close of the unit. *)
Definition keeps_open (e : event) : Prop :=
  name_of e <> NStop /\ name_of e <> NCloseUnit.


(** An instrument like [sim_ready] that delivers three samples whatever
    was asked for, and says so in the sample count it is given by
    reference. *)
Definition sim_short : ps5000a sim_state := {|
  ps5000aOpenUnit := @ps5000aOpenUnit _ sim_ready;
  ps5000aMaximumValue := @ps5000aMaximumValue _ sim_ready;
  ps5000aSetChannel := @ps5000aSetChannel _ sim_ready;
  ps5000aSetSimpleTrigger := @ps5000aSetSimpleTrigger _ sim_ready;
  ps5000aSetDataBuffer := @ps5000aSetDataBuffer _ sim_ready;
  ps5000aMemorySegments := @ps5000aMemorySegments _ sim_ready;
  ps5000aSetNoOfCaptures := @ps5000aSetNoOfCaptures _ sim_ready;
  ps5000aRunBlock := @ps5000aRunBlock _ sim_ready;
  ps5000aIsReady := @ps5000aIsReady _ sim_ready;
  ps5000aGetValuesBulk _ _ _ _ _ _ ov hp d :=
    (0,
     (3, ov, match registered d with
             | Some a => <[a := [1; -2; 3]]> hp
             | None => hp
             end),
     d);
  ps5000aStop := @ps5000aStop _ sim_ready;
  ps5000aCloseUnit := @ps5000aCloseUnit _ sim_ready;
  mV2adc := sim_mV2adc
|}.

(** A table for [mV2adc] that knows no range, so that every conversion
    raises. *)
Definition sim_no_range : ps5000a sim_state := {|
  ps5000aOpenUnit := @ps5000aOpenUnit _ sim_ready;
  ps5000aMaximumValue := @ps5000aMaximumValue _ sim_ready;
  ps5000aSetChannel := @ps5000aSetChannel _ sim_ready;
  ps5000aSetSimpleTrigger := @ps5000aSetSimpleTrigger _ sim_ready;
  ps5000aSetDataBuffer := @ps5000aSetDataBuffer _ sim_ready;
  ps5000aMemorySegments := @ps5000aMemorySegments _ sim_ready;
  ps5000aSetNoOfCaptures := @ps5000aSetNoOfCaptures _ sim_ready;
  ps5000aRunBlock := @ps5000aRunBlock _ sim_ready;
  ps5000aIsReady := @ps5000aIsReady _ sim_ready;
  ps5000aGetValuesBulk := @ps5000aGetValuesBulk _ sim_ready;
  ps5000aStop := @ps5000aStop _ sim_ready;
  ps5000aCloseUnit := @ps5000aCloseUnit _ sim_ready;
  mV2adc _ _ _ := None
|}.

(** A computation that, when it returns, has stopped and closed the unit
    as the last thing it did, and that has not done so when it ends
    otherwise. *)
Definition closes_on_return {D} (m : M (world D) Z) : Prop :=
  forall w, exists t,
    Forall keeps_open t /\
    match (m w).1 with
    | Ok r =>
        exists h st,
          trace (m w).2 =
            trace w ++ t ++ [Api (Stop h) st []; Api (CloseUnit h) r []]
    | _ => trace (m w).2 = trace w ++ t
    end.

(** *** Running without an exception *)

(** A driver that fills the arrays it was given and frees none. *)
Definition arrays_stay {D} (drv : ps5000a D) : Prop :=
  forall h n from_seg to_seg ratio mode ov hp d a,
    is_Some (hp !! a) ->
    is_Some ((ps5000aGetValuesBulk h n from_seg to_seg ratio mode ov hp d).1.2.2 !! a).

(** The object is set up to acquire into [sb]: [max_adc] holds [m], the
    object's buffer is the list [sb], and its first array exists. *)
Definition set_up {D} (m : Z) (sb : list addr) (w : world D) : Prop :=
  max_adc (self w) = m /\
  buffer (self w) = sb /\
  exists a, sb !! 0%nat = Some a /\ is_Some (heap w !! a).

(** Started in a state satisfying [J], the computation ends in one, and not
    with an exception. *)
Definition runs_safely {D A} (J : world D -> Prop) (m : M (world D) A) : Prop :=
  forall w, J w -> J (m w).2 /\ forall e, (m w).1 <> Raise e.

(** *** The bound on the poll loop *)


End block_capture_single.

(** ** readhdf5.py *)

Module readhdf5.

(** *** h5py and matplotlib, as far as the script uses them *)

(** The value of an HDF5 attribute: a scalar, a string, or an array of
    integers. *)
Inductive attr_value :=
| AttrInt (v : Z)
| AttrStr (s : string)
| AttrInts (l : list Z).

(** What [f[name]] gives: a group or a two-dimensional dataset, each with
    its attributes. *)
Inductive h5object :=
| Group (attrs : gmap string attr_value)
| Dataset (attrs : gmap string attr_value) (rows : list (list Z)).

Definition attrs_of (o : h5object) : gmap string attr_value :=
  match o with
  | Group a => a
  | Dataset a _ => a
  end.

(** An element taken out of an attribute value. *)
Inductive item :=
| ItemInt (v : Z)
| ItemStr (s : string).

(** [str(x)] *)
Definition py_str (x : item) : string :=
  match x with
  | ItemInt v => pretty v
  | ItemStr s => s
  end.

Inductive event :=
| Plot (ys : list Z)                       (* plt.plot(ys) *)
| PlotXY (xs ys : list Z) (fmt : string)   (* plt.plot(xs, ys, fmt) *)
| Show.                                    (* plt.show() *)

Local Open Scope py_scope.

Definition emit (e : event) : M (list event) unit :=
  modify (fun tr => tr ++ [e]).

(** [len(v)] *)
Definition py_len (v : attr_value) : M (list event) nat :=
  match v with
  | AttrInt _ => raise TypeError
  | AttrStr s => ret (String.length s)
  | AttrInts l => ret (length l)
  end.

(** [v[i]] for an index [i] taken from [range(len(v))] *)
Definition getitem (v : attr_value) (i : nat) : M (list event) item :=
  match v with
  | AttrInt _ => raise TypeError
  | AttrStr s =>
      or_raise IndexError ((fun c => ItemStr (String c EmptyString)) <$> String.get i s)
  | AttrInts l => or_raise IndexError (ItemInt <$> l !! i)
  end.

(** [ds[i]] on what [f[name]] returned *)
Definition row (ds : h5object) (i : nat) : M (list event) (list Z) :=
  match ds with
  | Group _ => raise TypeError
  | Dataset _ rows => or_raise IndexError (rows !! i)
  end.

(** [for x in xs: body(x)] *)
Fixpoint for_each {A} (xs : list A) (body : A -> M (list event) unit)
  : M (list event) unit :=
  match xs with
  | [] => ret tt
  | x :: xs' => body x >>> for_each xs' body
  end.

(** The first loop: [metadata[key] = metadata_group.attrs[key]] for every
    key of the attributes. *)
Fixpoint copy_attrs (keys : list string) (attrs metadata : gmap string attr_value)
  : M (list event) (gmap string attr_value) :=
  match keys with
  | [] => ret metadata
  | key :: keys' =>
      let* v := or_raise (KeyError key) (attrs !! key) in
      copy_attrs keys' attrs (<[key := v]> metadata)
  end.

(** The body of the second loop, for the index [ch]. *)
Definition plot_channel (f : gmap string h5object)
  (metadata : gmap string attr_value) (ch : nat) : M (list event) unit :=
  let* ac := or_raise (KeyError "active_channels") (metadata !! "active_channels") in
  let* id := getitem ac ch in
  let* counts := or_raise (KeyError ("adc_counts_" +:+ py_str id))
                          (f !! ("adc_counts_" +:+ py_str id)) in
  let* ac := or_raise (KeyError "active_channels") (metadata !! "active_channels") in
  let* id := getitem ac ch in
  let* pha := or_raise (KeyError ("pha_" +:+ py_str id))
                       (f !! ("pha_" +:+ py_str id)) in
  let* c0 := row counts 0 in
  emit (Plot c0) >>>
  emit Show >>>
  let* p0 := row pha 0 in
  let* p1 := row pha 1 in
  emit (PlotXY p0 p1 "bo-") >>>
  emit Show.

Definition read_hdf5 (fs : gmap string (gmap string h5object)) (filename : string)
  : M (list event) unit :=
  let* f := or_raise OSError (fs !! filename) in
  let* metadata_group := or_raise (KeyError "metadata") (f !! "metadata") in
  let* metadata :=
    copy_attrs (map_to_list (attrs_of metadata_group)).*1
               (attrs_of metadata_group) ∅ in
  let* ac := or_raise (KeyError "active_channels") (metadata !! "active_channels") in
  let* n := py_len ac in
  for_each (seq 0 n) (plot_channel f metadata).

Definition main (fs : gmap string (gmap string h5object)) : outcome unit * list event :=
  read_hdf5 fs "/tmp/pico_captures/2023-06-12_10:44:59.084709.hdf5" [].

(** *** Reading attribute values *)

(** The entries of an attribute value, as indexing gives them: the
    integers of an array, the characters of a string; a scalar has none. *)
Fixpoint string_items (s : string) : list item :=
  match s with
  | EmptyString => []
  | String c s' => ItemStr (String c EmptyString) :: string_items s'
  end.

Definition items (v : attr_value) : option (list item) :=
  match v with
  | AttrInt _ => None
  | AttrStr s => Some (string_items s)
  | AttrInts l => Some (ItemInt <$> l)
  end.

(** What is drawn for the channel [id] of the file [f]: [counts] and [pha]
    are the datasets [adc_counts_<id>] and [pha_<id>], the plots are of the
    first row of [counts] and of the first two rows of [pha]. *)
Definition channel_drawn (f : gmap string h5object) (id : item) (evs : list event)
  : Prop :=
  exists ca counts pa pha c0 p0 p1,
    f !! ("adc_counts_" +:+ py_str id) = Some (Dataset ca counts) /\
    f !! ("pha_" +:+ py_str id) = Some (Dataset pa pha) /\
    counts !! 0%nat = Some c0 /\
    pha !! 0%nat = Some p0 /\
    pha !! 1%nat = Some p1 /\
    evs = [Plot c0; Show; PlotXY p0 p1 "bo-"; Show].

Definition is_waveform_plot (e : event) : bool :=
  match e with
  | Plot _ => true
  | _ => false
  end.

Definition is_pha_plot (e : event) : bool :=
  match e with
  | PlotXY _ _ _ => true
  | _ => false
  end.

(** *** A capture archive to run the script on *)

Definition sample_file : gmap string h5object :=
  <["metadata" := Group (<["active_channels" := AttrInts [0; 2]]>
                         (<["resolution" := AttrInt 1]> ∅))]>
  (<["adc_counts_0" := Dataset ∅ [[1; 2; 3]; [4; 5; 6]]]>
  (<["pha_0" := Dataset ∅ [[10; 20]; [7; 9]]]>
  (<["adc_counts_2" := Dataset ∅ [[-1; -2; -3]]]>
  (<["pha_2" := Dataset ∅ [[10; 20]; [0; 4]]]> ∅)))).

Definition sample_fs : gmap string (gmap string h5object) :=
  {[ "/tmp/pico_captures/2023-06-12_10:44:59.084709.hdf5" := sample_file ]}.

(** What is drawn for the channel [id] when the waveform goes through and
    the histogram does not. *)
Definition waveform_only (f : gmap string h5object) (id : item) (evs : list event)
  : Prop :=
  exists ca counts c0,
    f !! ("adc_counts_" +:+ py_str id) = Some (Dataset ca counts) /\
    counts !! 0%nat = Some c0 /\
    evs = [Plot c0; Show].

(** The archive of [sample_file] with the histogram of channel 2 cut to
    one row. *)
Definition short_file : gmap string h5object :=
  <["pha_2" := Dataset ∅ [[10; 20]]]> sample_file.

Definition short_fs : gmap string (gmap string h5object) :=
  {[ "/tmp/pico_captures/2023-06-12_10:44:59.084709.hdf5" := short_file ]}.

End readhdf5.

(** * Properties *)

Example c_int16_wraps : c_int16 40000 = -25536.
Proof. reflexivity. Qed.

Example c_int32_keeps_100000 : c_int32 100000 = 100000.
Proof. reflexivity. Qed.

Example py_int_truncates : py_int (-7 # 2) = -3.
Proof. reflexivity. Qed.

Lemma run_eq {S A} (m : M S A) (s : S) (r : outcome A) :
  (m s).1 = r -> m s = (r, (m s).2).
Proof. intros <-. by destruct (m s). Qed.

Lemma bind_ok_inv {S A B} (m : M S A) (k : A -> M S B) s b s' :
  bind m k s = (Ok b, s') ->
  exists a s1, m s = (Ok a, s1) /\ k a s1 = (Ok b, s').
Proof.
  unfold bind. destruct (m s) as [[a | e |] s1]; intros H; try discriminate.
  by exists a, s1.
Qed.

Module block_capture_single_spec.
Import block_capture_single.

(** Unfold the straight-line part of a method and name what the driver
    answered. *)
Ltac unfold_py :=
  unfold initalise_parameters, open_unit, set_channel, set_simple_trigger,
    set_buffer, set_captures, stop_scope, plt_plot, plt_show,
    sdk0, sdk, sdk_get_values_bulk, store_status, load_status, update_self,
    emit, get_self, or_raise, bind, ret, raise, get, modify in *.

(** Reduce a stack of field updates on an object given by its fields. *)
Ltac norm_object :=
  cbv [set_status set_overflow set_samples_per_seg set_max_adc set_max_samples
       set_handle set_ready resolution timebase handle max_adc samples
       max_samples buffer status overflow ready check samples_per_seg].

Section methods.
Context {D : Type} {drv : ps5000a D}.

(** **** The poll loop *)

Lemma poll_unfold fuel (w : world D) :
  poll fuel w =
  let o := self w in
  if ready o =? check o then
    match fuel with
    | O => (OutOfFuel, w)
    | S fuel' =>
        let '(st, r, d) := ps5000aIsReady (handle o) (ready o) (device w) in
        poll fuel'
          {| self := set_status (insert "isReady" st) (set_ready (c_int16 r) o);
             device := d; heap := heap w;
             trace := trace w ++ [Api (IsReady (handle o) (ready o)) st [c_int16 r]] |}
    end
  else (Ok tt, w).
Proof.
  destruct fuel; cbn; unfold_py; cbn; repeat case_match; simplify_eq; done.
Qed.

Lemma same_settings_trans o1 o2 o3 :
  same_settings o1 o2 -> same_settings o2 o3 -> same_settings o1 o3.
Proof. unfold same_settings. congruence. Qed.

Lemma same_settings_handle o o' : same_settings o o' -> handle o' = handle o.
Proof. intros H. by apply (f_equal handle) in H. Qed.

Lemma same_settings_check o o' : same_settings o o' -> check o' = check o.
Proof. intros H. by apply (f_equal check) in H. Qed.

Lemma poll_never_raises fuel (w : world D) e w' : poll fuel w <> (Raise e, w').
Proof.
  revert w. induction fuel as [|fuel IH]; intros w; rewrite poll_unfold; cbn;
    repeat case_match; try done.
Qed.

(** A poll loop that comes back was entered with the flag changed already,
    or made polls that all but the last left the flag at [check]. *)
Lemma poll_ok fuel (w w' : world D) :
  poll fuel w = (Ok tt, w') ->
  ready (self w) = check (self w) ->
  exists zeros st r,
    Forall (fun a => a.2 = check (self w)) zeros /\
    r <> check (self w) /\
    trace w' = trace w ++
      poll_events (handle (self w)) (ready (self w)) (zeros ++ [(st, r)]) /\
    ready (self w') = r /\
    same_settings (self w) (self w') /\
    heap w' = heap w.
Proof.
  revert w. induction fuel as [|fuel IH]; intros w; rewrite poll_unfold; cbn;
    intros H Hr.
  - apply Z.eqb_eq in Hr. by rewrite Hr in H.
  - pose proof Hr as Hr'. apply Z.eqb_eq in Hr'. rewrite Hr' in H.
    destruct (ps5000aIsReady _ _ _) as [[st1 r1] d1].
    destruct (decide (c_int16 r1 = check (self w))) as [Hz|Hnz].
    + apply IH in H; [|done]. cbn in H.
      destruct H as (zeros & st & r & Hall & Hne & Htr & Hrd & Hsame & Hheap).
      exists ((st1, c_int16 r1) :: zeros), st, r.
      split_and!; try done.
      * by constructor.
      * rewrite Htr, <- app_assoc. cbn. by rewrite Hz, Hr.
    + rewrite poll_unfold in H. cbn in H.
      apply Z.eqb_neq in Hnz. rewrite Hnz in H. simplify_eq. cbn.
      exists [], st1, (c_int16 r1). apply Z.eqb_neq in Hnz.
      split_and!; done.
Qed.

(** A poll loop still running after [fuel] iterations has made [fuel]
    polls, each of which left the flag at [check]. *)
Lemma poll_out_of_fuel fuel (w w' : world D) :
  poll fuel w = (OutOfFuel, w') ->
  exists zeros,
    Forall (fun a => a.2 = check (self w)) zeros /\
    length zeros = fuel /\
    ready (self w) = check (self w) /\
    trace w' = trace w ++ poll_events (handle (self w)) (ready (self w)) zeros.
Proof.
  revert w. induction fuel as [|fuel IH]; intros w; rewrite poll_unfold; cbn;
    intros H.
  - destruct (ready (self w) =? check (self w)) eqn:Hr; [|done].
    simplify_eq. exists []. apply Z.eqb_eq in Hr. by rewrite app_nil_r.
  - destruct (ready (self w) =? check (self w)) eqn:Hr; [|done].
    apply Z.eqb_eq in Hr.
    destruct (ps5000aIsReady _ _ _) as [[st1 r1] d1].
    apply IH in H. cbn in H. destruct H as (zeros & Hall & Hlen & Hrd & Htr).
    exists ((st1, c_int16 r1) :: zeros). split_and!; try done.
    + by constructor.
    + cbn. by rewrite Hlen.
    + rewrite Htr, <- app_assoc. done.
Qed.

Lemma poll_returns_iff_ready fuel (w : world D) :
  (poll fuel w).1 = Ok tt <->
  exists n, (n <= fuel)%nat /\
    nth_poll (handle (self w)) n (ready (self w)) (device w) <> check (self w).
Proof.
  revert w. induction fuel as [|fuel IH]; intros w; rewrite poll_unfold; cbn.
  - destruct (ready (self w) =? check (self w)) eqn:Hr; cbn.
    + apply Z.eqb_eq in Hr. split; [done|].
      intros (n & Hn & Hne). assert (n = 0%nat) as -> by lia. done.
    + apply Z.eqb_neq in Hr. split; [|done]. intros _. by exists 0%nat.
  - destruct (ready (self w) =? check (self w)) eqn:Hr; cbn.
    + apply Z.eqb_eq in Hr.
      destruct (ps5000aIsReady _ _ _) as [[st1 r1] d1] eqn:E.
      rewrite IH. cbn. split.
      * intros (n & Hn & Hne). exists (S n). split; [lia|]. cbn. by rewrite E.
      * intros (n & Hn & Hne). destruct n as [|n]; [done|].
        exists n. split; [lia|]. cbn in Hne. by rewrite E in Hne.
    + apply Z.eqb_neq in Hr. split; [|done]. intros _. exists 0%nat.
      split; [lia|done].
Qed.

Lemma poll_outcome fuel (w : world D) :
  (poll fuel w).1 = Ok tt \/ (poll fuel w).1 = OutOfFuel.
Proof.
  destruct (poll fuel w) as [[[]| e |] w'] eqn:E; cbn; auto.
  by apply poll_never_raises in E.
Qed.

(** **** run_block, written out *)

Lemma run_block_unfold fuel (w : world D) :
  run_block fuel w =
  match poll fuel (after_run_block_call w) with
  | (Ok _, w2) => (Ok tt, after_get_values_bulk w2)
  | (Raise e, w2) => (Raise e, w2)
  | (OutOfFuel, w2) => (OutOfFuel, w2)
  end.
Proof.
  unfold run_block, after_run_block_call, after_get_values_bulk. unfold_py. cbn.
  destruct (ps5000aRunBlock _ _ _ _ _ _ _ _ _) as [st d]. cbn.
  destruct (poll fuel _) as [[[]| e |] w2]; try done.
  destruct (ps5000aGetValuesBulk _ _ _ _ _ _ _ _ _) as [[st' [[n' ov'] hp']] d'].
  done.
Qed.

Lemma poll_frame fuel (w : world D) :
  same_settings (self w) (self (poll fuel w).2) /\
  heap (poll fuel w).2 = heap w.
Proof.
  revert w. induction fuel as [|fuel IH]; intros w; rewrite poll_unfold; cbn.
  - by case_match.
  - case_match; [|done]. destruct (ps5000aIsReady _ _ _) as [[st1 r1] d1].
    destruct (IH {| self := set_status (insert "isReady" st1)
                              (set_ready (c_int16 r1) (self w));
                    device := d1; heap := heap w;
                    trace := trace w ++
                      [Api (IsReady (handle (self w)) (ready (self w))) st1
                         [c_int16 r1]] |}) as [Hs Hh].
    split; [|done]. eapply same_settings_trans; [|exact Hs]. done.
Qed.

Lemma poll_ready_after fuel (w : world D) :
  check (self w) = 0 ->
  ((poll fuel w).1 = Ok tt /\ ready (self (poll fuel w).2) <> 0) \/
  ((poll fuel w).1 = OutOfFuel /\ ready (self (poll fuel w).2) = 0).
Proof.
  revert w. induction fuel as [|fuel IH]; intros w Hc; rewrite poll_unfold; cbn.
  - rewrite Hc. destruct (ready (self w) =? 0) eqn:E; cbn.
    + right. by apply Z.eqb_eq in E.
    + left. by apply Z.eqb_neq in E.
  - rewrite Hc. destruct (ready (self w) =? 0) eqn:E; cbn.
    + destruct (ps5000aIsReady _ _ _) as [[st1 r1] d1]. by apply IH.
    + left. by apply Z.eqb_neq in E.
Qed.

(** C1. Entered with [ready] and [check] both 0, [run_block] issues
    [ps5000aRunBlock], then polls [ps5000aIsReady]; each poll is made while
    the flag still holds 0, and [ps5000aGetValuesBulk] is called exactly
    once, right after the first poll that leaves a value other than 0 in
    the flag.  While every poll leaves 0, polling goes on and
    [ps5000aGetValuesBulk] is not called.  [run_block] raises nothing. *)
Theorem run_block_reads_after_ready fuel (w w' : world D) (r : outcome unit) :
  ready (self w) = 0 ->
  check (self w) = 0 ->
  run_block fuel w = (r, w') ->
  let o := self w in
  exists st0,
    let started :=
      trace w ++
        [Api (RunBlock (handle o) 0 (samples o) (timebase o) None 0 None None)
             st0 []] in
    (r = Ok tt /\
     exists busy st rdy stg out,
       Forall (fun a => a.2 = 0) busy /\
       rdy <> 0 /\
       trace w' = started ++
         poll_events (handle o) 0 (busy ++ [(st, rdy)]) ++
         [Api (GetValuesBulk (handle o) (max_samples o) 0 0 0 0 (overflow o))
              stg out]) \/
    (r = OutOfFuel /\
     exists busy,
       Forall (fun a => a.2 = 0) busy /\
       length busy = fuel /\
       trace w' = started ++ poll_events (handle o) 0 busy).
Proof.
  intros Hr Hc H o. rewrite run_block_unfold in H. subst o.
  exists (ps5000aRunBlock (handle (self w)) 0 (samples (self w)) (timebase (self w))
            None 0 None None (device w)).1.
  destruct (poll fuel (after_run_block_call w)) as [[[]| e |] w2] eqn:E;
    simplify_eq.
  - left. split; [done|].
    apply poll_ok in E; [|cbn; congruence]. cbn in E.
    destruct E as (busy & st & rdy & Hall & Hne & Htr & _ & Hsame & _).
    rewrite Hc in Hall, Hne. rewrite Hr in Htr.
    eexists busy, st, rdy, _, _. split_and!; [done..|].
    cbn. rewrite Htr.
    rewrite (same_settings_handle _ _ Hsame). cbn.
    apply (f_equal max_samples) in Hsame as Hm.
    apply (f_equal overflow) in Hsame as Ho. cbn in Hm, Ho.
    rewrite <- Hm, <- Ho. by rewrite <- !app_assoc.
  - by apply poll_never_raises in E.
  - right. split; [done|].
    apply poll_out_of_fuel in E. cbn in E.
    destruct E as (busy & Hall & Hlen & _ & Htr).
    rewrite Hc in Hall. rewrite Hr in Htr.
    exists busy. split_and!; [done..|]. by rewrite Htr.
Qed.

(** C6. Entered with [ready] and [check] both 0, [run_block] returns within
    [fuel] iterations of the loop exactly when one of the first [fuel]
    calls of [ps5000aIsReady] (at least one is made) leaves a value other
    than 0 in [ready].  So if some poll of the armed instrument does, the
    loop ends and [run_block] returns for every large enough bound; and if
    none ever does, [run_block] is still polling whatever the bound. *)
Theorem run_block_blocking (w : world D) :
  ready (self w) = 0 ->
  check (self w) = 0 ->
  let h := handle (self w) in
  (forall fuel,
     (run_block fuel w).1 = Ok tt <->
     exists n, (1 <= n <= fuel)%nat /\ nth_poll h n 0 (armed w) <> 0) /\
  ((exists n, nth_poll h n 0 (armed w) <> 0) ->
   exists fuel, forall fuel', (fuel <= fuel')%nat -> (run_block fuel' w).1 = Ok tt) /\
  ((forall n, nth_poll h n 0 (armed w) = 0) ->
   forall fuel, (run_block fuel w).1 = OutOfFuel).
Proof.
  intros Hr Hc h.
  assert (Hiff : forall fuel,
     (run_block fuel w).1 = Ok tt <->
     exists n, (1 <= n <= fuel)%nat /\ nth_poll h n 0 (armed w) <> 0).
  { intros fuel. rewrite run_block_unfold.
    pose proof (poll_returns_iff_ready fuel (after_run_block_call w)) as Hp.
    cbn in Hp. rewrite Hr, Hc in Hp. fold h in Hp.
    change (ps5000aRunBlock _ _ _ _ _ _ _ _ _).2 with (armed w) in Hp.
    destruct (poll fuel (after_run_block_call w)) as [[[]| e |] w2]; cbn in *.
    - split; [|done]. intros _. destruct Hp as [Hp _].
      destruct (Hp eq_refl) as (n & Hn & Hne). exists n. split; [|done].
      destruct n; [done|lia].
    - split; [done|]. intros (n & Hn & Hne).
      destruct Hp as [_ Hp]. discriminate Hp. exists n. split; [lia|done].
    - split; [done|]. intros (n & Hn & Hne).
      destruct Hp as [_ Hp]. discriminate Hp. exists n. split; [lia|done]. }
  split_and!; [done| |].
  - intros (n & Hne). exists n. intros fuel' Hle. apply Hiff.
    exists n. split; [|done]. destruct n; [done|lia].
  - intros Hnever fuel. rewrite run_block_unfold.
    pose proof (poll_outcome fuel (after_run_block_call w)) as [Hok|Hoof].
    + exfalso. assert ((run_block fuel w).1 = Ok tt) as Hrun.
      { rewrite run_block_unfold.
        destruct (poll fuel (after_run_block_call w)) as [[[]| e |] w2]; done. }
      apply Hiff in Hrun as (n & _ & Hne). by apply Hne.
    + destruct (poll fuel (after_run_block_call w)) as [[[]| e |] w2]; done.
Qed.

(** **** The straight-line methods, written out *)

Lemma open_unit_unfold res (w : world D) :
  open_unit res w =
  let o := self w in
  let r1 := ps5000aOpenUnit (handle o) None res (device w) in
  let h := c_int16 r1.1.2 in
  let r2 := ps5000aMaximumValue h (max_adc o) r1.2 in
  (Ok r1.1.1,
   {| self := set_status (fun m => <["maximumValue" := r2.1.1]> (<["openunit" := r1.1.1]> m))
                (set_max_adc (c_int16 r2.1.2) (set_handle h o));
      device := r2.2; heap := heap w;
      trace := trace w ++
        [Api (OpenUnit (handle o) None res) r1.1.1 [h];
         Api (MaximumValue h (max_adc o)) r2.1.1 [c_int16 r2.1.2]] |}).
Proof.
  unfold_py. cbn.
  destruct (ps5000aOpenUnit _ _ _ _) as [[st1 h] d1]. cbn.
  destruct (ps5000aMaximumValue _ _ _) as [[st2 m] d2]. cbn.
  rewrite lookup_insert_ne, lookup_insert_eq by done.
  by rewrite <- app_assoc.
Qed.

Lemma set_channel_unfold channel en coupling range offset (w : world D) :
  set_channel channel en coupling range offset w =
  let o := self w in
  let r := ps5000aSetChannel (handle o) channel (int_of_bool en) coupling range
             offset (device w) in
  (Ok r.1,
   {| self := o; device := r.2; heap := heap w;
      trace := trace w ++
        [Api (SetChannel (handle o) channel (int_of_bool en) coupling range offset)
             r.1 []] |}).
Proof. unfold_py. cbn. by destruct (ps5000aSetChannel _ _ _ _ _ _ _). Qed.

Lemma set_simple_trigger_unfold
  en source range threshold_mv direction delay auto_ms (w : world D) :
  set_simple_trigger en source range threshold_mv direction delay auto_ms w =
  let o := self w in
  match mV2adc threshold_mv range (max_adc o) with
  | Some adc =>
      let threshold := py_int adc in
      let r := ps5000aSetSimpleTrigger (handle o) en source threshold direction
                 delay auto_ms (device w) in
      (Ok r.1,
       {| self := o; device := r.2; heap := heap w;
          trace := trace w ++
            [Api (SetSimpleTrigger (handle o) en source threshold direction delay
                    auto_ms) r.1 []] |})
  | None => (Raise IndexError, w)
  end.
Proof.
  unfold_py. cbn. destruct (mV2adc _ _ _); [|done]. cbn.
  by destruct (ps5000aSetSimpleTrigger _ _ _ _ _ _ _ _).
Qed.

Lemma set_buffer_unfold channel buf segment (w : world D) :
  set_buffer channel buf segment w =
  let o := self w in
  match buf !! 0%nat with
  | Some b0 =>
      let r := ps5000aSetDataBuffer (handle o) channel b0 (max_samples o) segment 0
                 (device w) in
      (Ok r.1,
       {| self := o; device := r.2; heap := heap w;
          trace := trace w ++
            [Api (SetDataBuffer (handle o) channel b0 (max_samples o) segment 0)
                 r.1 []] |})
  | None => (Raise IndexError, w)
  end.
Proof.
  unfold_py. cbn. destruct (buf !! 0%nat); [|done]. cbn.
  by destruct (ps5000aSetDataBuffer _ _ _ _ _ _ _).
Qed.


Lemma stop_scope_unfold (w : world D) :
  stop_scope w =
  let o := self w in
  let r1 := ps5000aStop (handle o) (device w) in
  let r2 := ps5000aCloseUnit (handle o) r1.2 in
  (Ok r2.1,
   {| self := set_status (fun m => <["close" := r2.1]> (<["stop" := r1.1]> m)) o;
      device := r2.2; heap := heap w;
      trace := trace w ++
        [Api (Stop (handle o)) r1.1 []; Api (CloseUnit (handle o)) r2.1 []] |}).
Proof.
  unfold_py. cbn.
  destruct (ps5000aStop _ _) as [st1 d1]. cbn.
  destruct (ps5000aCloseUnit _ _) as [st2 d2]. cbn.
  rewrite lookup_insert_eq. by rewrite <- app_assoc.
Qed.

Lemma plt_plot_unfold arrays (w : world D) :
  plt_plot arrays w =
  match arrays !! 0%nat with
  | Some a =>
      match heap w !! a with
      | Some ys =>
          (Ok tt,
           {| self := self w; device := device w; heap := heap w;
              trace := trace w ++ [Plot ys] |})
      | None => (Raise IndexError, w)
      end
  | None => (Raise IndexError, w)
  end.
Proof. unfold_py. cbn. repeat case_match; simplify_eq; done. Qed.

(** **** initalise_parameters, when it returns *)

Lemma initalise_parameters_ok (w w' : world D) :
  initalise_parameters w = (Ok tt, w') ->
  let o := self w in
  exists st_open h st_max m st0 st1 st2 st3 adc st_trig st_mem n st_cap b0 st_buf,
    mV2adc 0 9 m = Some adc /\
    buffer o !! 0%nat = Some b0 /\
    trace w' = trace w ++
      [Api (OpenUnit (handle o) None (resolution o)) st_open [h];
       Api (MaximumValue h (max_adc o)) st_max [m];
       Api (SetChannel h 0 1 0 9 0) st0 [];
       Api (SetChannel h 1 0 0 9 0) st1 [];
       Api (SetChannel h 2 0 0 9 0) st2 [];
       Api (SetChannel h 3 0 0 9 0) st3 [];
       Api (SetSimpleTrigger h 1 0 (py_int adc) 2 0 10) st_trig [];
       Api (MemorySegments h 1 (samples_per_seg o)) st_mem [n];
       Api (SetNoOfCaptures h 1) st_cap [];
       Api (SetDataBuffer h 0 b0 (max_samples o) 0 0) st_buf []] /\
    self w' =
      set_status (fun s =>
          <["set_buffer" := st_buf]> (<["set_captures" := st_cap]>
          (<["SetNoOfCaptures" := st_cap]> (<["MemorySegments" := st_mem]>
          (<["set_trigger" := st_trig]> (<["set_source" := st3]>
          (<["openunit" := st_open]> (<["maximumValue" := st_max]>
          (<["openunit" := st_open]> s)))))))))
        (set_overflow [0] (set_samples_per_seg n (set_max_adc m (set_handle h o)))) /\
    heap w' = heap w.
Proof.
  intros H o. subst o. unfold_py. cbn in *.
  repeat (first [case_match; simplify_eq | progress simplify_map_eq]; cbn in * ).
  eexists _, _, _, _, _, _, _, _, _, _, _, _, _, _, _.
  split_and!; [eassumption | reflexivity | | | reflexivity].
  - by rewrite <- !app_assoc.
  - destruct (self w). norm_object. by rewrite !insert_insert_eq.
Qed.

(** C2. [set_simple_trigger] passes to [ps5000aSetSimpleTrigger], as the
    threshold, [int(mV2adc(threshold_mv, range, self.max_adc))], and that is
    the only call it makes (none at all when [mV2adc] raises); and
    [self.max_adc] holds what [ps5000aMaximumValue] wrote when [open_unit]
    called it, so after [open_unit] the threshold is computed from the
    value the instrument supplied.  So it is in [initalise_parameters]: the
    threshold of its trigger call is [int(mV2adc(0, 9, m))] for the [m]
    that its [ps5000aMaximumValue] call wrote. *)
Theorem set_simple_trigger_threshold
  (en source range threshold_mv direction delay auto_ms res : Z) (w : world D) :
  let o := self w in
  set_simple_trigger en source range threshold_mv direction delay auto_ms w =
    match mV2adc threshold_mv range (max_adc o) with
    | Some adc =>
        let r := ps5000aSetSimpleTrigger (handle o) en source (py_int adc)
                   direction delay auto_ms (device w) in
        (Ok r.1,
         {| self := o; device := r.2; heap := heap w;
            trace := trace w ++
              [Api (SetSimpleTrigger (handle o) en source (py_int adc) direction
                      delay auto_ms) r.1 []] |})
    | None => (Raise IndexError, w)
    end /\
  (let r1 := ps5000aOpenUnit (handle o) None res (device w) in
   let h := c_int16 r1.1.2 in
   let r2 := ps5000aMaximumValue h (max_adc o) r1.2 in
   let m := c_int16 r2.1.2 in
   let opened := (open_unit res w).2 in
   max_adc (self opened) = m /\
   trace opened = trace w ++
     [Api (OpenUnit (handle o) None res) r1.1.1 [h];
      Api (MaximumValue h (max_adc o)) r2.1.1 [m]] /\
   trace (set_simple_trigger en source range threshold_mv direction delay auto_ms
            opened).2 =
     trace opened ++
     match mV2adc threshold_mv range m with
     | Some adc =>
         [Api (SetSimpleTrigger h en source (py_int adc) direction delay auto_ms)
              (ps5000aSetSimpleTrigger h en source (py_int adc) direction delay
                 auto_ms r2.2).1 []]
     | None => []
     end) /\
  forall w' : world D,
    initalise_parameters w = (Ok tt, w') ->
    exists before between after h st_max m adc st_trig,
      mV2adc 0 9 m = Some adc /\
      trace w' =
        before ++ [Api (MaximumValue h (max_adc o)) st_max [m]] ++
        between ++ [Api (SetSimpleTrigger h 1 0 (py_int adc) 2 0 10) st_trig []] ++
        after.
Proof.
  intros o. split_and!; [apply set_simple_trigger_unfold| |].
  - intros r1 h r2 m opened. subst opened.
    rewrite set_simple_trigger_unfold, open_unit_unfold. cbn.
    split_and!; [done..|].
    fold o r1 h r2 m. destruct (mV2adc _ _ _); cbn; [done|]. by rewrite app_nil_r.
  - intros w' H. apply initalise_parameters_ok in H.
    destruct H as (st_open & h & st_max & m & st0 & st1 & st2 & st3 & adc &
                   st_trig & st_mem & n & st_cap & b0 & st_buf & Hadc & _ & Htr & _).
    eexists (trace w ++ [_]), [_; _; _; _], [_; _; _], h, st_max, m, adc, st_trig.
    split; [done|]. rewrite Htr, <- app_assoc. reflexivity.
Qed.

(** C10. The constructor takes the sample count from [buffer_size] alone:
    [self.samples] is [buffer_size] and [self.max_samples] is
    [c_int32(buffer_size)], whatever arrays the list [buffer] refers to; and
    [set_buffer] registers [buffer[0]] with [self.max_samples] as its
    length, whatever the store holds at that address (no call is made when
    the list is empty).  On a newly constructed object, and in
    [initalise_parameters] run on one, that length is
    [c_int32(buffer_size)], whatever the length of the array. *)
Theorem samples_from_buffer_size
  (handle0 buffer_size channel segment : Z) (buf : list addr) (w : world D) :
  samples (__init__ handle0 buf buffer_size) = buffer_size /\
  max_samples (__init__ handle0 buf buffer_size) = c_int32 buffer_size /\
  set_buffer channel buf segment w =
    match buf !! 0%nat with
    | Some b0 =>
        let r := ps5000aSetDataBuffer (handle (self w)) channel b0
                   (max_samples (self w)) segment 0 (device w) in
        (Ok r.1,
         {| self := self w; device := r.2; heap := heap w;
            trace := trace w ++
              [Api (SetDataBuffer (handle (self w)) channel b0
                      (max_samples (self w)) segment 0) r.1 []] |})
    | None => (Raise IndexError, w)
    end /\
  (let w0 := {| self := __init__ handle0 buf buffer_size; device := device w;
                heap := heap w; trace := trace w |} in
   trace (set_buffer channel buf segment w0).2 =
     trace w ++
     match buf !! 0%nat with
     | Some b0 =>
         [Api (SetDataBuffer (c_int16 handle0) channel b0 (c_int32 buffer_size)
                 segment 0)
              (ps5000aSetDataBuffer (c_int16 handle0) channel b0
                 (c_int32 buffer_size) segment 0 (device w)).1 []]
     | None => []
     end) /\
  forall (d : D) (hp : gmap addr (list Z)) (w' : world D),
    initalise_parameters
      {| self := __init__ handle0 buf buffer_size; device := d; heap := hp;
         trace := [] |} = (Ok tt, w') ->
    exists before h b0 st,
      buf !! 0%nat = Some b0 /\
      trace w' = before ++
        [Api (SetDataBuffer h 0 b0 (c_int32 buffer_size) 0 0) st []].
Proof.
  split_and!; [done | done | apply set_buffer_unfold | |].
  - intros w0. subst w0. rewrite set_buffer_unfold. cbn.
    destruct (buf !! 0%nat); cbn; [done|]. by rewrite app_nil_r.
  - intros d hp w' H. apply initalise_parameters_ok in H. cbn in H.
    destruct H as (st_open & h & st_max & m & st0 & st1 & st2 & st3 & adc &
                   st_trig & st_mem & n & st_cap & b0 & st_buf & _ & Hb0 & Htr & _).
    eexists [_; _; _; _; _; _; _; _; _], h, b0, st_buf. split; [done|].
    rewrite Htr. reflexivity.
Qed.

(** C9. When [initalise_parameters] returns, the four [set_channel] calls
    were made for channels 0, 1, 2 and 3 in that order, and [status] holds
    under ["set_source"] the code returned by the last of them, the one for
    channel 3.  The codes returned for channels 0, 1 and 2 are kept nowhere:
    the object is the one it was, with the handle, [max_adc],
    [samples_per_seg] and [overflow] set and with the status entries
    listed, each of which is the code of another call. *)
Theorem initalise_parameters_set_source (w w' : world D) :
  initalise_parameters w = (Ok tt, w') ->
  let o := self w in
  exists st_open h st_max m st0 st1 st2 st3 thr st_trig st_mem n st_cap b0 st_buf,
    trace w' = trace w ++
      [Api (OpenUnit (handle o) None (resolution o)) st_open [h];
       Api (MaximumValue h (max_adc o)) st_max [m];
       Api (SetChannel h 0 1 0 9 0) st0 [];
       Api (SetChannel h 1 0 0 9 0) st1 [];
       Api (SetChannel h 2 0 0 9 0) st2 [];
       Api (SetChannel h 3 0 0 9 0) st3 [];
       Api (SetSimpleTrigger h 1 0 thr 2 0 10) st_trig [];
       Api (MemorySegments h 1 (samples_per_seg o)) st_mem [n];
       Api (SetNoOfCaptures h 1) st_cap [];
       Api (SetDataBuffer h 0 b0 (max_samples o) 0 0) st_buf []] /\
    status (self w') !! "set_source" = Some st3 /\
    self w' =
      set_status (fun s =>
          <["set_buffer" := st_buf]> (<["set_captures" := st_cap]>
          (<["SetNoOfCaptures" := st_cap]> (<["MemorySegments" := st_mem]>
          (<["set_trigger" := st_trig]> (<["set_source" := st3]>
          (<["openunit" := st_open]> (<["maximumValue" := st_max]>
          (<["openunit" := st_open]> s)))))))))
        (set_overflow [0] (set_samples_per_seg n (set_max_adc m (set_handle h o)))).
Proof.
  intros H o. apply initalise_parameters_ok in H.
  destruct H as (st_open & h & st_max & m & st0 & st1 & st2 & st3 & adc & st_trig &
                 st_mem & n & st_cap & b0 & st_buf & _ & _ & Htr & Hself & _).
  exists st_open, h, st_max, m, st0, st1, st2, st3, (py_int adc), st_trig, st_mem,
    n, st_cap, b0, st_buf.
  split_and!; [done| |done].
  rewrite Hself. cbn. by simplify_map_eq.
Qed.


(** **** What each step adds to the trace *)

Lemma emits_trans L1 L2 (w1 w2 w3 : world D) :
  emits L1 w1 w2 -> emits L2 w2 w3 -> emits (L1 ++ L2) w1 w3.
Proof.
  unfold emits. intros (H1 & H2 & H3) (H4 & H5 & H6).
  rewrite H4, H1, app_assoc. split_and!; congruence.
Qed.

Lemma names_poll_events h r answers :
  names (poll_events h r answers) = replicate (length answers) NIsReady.
Proof.
  revert r. induction answers as [|[st r'] answers IH]; intros r; [done|].
  cbn. f_equal. apply IH.
Qed.

Lemma store_status_emits key st (w w' : world D) r :
  store_status key st w = (r, w') -> emits [] w w'.
Proof. unfold_py. intros H. simplify_eq. unfold emits. cbn. by rewrite app_nil_r. Qed.

Lemma set_channel_emits channel en coupling range offset (w w' : world D) r :
  set_channel channel en coupling range offset w = (r, w') ->
  emits [NSetChannel] w w'.
Proof.
  rewrite set_channel_unfold. cbn. intros H. simplify_eq.
  unfold emits, names. cbn. by rewrite fmap_app.
Qed.

Lemma set_simple_trigger_emits
  en source range threshold_mv direction delay auto_ms (w w' : world D) st :
  set_simple_trigger en source range threshold_mv direction delay auto_ms w =
    (Ok st, w') ->
  emits [NSetSimpleTrigger] w w'.
Proof.
  rewrite set_simple_trigger_unfold. cbn. destruct (mV2adc _ _ _); [|done].
  intros H. simplify_eq. unfold emits, names. cbn. by rewrite fmap_app.
Qed.

Lemma set_buffer_emits channel buf segment (w w' : world D) st :
  set_buffer channel buf segment w = (Ok st, w') -> emits [NSetDataBuffer] w w'.
Proof.
  rewrite set_buffer_unfold. cbn. destruct (buf !! 0%nat); [|done].
  intros H. simplify_eq. unfold emits, names. cbn. by rewrite fmap_app.
Qed.

Lemma plt_plot_emits arrays (w w' : world D) :
  plt_plot arrays w = (Ok tt, w') -> emits [NPlot] w w'.
Proof.
  rewrite plt_plot_unfold. repeat case_match; try done.
  intros Hp. simplify_eq. unfold emits, names. cbn. by rewrite fmap_app.
Qed.

Lemma plt_show_emits (w w' : world D) r :
  plt_show w = (r, w') -> emits [NShow] w w'.
Proof.
  unfold_py. intros H. simplify_eq. unfold emits, names. cbn. by rewrite fmap_app.
Qed.

Lemma stop_scope_emits (w w' : world D) r :
  stop_scope w = (r, w') -> emits [NStop; NCloseUnit] w w'.
Proof.
  rewrite stop_scope_unfold. cbn. intros H. simplify_eq.
  unfold emits, names. cbn. by rewrite fmap_app.
Qed.

Lemma initalise_parameters_emits (w w' : world D) :
  initalise_parameters w = (Ok tt, w') ->
  emits [NOpenUnit; NMaximumValue; NSetChannel; NSetChannel; NSetChannel;
         NSetChannel; NSetSimpleTrigger; NMemorySegments; NSetNoOfCaptures;
         NSetDataBuffer] w w'.
Proof.
  intros H. apply initalise_parameters_ok in H.
  destruct H as (st_open & h & st_max & m & st0 & st1 & st2 & st3 & adc & st_trig &
                 st_mem & n & st_cap & b0 & st_buf & _ & _ & Htr & Hself & _).
  unfold emits, names. rewrite Htr, Hself, fmap_app. done.
Qed.

Lemma run_block_emits fuel (w w' : world D) :
  run_block fuel w = (Ok tt, w') ->
  ready (self w) = 0 ->
  check (self w) = 0 ->
  exists n, emits (acquisition (S n)) w w'.
Proof.
  intros H Hr Hc. rewrite run_block_unfold in H.
  destruct (poll fuel (after_run_block_call w)) as [[[]| e |] w2] eqn:E;
    simplify_eq.
  apply poll_ok in E; [|cbn; congruence]. cbn in E.
  destruct E as (busy & st & rdy & _ & _ & Htr & _ & Hsame & _).
  exists (length busy). unfold emits, acquisition, names. cbn.
  rewrite Htr, !fmap_app. cbn.
  change (name_of <$> poll_events ?h ?r ?a) with (names (poll_events h r a)).
  rewrite names_poll_events, length_app, <- !app_assoc. cbn.
  rewrite Nat.add_1_r. split_and!; [done|by rewrite Hr|].
  by rewrite (same_settings_check _ _ Hsame).
Qed.

(** **** The script, step by step *)

(** Split a run of binds that returned into the runs of its steps. *)
Ltac script_steps H :=
  repeat (lazymatch type of H with
          | bind _ _ _ = (Ok _, _) =>
              apply bind_ok_inv in H as (? & ? & ? & H); cbv beta in H
          end);
  repeat match goal with
  | x : unit |- _ => destruct x
  | H' : get_self _ = _ |- _ => unfold get_self in H'; simplify_eq
  end.

(** Turn the runs of the steps into what they add to the trace, from the
    start [w] on, where [ready] and [check] are 0. *)
Ltac script_trace w Hr Hc :=
  repeat match goal with
  | H : initalise_parameters _ = _ |- _ => apply initalise_parameters_emits in H
  | H : plt_plot _ _ = _ |- _ => apply plt_plot_emits in H
  | H : plt_show _ = _ |- _ => apply plt_show_emits in H
  | H : store_status _ _ _ = _ |- _ => apply store_status_emits in H
  | H : set_channel _ _ _ _ _ _ = _ |- _ => apply set_channel_emits in H
  | H : set_buffer _ _ _ _ = _ |- _ => apply set_buffer_emits in H
  | H : set_simple_trigger _ _ _ _ _ _ _ _ = _ |- _ =>
      apply set_simple_trigger_emits in H
  | H : stop_scope _ = _ |- _ => apply stop_scope_emits in H
  end;
  repeat match goal with
  | E1 : emits _ w ?wi, E2 : emits _ ?wi ?wj |- _ =>
      let E := fresh "E" in
      pose proof (emits_trans _ _ _ _ _ E1 E2) as E; clear E1 E2
  | E1 : emits _ w ?wi, H : run_block _ ?wi = (Ok _, _) |- _ =>
      let n := fresh "n" in
      apply run_block_emits in H as [n H];
      [| destruct E1 as (_ & -> & _); exact Hr
       | destruct E1 as (_ & _ & ->); exact Hc]
  end.

Lemma script_emits fuel sb (w w' : world D) r :
  script fuel sb w = (Ok r, w') ->
  ready (self w) = 0 ->
  check (self w) = 0 ->
  exists w1 n1 n2 n3,
    initalise_parameters w = (Ok tt, w1) /\
    emits
      ([NOpenUnit; NMaximumValue; NSetChannel; NSetChannel; NSetChannel;
        NSetChannel; NSetSimpleTrigger; NMemorySegments; NSetNoOfCaptures;
        NSetDataBuffer] ++
       acquisition (S n1) ++ [NPlot; NShow] ++
       acquisition (S n2) ++ [NPlot; NShow] ++
       [NSetChannel; NSetChannel; NSetDataBuffer; NSetSimpleTrigger] ++
       acquisition (S n3) ++ [NPlot; NShow] ++
       [NStop; NCloseUnit]) w w'.
Proof.
  intros H Hr Hc. unfold script in H. script_steps H.
  match goal with
  | H : initalise_parameters w = (Ok tt, ?w1) |- _ =>
      exists w1; pose proof (conj I H) as Hinit
  end.
  script_trace w Hr Hc.
  match goal with
  | E : emits _ w w' |- _ =>
      unfold acquisition in *; rewrite !app_nil_r, <- !app_assoc in E;
      cbn [app] in E;
      eexists _, _, _; split; [exact (proj2 Hinit)|];
      rewrite <- ?app_assoc; cbn [app]; exact E
  end.
Qed.

Lemma script_ends_with_stop_scope fuel sb (w w' : world D) r :
  script fuel sb w = (Ok r, w') ->
  exists w_last, stop_scope w_last = (Ok r, w').
Proof.
  intros H. unfold script in H. script_steps H. by eexists.
Qed.

(** C3. When the example script runs to its end, the calls it has made
    are, in this order: those of [initalise_parameters] (open the unit and
    read the maximum ADC value, set channels 0 to 3, set the trigger, set
    the memory segments and the number of captures, set the data buffer);
    then an acquisition (run the block, poll at least once, read the values
    back) followed by a plot of the buffer and its display; the same a
    second time; the second configuration (two channels, the data buffer,
    the trigger); a third acquisition with its plot; and last the stop and
    the close.  What is plotted is the array [streaming_buffer[0]] as the
    store holds it at that moment. *)
Theorem main_call_sequence :
  (forall arrays (w : world D),
     plt_plot arrays w =
       match arrays !! 0%nat with
       | Some a =>
           match heap w !! a with
           | Some ys =>
               (Ok tt,
                {| self := self w; device := device w; heap := heap w;
                   trace := trace w ++ [Plot ys] |})
           | None => (Raise IndexError, w)
           end
       | None => (Raise IndexError, w)
       end) /\
  forall fuel (d : D) (r : Z) (w' : world D),
    main fuel d = (Ok r, w') ->
    exists w1 n1 n2 n3,
      initalise_parameters (initial_world d) = (Ok tt, w1) /\
      names (trace w1) =
        [NOpenUnit; NMaximumValue; NSetChannel; NSetChannel; NSetChannel;
         NSetChannel; NSetSimpleTrigger; NMemorySegments; NSetNoOfCaptures;
         NSetDataBuffer] /\
      names (trace w') =
        names (trace w1) ++
        acquisition (S n1) ++ [NPlot; NShow] ++
        acquisition (S n2) ++ [NPlot; NShow] ++
        [NSetChannel; NSetChannel; NSetDataBuffer; NSetSimpleTrigger] ++
        acquisition (S n3) ++ [NPlot; NShow] ++
        [NStop; NCloseUnit].
Proof.
  split; [apply plt_plot_unfold|].
  unfold main. intros fuel d r w' H.
  apply script_emits in H as (w1 & n1 & n2 & n3 & Hinit & Hnames & _ & _);
    [|done..].
  exists w1, n1, n2, n3.
  pose proof (initalise_parameters_emits _ _ Hinit) as (Hn1 & _ & _).
  cbn in Hn1, Hnames. split_and!; [done | done |].
  rewrite Hnames, Hn1. done.
Qed.

(** C7. [stop_scope] calls [ps5000aStop] and then [ps5000aCloseUnit], both
    with [self.handle], makes no other call, and returns the code
    [ps5000aCloseUnit] returned (also stored under ["close"]); and when the
    example script runs to its end, these two calls are the last two
    entries of its trace, so nothing is done with the handle after the
    close. *)
Theorem stop_scope_closes :
  (forall w : world D,
     let o := self w in
     let r1 := ps5000aStop (handle o) (device w) in
     let r2 := ps5000aCloseUnit (handle o) r1.2 in
     stop_scope w =
       (Ok r2.1,
        {| self := set_status (fun m => <["close" := r2.1]> (<["stop" := r1.1]> m)) o;
           device := r2.2; heap := heap w;
           trace := trace w ++
             [Api (Stop (handle o)) r1.1 []; Api (CloseUnit (handle o)) r2.1 []] |})) /\
  forall fuel (d : D) (r : Z) (w' : world D),
    main fuel d = (Ok r, w') ->
    exists before h st_stop,
      trace w' = before ++ [Api (Stop h) st_stop []; Api (CloseUnit h) r []] /\
      status (self w') !! "close" = Some r.
Proof.
  split; [apply stop_scope_unfold|].
  unfold main. intros fuel d r w' H.
  apply script_ends_with_stop_scope in H as [w_last H].
  rewrite stop_scope_unfold in H. cbn in H. simplify_eq. cbn.
  eexists _, _, _. split; [done|]. by rewrite lookup_insert_eq.
Qed.

(** **** The flags *)

Lemma keeps_flags_bind {A B} (m : M (world D) A) (k : A -> M (world D) B) :
  keeps_flags m -> (forall a, keeps_flags (k a)) -> keeps_flags (bind m k).
Proof.
  intros Hm Hk w. unfold bind. specialize (Hm w).
  destruct (m w) as [[a | e |] w1]; cbn in *; try done.
  specialize (Hk a w1). destruct Hm as [<- <-]. done.
Qed.

Lemma keeps_flags_ret {A} (a : A) : keeps_flags (D := D) (ret a).
Proof. done. Qed.

Lemma keeps_flags_raise {A} e : keeps_flags (D := D) (A := A) (raise e).
Proof. done. Qed.

Lemma keeps_flags_or_raise {A} e (o : option A) : keeps_flags (D := D) (or_raise e o).
Proof. by destruct o. Qed.

Lemma keeps_flags_get_self : keeps_flags (D := D) get_self.
Proof. done. Qed.

Lemma keeps_flags_get : keeps_flags (D := D) get.
Proof. done. Qed.

Lemma keeps_flags_emit e : keeps_flags (D := D) (emit e).
Proof. done. Qed.

Lemma keeps_flags_update_self f :
  (forall o, ready (f o) = ready o /\ check (f o) = check o) ->
  keeps_flags (D := D) (update_self f).
Proof. intros Hf w. apply Hf. Qed.

Lemma keeps_flags_store_status key st : keeps_flags (D := D) (store_status key st).
Proof. by apply keeps_flags_update_self. Qed.

Lemma keeps_flags_load_status key : keeps_flags (D := D) (load_status key).
Proof.
  apply keeps_flags_bind; [apply keeps_flags_get_self|].
  intros o. apply keeps_flags_or_raise.
Qed.

Lemma keeps_flags_sdk {A} c (f : D -> Z * A * D) out : keeps_flags (sdk c f out).
Proof. intros w. unfold sdk. by destruct (f (device w)) as [[st a] d]. Qed.

Lemma keeps_flags_sdk0 c (f : D -> Z * D) : keeps_flags (sdk0 c f).
Proof.
  apply keeps_flags_bind; [apply keeps_flags_sdk|]. intros [st []].
  apply keeps_flags_ret.
Qed.

Ltac keeps_flags_tac :=
  repeat first
    [ apply keeps_flags_ret | apply keeps_flags_raise | apply keeps_flags_or_raise
    | apply keeps_flags_get_self | apply keeps_flags_get | apply keeps_flags_emit
    | apply keeps_flags_store_status | apply keeps_flags_load_status
    | apply keeps_flags_sdk0 | apply keeps_flags_sdk
    | apply keeps_flags_update_self; done
    | apply keeps_flags_bind; [|intros ?]
    | match goal with
      | x : (_ * _)%type |- _ => destruct x
      | |- keeps_flags (if ?b then _ else _) => destruct b
      end ].

Lemma keeps_flags_open_unit res : keeps_flags (open_unit res).
Proof. unfold open_unit. keeps_flags_tac. Qed.

Lemma keeps_flags_set_channel channel en coupling range offset :
  keeps_flags (set_channel channel en coupling range offset).
Proof. unfold set_channel. keeps_flags_tac. Qed.

Lemma keeps_flags_set_simple_trigger
  en source range threshold_mv direction delay auto_ms :
  keeps_flags (set_simple_trigger en source range threshold_mv direction delay auto_ms).
Proof. unfold set_simple_trigger. keeps_flags_tac. Qed.

Lemma keeps_flags_set_buffer channel buf segment :
  keeps_flags (set_buffer channel buf segment).
Proof. unfold set_buffer. keeps_flags_tac. Qed.

Lemma keeps_flags_set_captures captures : keeps_flags (set_captures captures).
Proof. unfold set_captures. keeps_flags_tac. Qed.

Lemma keeps_flags_stop_scope : keeps_flags stop_scope.
Proof. unfold stop_scope. keeps_flags_tac. Qed.

Lemma keeps_flags_plt_plot arrays : keeps_flags (D := D) (plt_plot arrays).
Proof. unfold plt_plot. keeps_flags_tac. Qed.

Lemma keeps_flags_initalise_parameters : keeps_flags initalise_parameters.
Proof.
  unfold initalise_parameters.
  repeat first
    [ apply keeps_flags_open_unit | apply keeps_flags_set_channel
    | apply keeps_flags_set_simple_trigger | apply keeps_flags_set_buffer
    | apply keeps_flags_set_captures | apply keeps_flags_store_status
    | apply keeps_flags_get_self
    | apply keeps_flags_bind; [|intros ?] ].
Qed.

(** [run_block] entered with both flags 0 leaves both flags 0, whether it
    returns or is still polling. *)
Lemma run_block_flags fuel (w : world D) :
  ready (self w) = 0 ->
  check (self w) = 0 ->
  ready (self (run_block fuel w).2) = 0 /\ check (self (run_block fuel w).2) = 0.
Proof.
  intros Hr Hc. rewrite run_block_unfold.
  pose proof (poll_frame fuel (after_run_block_call w)) as [Hsame _].
  apply same_settings_check in Hsame. cbn in Hsame.
  pose proof (poll_ready_after fuel (after_run_block_call w) Hc) as Hp.
  destruct (poll fuel (after_run_block_call w)) as [[[]| e |] w2]; cbn in *.
  - split; [done|congruence].
  - by destruct Hp as [[? _]|[? _]].
  - destruct Hp as [[? _]|[_ ?]]; [done|]. split; congruence.
Qed.

Lemma take_step_flags s (w : world D) :
  ready (self w) = 0 ->
  check (self w) = 0 ->
  ready (self (take_step s w).2) = 0 /\ check (self (take_step s w).2) = 0.
Proof.
  intros Hr Hc.
  assert (forall m : M (world D) unit, keeps_flags m ->
            ready (self (m w).2) = 0 /\ check (self (m w).2) = 0) as Hk.
  { intros m Hm. destruct (Hm w) as [-> ->]. done. }
  destruct s; cbn [take_step]; try (by apply run_block_flags); apply Hk.
  - apply keeps_flags_bind; [apply keeps_flags_open_unit|]. intros. apply keeps_flags_ret.
  - apply keeps_flags_bind; [apply keeps_flags_set_channel|]. intros. apply keeps_flags_ret.
  - apply keeps_flags_bind; [apply keeps_flags_set_simple_trigger|]. intros.
    apply keeps_flags_ret.
  - apply keeps_flags_bind; [apply keeps_flags_set_buffer|]. intros. apply keeps_flags_ret.
  - apply keeps_flags_bind; [apply keeps_flags_set_captures|]. intros. apply keeps_flags_ret.
  - apply keeps_flags_initalise_parameters.
  - apply keeps_flags_bind; [apply keeps_flags_stop_scope|]. intros. apply keeps_flags_ret.
  - apply keeps_flags_store_status.
  - apply keeps_flags_plt_plot.
  - apply keeps_flags_emit.
Qed.

Lemma poll_extends fuel (w : world D) :
  exists t, trace (poll fuel w).2 = trace w ++ t.
Proof.
  revert w. induction fuel as [|fuel IH]; intros w; rewrite poll_unfold; cbn.
  - exists []. case_match; by rewrite app_nil_r.
  - case_match; [|exists []; by rewrite app_nil_r].
    destruct (ps5000aIsReady _ _ _) as [[st1 r1] d1].
    edestruct IH as [t Ht]. rewrite Ht. cbn. rewrite <- app_assoc. by eexists.
Qed.

(** C8. In every state a client of the class can be in (after the
    constructor and any number of method calls, status stores and plots
    that came back) [ready] and [check] are both 0: the constructor sets
    them so, [run_block] sets [ready] back to 0 after
    [ps5000aGetValuesBulk], and nothing else writes them.  So a [run_block]
    entered in such a state always goes into the poll loop: its first call
    after [ps5000aRunBlock] is [ps5000aIsReady], made with the flag at 0. *)
Theorem ready_flag_invariant (w : world D) :
  reachable w ->
  (ready (self w) = 0 /\ check (self w) = 0) /\
  (forall fuel,
     ready (self (run_block fuel w).2) = 0 /\
     check (self (run_block fuel w).2) = 0) /\
  forall fuel, exists st st' r rest,
    let o := self w in
    trace (run_block (S fuel) w).2 =
      trace w ++
      Api (RunBlock (handle o) 0 (samples o) (timebase o) None 0 None None) st [] ::
      Api (IsReady (handle o) 0) st' [r] :: rest.
Proof.
  intros Hreach.
  assert (ready (self w) = 0 /\ check (self w) = 0) as [Hr Hc].
  { induction Hreach as [h buf n d hp | s w r w' _ [IHr IHc] Hstep _]; [done|].
    pose proof (take_step_flags s w IHr IHc) as Hf. by rewrite Hstep in Hf. }
  split_and!; [done | done | by intros; apply run_block_flags |].
  intros fuel. rewrite run_block_unfold, poll_unfold. cbn.
  rewrite Hr, Hc. cbn.
  destruct (ps5000aRunBlock _ _ _ _ _ _ _ _ _) as [st d1]. cbn.
  destruct (ps5000aIsReady _ _ _) as [[st' r] d2]. cbn.
  match goal with |- context [poll fuel ?w1] =>
    destruct (poll_extends fuel w1) as [t Ht];
    destruct (poll fuel w1) as [[[]| e |] w2]
  end; cbn in *; rewrite ?Ht, <- ?app_assoc; cbn; by eexists _, _, _, _.
Qed.

End methods.
(** **** Runs that differ in the status codes only *)

Section status_blind.
Context {D : Type} (drv1 drv2 : ps5000a D) (Hsame : same_answers drv1 drv2).

Ltac same_object_fields H :=
  let Heq := fresh in
  let Hdom := fresh "Hdom" in
  destruct H as [Heq Hdom];
  match type of Heq with
  | set_status _ ?o1 = set_status _ ?o2 =>
      destruct o1, o2; cbv [set_status] in Heq; cbn in Heq, Hdom;
      inversion Heq; subst; clear Heq
  end.

Lemma same_run_bind {A1 A2 B1 B2} (R : A1 -> A2 -> Prop) (R' : B1 -> B2 -> Prop)
  (m1 : M (world D) A1) (m2 : M (world D) A2) k1 k2 :
  same_run R m1 m2 ->
  (forall a1 a2, R a1 a2 -> same_run R' (k1 a1) (k2 a2)) ->
  same_run R' (bind m1 k1) (bind m2 k2).
Proof.
  intros Hm Hk w1 w2 Hw. unfold bind. destruct (Hm w1 w2 Hw) as [Hw' Hr].
  destruct (m1 w1) as [[a1 | e1 |] w1'], (m2 w2) as [[a2 | e2 |] w2'];
    cbn in *; try done.
  by apply Hk.
Qed.

Lemma same_run_weaken {A B} (R R' : A -> B -> Prop) (m1 : M (world D) A) m2 :
  (forall a b, R a b -> R' a b) -> same_run R m1 m2 -> same_run R' m1 m2.
Proof.
  intros HR Hm w1 w2 Hw. destruct (Hm w1 w2 Hw) as [Hw' Hr]. split; [done|].
  destruct (m1 w1).1, (m2 w2).1; try done. by apply HR.
Qed.

Lemma same_run_ret {A B} (R : A -> B -> Prop) a b :
  R a b -> same_run (D := D) R (ret a) (ret b).
Proof. intros HR w1 w2 Hw. done. Qed.

Lemma same_run_raise {A B} (R : A -> B -> Prop) e :
  same_run (D := D) R (raise e) (raise e).
Proof. intros w1 w2 Hw. done. Qed.

Lemma same_run_out_of_fuel {A B} (R : A -> B -> Prop) :
  same_run (D := D) R out_of_fuel out_of_fuel.
Proof. intros w1 w2 Hw. done. Qed.

Lemma same_run_or_raise {A} e (o : option A) :
  same_run (D := D) eq (or_raise e o) (or_raise e o).
Proof. intros w1 w2 Hw. by destruct o. Qed.

Lemma same_run_get_self : same_run (D := D) same_object get_self get_self.
Proof. intros w1 w2 Hw. split; [done|]. apply Hw. Qed.

Lemma same_run_get :
  same_run (D := D) (fun w1 w2 => heap w1 = heap w2) get get.
Proof. intros w1 w2 Hw. split; [done|]. apply Hw. Qed.

Lemma same_run_emit e : same_run (D := D) eq (emit e) (emit e).
Proof.
  intros w1 w2 (Ho & Hd & Hh & Ht). split; [|done].
  split_and!; try done. cbn. by rewrite !fmap_app, Ht.
Qed.

Lemma same_run_update_self f1 f2 :
  (forall o1 o2, same_object o1 o2 -> same_object (f1 o1) (f2 o2)) ->
  same_run (D := D) eq (update_self f1) (update_self f2).
Proof.
  intros Hf w1 w2 (Ho & Hd & Hh & Ht). split; [|done].
  split_and!; try done. by apply Hf.
Qed.

Lemma same_run_store_status key st1 st2 :
  same_run (D := D) eq (store_status key st1) (store_status key st2).
Proof.
  apply same_run_update_self. intros o1 o2 Ho. same_object_fields Ho.
  split; [done|]. cbn. by rewrite !dom_insert_L, Hdom.
Qed.

Lemma same_run_load_status key :
  same_run (D := D) (fun _ _ => True) (load_status key) (load_status key).
Proof.
  intros w1 w2 Hw. unfold load_status, bind, get_self, or_raise. cbn.
  pose proof Hw as ([_ Hdom] & _).
  assert (is_Some (status (self w1) !! key) <-> is_Some (status (self w2) !! key))
    as Hiff by (by rewrite <- !elem_of_dom, Hdom).
  destruct (status (self w1) !! key) as [v1|],
           (status (self w2) !! key) as [v2|]; cbn; (split; [done|]); try done.
  - destruct Hiff as [Hiff _]. edestruct Hiff as [? ?]; [by eexists|done].
  - destruct Hiff as [_ Hiff]. edestruct Hiff as [? ?]; [by eexists|done].
Qed.

Lemma same_run_sdk {A} c (f1 f2 : D -> Z * A * D) out :
  (forall d, (f1 d).1.2 = (f2 d).1.2 /\ (f1 d).2 = (f2 d).2) ->
  same_run (fun x y => x.2 = y.2) (sdk c f1 out) (sdk c f2 out).
Proof.
  intros Hf w1 w2 (Ho & Hd & Hh & Ht). unfold sdk. rewrite Hd.
  destruct (Hf (device w2)) as [Ha Hd'].
  destruct (f1 (device w2)) as [[st1 a1] d1], (f2 (device w2)) as [[st2 a2] d2].
  cbn in *. subst. split; [|done]. split_and!; try done.
  cbn. by rewrite !fmap_app, Ht.
Qed.

Lemma same_run_sdk0 c (f1 f2 : D -> Z * D) :
  (forall d, (f1 d).2 = (f2 d).2) ->
  same_run (fun _ _ => True) (sdk0 c f1) (sdk0 c f2).
Proof.
  intros Hf. unfold sdk0. eapply same_run_bind.
  - apply same_run_sdk. intros d. specialize (Hf d).
    destruct (f1 d), (f2 d). cbn in *. by subst.
  - intros [st1 []] [st2 []] _. by apply same_run_ret.
Qed.

Lemma same_run_sdk_get_values_bulk h n from_seg to_seg ratio mode ov :
  same_run (fun x y => x.2 = y.2)
    (sdk_get_values_bulk (drv := drv1) h n from_seg to_seg ratio mode ov)
    (sdk_get_values_bulk (drv := drv2) h n from_seg to_seg ratio mode ov).
Proof.
  intros w1 w2 (Ho & Hd & Hh & Ht). unfold sdk_get_values_bulk. rewrite Hd, Hh.
  destruct (same_GetValuesBulk _ _ Hsame h n from_seg to_seg ratio mode ov
              (heap w2) (device w2)) as [Ha Hd'].
  destruct (@ps5000aGetValuesBulk D drv1 _ _ _ _ _ _ _ _ _)
    as [[st1 [[n1 ov1] hp1]] d1],
    (@ps5000aGetValuesBulk D drv2 _ _ _ _ _ _ _ _ _) as [[st2 [[n2 ov2] hp2]] d2].
  cbn in *. simplify_eq. split; [|done]. split_and!; try done.
  cbn. by rewrite !fmap_app, Ht.
Qed.

(** Bring the next step of both sides into view. *)
Ltac same_run_step :=
  first
    [ eapply same_run_weaken; [|apply same_run_load_status]; done
    | eapply same_run_weaken; [|apply same_run_store_status]; done
    | eapply same_run_weaken;
      [|apply same_run_update_self;
        let Ho := fresh "Ho" in intros ? ? Ho; same_object_fields Ho; by split];
      done
    | eapply same_run_weaken; [|apply same_run_emit]; done
    | apply same_run_raise
    | eapply same_run_bind;
      [first [apply same_run_store_status | apply same_run_load_status
             | apply same_run_or_raise | apply same_run_emit
             | apply same_run_update_self;
               let Ho := fresh "Ho" in
               intros ? ? Ho; same_object_fields Ho; by split ]|];
      intros ? ? ?; simplify_eq
    | eapply same_run_bind; [apply same_run_get_self|];
      let Ho := fresh "Ho" in intros ? ? Ho; same_object_fields Ho; cbn ].

Lemma same_run_open_unit res :
  same_run (fun _ _ => True) (open_unit (drv := drv1) res) (open_unit (drv := drv2) res).
Proof.
  unfold open_unit. same_run_step.
  eapply same_run_bind; [apply same_run_sdk; intros; apply Hsame|].
  intros [st1 h1] [st2 h2] ?; cbn in *; subst.
  do 3 same_run_step.
  eapply same_run_bind; [apply same_run_sdk; intros; apply Hsame|].
  intros [st1' m1] [st2' m2] ?; cbn in *; subst.
  do 3 same_run_step.
Qed.

Lemma same_run_set_channel channel en coupling range offset :
  same_run (fun _ _ => True)
    (set_channel (drv := drv1) channel en coupling range offset)
    (set_channel (drv := drv2) channel en coupling range offset).
Proof.
  unfold set_channel. same_run_step. apply same_run_sdk0. intros; apply Hsame.
Qed.

Lemma same_run_set_simple_trigger en source range threshold_mv direction delay auto_ms :
  same_run (fun _ _ => True)
    (set_simple_trigger (drv := drv1) en source range threshold_mv direction delay auto_ms)
    (set_simple_trigger (drv := drv2) en source range threshold_mv direction delay auto_ms).
Proof.
  unfold set_simple_trigger. same_run_step.
  rewrite (same_mV2adc _ _ Hsame). same_run_step.
  apply same_run_sdk0. intros; apply Hsame.
Qed.

Lemma same_run_set_buffer channel buf segment :
  same_run (fun _ _ => True)
    (set_buffer (drv := drv1) channel buf segment)
    (set_buffer (drv := drv2) channel buf segment).
Proof.
  unfold set_buffer. do 2 same_run_step. apply same_run_sdk0. intros; apply Hsame.
Qed.

Lemma same_run_set_captures captures :
  same_run (fun _ _ => True)
    (set_captures (drv := drv1) captures) (set_captures (drv := drv2) captures).
Proof.
  unfold set_captures. same_run_step.
  eapply same_run_bind; [apply same_run_sdk; intros; apply Hsame|].
  intros [st1 n1] [st2 n2] ?; cbn in *; subst.
  do 3 same_run_step.
  eapply same_run_bind; [apply same_run_sdk0; intros; apply Hsame|].
  intros st1' st2' _. same_run_step.
  eapply same_run_bind with (R := eq).
  - destruct (captures <? 0); same_run_step.
  - intros ? ? _. same_run_step.
Qed.

Lemma same_run_stop_scope :
  same_run (fun _ _ => True) (stop_scope (drv := drv1)) (stop_scope (drv := drv2)).
Proof.
  unfold stop_scope. same_run_step.
  eapply same_run_bind; [apply same_run_sdk0; intros; apply Hsame|].
  intros st1 st2 _. do 2 same_run_step.
  eapply same_run_bind; [apply same_run_sdk0; intros; apply Hsame|].
  intros st1' st2' _. do 2 same_run_step.
Qed.

Lemma same_run_plt_plot arrays :
  same_run (D := D) eq (plt_plot arrays) (plt_plot arrays).
Proof.
  unfold plt_plot. same_run_step.
  eapply same_run_bind; [apply same_run_get|]. intros w1 w2 ->.
  same_run_step. apply same_run_emit.
Qed.

Lemma same_run_poll fuel :
  same_run (fun _ _ => True) (poll (drv := drv1) fuel) (poll (drv := drv2) fuel).
Proof.
  induction fuel as [|fuel IH]; cbn [poll].
  - same_run_step. destruct (_ =? _); [apply same_run_out_of_fuel|by apply same_run_ret].
  - same_run_step. destruct (_ =? _); [|by apply same_run_ret].
    eapply same_run_bind; [apply same_run_sdk; intros; apply Hsame|].
    intros [st1 r1] [st2 r2] ?; cbn in *; subst.
    do 2 same_run_step. apply IH.
Qed.

Lemma same_run_run_block fuel :
  same_run (fun _ _ => True)
    (run_block (drv := drv1) fuel) (run_block (drv := drv2) fuel).
Proof.
  unfold run_block. same_run_step.
  eapply same_run_bind; [apply same_run_sdk0; intros; apply Hsame|].
  intros st1 st2 _. same_run_step.
  eapply same_run_bind; [apply same_run_poll|]. intros _ _ _.
  same_run_step.
  eapply same_run_bind; [apply same_run_sdk_get_values_bulk|].
  intros [st1' [n1 ov1]] [st2' [n2 ov2]] ?; cbn in *; simplify_eq.
  do 4 same_run_step.
Qed.

Lemma same_run_initalise_parameters :
  same_run (fun _ _ => True)
    (initalise_parameters (drv := drv1)) (initalise_parameters (drv := drv2)).
Proof.
  unfold initalise_parameters. same_run_step.
  eapply same_run_bind; [apply same_run_open_unit|]. intros ? ? _. same_run_step.
  do 4 (eapply same_run_bind; [apply same_run_set_channel|]; intros ? ? _;
        same_run_step).
  eapply same_run_bind; [apply same_run_set_simple_trigger|]. intros ? ? _.
  same_run_step.
  eapply same_run_bind; [apply same_run_set_captures|]. intros ? ? _.
  do 2 same_run_step.
  eapply same_run_bind; [apply same_run_set_buffer|]. intros ? ? _.
  same_run_step.
Qed.

Lemma same_run_script fuel sb :
  same_run (fun _ _ => True)
    (script (drv := drv1) fuel sb) (script (drv := drv2) fuel sb).
Proof.
  unfold script.
  eapply same_run_bind; [apply same_run_initalise_parameters|]. intros _ _ _.
  do 2 (eapply same_run_bind; [apply same_run_run_block|]; intros _ _ _;
        eapply same_run_bind; [apply same_run_plt_plot|]; intros _ _ _;
        same_run_step).
  do 2 (eapply same_run_bind; [apply same_run_set_channel|]; intros ? ? _;
        same_run_step).
  same_run_step.
  eapply same_run_bind; [apply same_run_set_buffer|]. intros ? ? _.
  same_run_step.
  eapply same_run_bind; [apply same_run_set_simple_trigger|]. intros ? ? _.
  eapply same_run_bind; [apply same_run_run_block|]. intros _ _ _.
  eapply same_run_bind; [apply same_run_plt_plot|]. intros _ _ _.
  same_run_step.
  apply same_run_stop_scope.
Qed.

Lemma same_run_take_step s :
  same_run (fun _ _ => True) (take_step (drv := drv1) s) (take_step (drv := drv2) s).
Proof.
  destruct s; cbn [take_step].
  - eapply same_run_bind; [apply same_run_open_unit|]. intros. by apply same_run_ret.
  - eapply same_run_bind; [apply same_run_set_channel|]. intros. by apply same_run_ret.
  - eapply same_run_bind; [apply same_run_set_simple_trigger|]. intros.
    by apply same_run_ret.
  - eapply same_run_bind; [apply same_run_set_buffer|]. intros. by apply same_run_ret.
  - eapply same_run_bind; [apply same_run_set_captures|]. intros. by apply same_run_ret.
  - apply same_run_initalise_parameters.
  - apply same_run_run_block.
  - eapply same_run_bind; [apply same_run_stop_scope|]. intros. by apply same_run_ret.
  - same_run_step.
  - eapply same_run_weaken; [|apply same_run_plt_plot]; done.
  - same_run_step.
Qed.

Lemma same_world_refl (w : world D) : same_world w w.
Proof. done. Qed.

Lemma same_run_outcome {A B} (R : A -> B -> Prop) (m1 : M (world D) A) m2 w1 w2 :
  same_run R m1 m2 -> same_world w1 w2 ->
  same_outcome (m1 w1).1 (m2 w2).1 /\ same_world (m1 w1).2 (m2 w2).2.
Proof.
  intros Hm Hw. destruct (Hm w1 w2 Hw) as [Hw' Hr]. split; [|done].
  by destruct (m1 w1).1, (m2 w2).1.
Qed.

(** C5. No status code returned by the SDK is looked at: run the example
    script, or any method of the class, with two drivers that answer alike
    except for the status codes they return; then the same calls are made
    with the same arguments in the same order, the same values are written
    back, the run ends the same way (returns, raises the same exception, or
    is still polling), and the two objects differ only in the codes held in
    [status].  In particular a code signalling failure neither stops the
    script nor makes it repeat or skip a call. *)
Theorem status_codes_never_checked fuel (d : D) :
  (same_outcome (main (drv := drv1) fuel d).1 (main (drv := drv2) fuel d).1 /\
   same_world (main (drv := drv1) fuel d).2 (main (drv := drv2) fuel d).2) /\
  forall s w1 w2,
    same_world w1 w2 ->
    same_outcome (take_step (drv := drv1) s w1).1 (take_step (drv := drv2) s w2).1 /\
    same_world (take_step (drv := drv1) s w1).2 (take_step (drv := drv2) s w2).2.
Proof.
  split.
  - unfold main. eapply same_run_outcome; [apply same_run_script|].
    apply same_world_refl.
  - intros s w1 w2 Hw. eapply same_run_outcome; [apply same_run_take_step|done].
Qed.

End status_blind.


(** *** The statements above, on the simulated instrument *)

Example sim_mV2adc_500mV : sim_mV2adc 500 9 32767 = Some (inject_Z 1638).
Proof. reflexivity. Qed.

Example main_returns_on_sim_ready : (main (drv := sim_ready) 5 sim_off).1 = Ok 0.
Proof. reflexivity. Qed.

Example main_polls_on_sim_stuck : (main (drv := sim_stuck) 5 sim_off).1 = OutOfFuel.
Proof. reflexivity. Qed.

Example main_trace_on_sim_ready :
  names (trace (main (drv := sim_ready) 5 sim_off).2) =
  [NOpenUnit; NMaximumValue; NSetChannel; NSetChannel; NSetChannel; NSetChannel;
   NSetSimpleTrigger; NMemorySegments; NSetNoOfCaptures; NSetDataBuffer;
   NRunBlock; NIsReady; NIsReady; NIsReady; NGetValuesBulk; NPlot; NShow;
   NRunBlock; NIsReady; NIsReady; NIsReady; NGetValuesBulk; NPlot; NShow;
   NSetChannel; NSetChannel; NSetDataBuffer; NSetSimpleTrigger;
   NRunBlock; NIsReady; NIsReady; NIsReady; NGetValuesBulk; NPlot; NShow;
   NStop; NCloseUnit].
Proof. reflexivity. Qed.

Lemma run_block_reads_after_ready_witness :
  ready (self sim_world) = 0 /\
  check (self sim_world) = 0 /\
  run_block (drv := sim_ready) 5 sim_world =
    (Ok tt, (run_block (drv := sim_ready) 5 sim_world).2) /\
  exists st0,
    let started :=
      trace sim_world ++
        [Api (RunBlock (handle (self sim_world)) 0 (samples (self sim_world))
                (timebase (self sim_world)) None 0 None None) st0 []] in
    (Ok tt = Ok tt /\
     exists busy st rdy stg out,
       Forall (fun a => a.2 = 0) busy /\
       rdy <> 0 /\
       trace (run_block (drv := sim_ready) 5 sim_world).2 = started ++
         poll_events (handle (self sim_world)) 0 (busy ++ [(st, rdy)]) ++
         [Api (GetValuesBulk (handle (self sim_world)) (max_samples (self sim_world))
                 0 0 0 0 (overflow (self sim_world))) stg out]) \/
    (Ok tt = OutOfFuel /\
     exists busy,
       Forall (fun a => a.2 = 0) busy /\
       length busy = 5%nat /\
       trace (run_block (drv := sim_ready) 5 sim_world).2 =
         started ++ poll_events (handle (self sim_world)) 0 busy).
Proof.
  assert (H : run_block (drv := sim_ready) 5 sim_world =
              (Ok tt, (run_block (drv := sim_ready) 5 sim_world).2))
    by (apply run_eq; reflexivity).
  split_and!; [reflexivity | reflexivity | exact H |].
  exact (run_block_reads_after_ready (drv := sim_ready) 5 sim_world _ (Ok tt)
           eq_refl eq_refl H).
Defined.

Lemma run_block_blocking_witness :
  ready (self sim_world) = 0 /\
  check (self sim_world) = 0 /\
  (exists fuel, forall fuel', (fuel <= fuel')%nat ->
     (run_block (drv := sim_ready) fuel' sim_world).1 = Ok tt) /\
  (forall fuel, (run_block (drv := sim_stuck) fuel sim_world).1 = OutOfFuel).
Proof.
  split_and!; [reflexivity | reflexivity | |].
  - apply (proj1 (proj2
      (run_block_blocking (drv := sim_ready) sim_world eq_refl eq_refl))).
    exists 3%nat. vm_compute. discriminate.
  - apply (proj2 (proj2
      (run_block_blocking (drv := sim_stuck) sim_world eq_refl eq_refl))).
    assert (forall n d, countdown d = None ->
              nth_poll (drv := sim_stuck) (handle (self sim_world)) n 0 d = 0) as H.
    { induction n as [|n IH]; intros d Hd; [reflexivity|].
      cbn. rewrite Hd. apply IH, Hd. }
    intros n. apply H. reflexivity.
Defined.

Lemma set_simple_trigger_threshold_witness :
  initalise_parameters (drv := sim_ready) sim_world =
    (Ok tt, (initalise_parameters (drv := sim_ready) sim_world).2) /\
  exists before between after h st_max m adc st_trig,
    mV2adc (ps5000a := sim_ready) 0 9 m = Some adc /\
    trace (initalise_parameters (drv := sim_ready) sim_world).2 =
      before ++ [Api (MaximumValue h (max_adc (self sim_world))) st_max [m]] ++
      between ++ [Api (SetSimpleTrigger h 1 0 (py_int adc) 2 0 10) st_trig []] ++
      after.
Proof.
  assert (H : initalise_parameters (drv := sim_ready) sim_world =
              (Ok tt, (initalise_parameters (drv := sim_ready) sim_world).2))
    by (apply run_eq; reflexivity).
  split; [exact H|].
  exact (proj2 (proj2
           (set_simple_trigger_threshold (drv := sim_ready) 1 0 9 0 2 0 10 1
              sim_world)) _ H).
Defined.

Lemma samples_from_buffer_size_witness :
  initalise_parameters (drv := sim_ready) sim_world =
    (Ok tt, (initalise_parameters (drv := sim_ready) sim_world).2) /\
  exists before h b0 st,
    streaming_buffer !! 0%nat = Some b0 /\
    trace (initalise_parameters (drv := sim_ready) sim_world).2 =
      before ++ [Api (SetDataBuffer h 0 b0 (c_int32 100000) 0 0) st []].
Proof.
  assert (H : initalise_parameters (drv := sim_ready) sim_world =
              (Ok tt, (initalise_parameters (drv := sim_ready) sim_world).2))
    by (apply run_eq; reflexivity).
  split; [exact H|].
  exact (proj2 (proj2 (proj2 (proj2
           (samples_from_buffer_size (drv := sim_ready) 0 100000 0 0
              streaming_buffer sim_world))))
           sim_off {[ 0%nat := np_zeros 100000 ]} _ H).
Defined.

Lemma main_call_sequence_witness :
  main (drv := sim_ready) 5 sim_off = (Ok 0, (main (drv := sim_ready) 5 sim_off).2) /\
  exists w1 n1 n2 n3,
    initalise_parameters (drv := sim_ready) (initial_world sim_off) = (Ok tt, w1) /\
    names (trace w1) =
      [NOpenUnit; NMaximumValue; NSetChannel; NSetChannel; NSetChannel;
       NSetChannel; NSetSimpleTrigger; NMemorySegments; NSetNoOfCaptures;
       NSetDataBuffer] /\
    names (trace (main (drv := sim_ready) 5 sim_off).2) =
      names (trace w1) ++
      acquisition (S n1) ++ [NPlot; NShow] ++
      acquisition (S n2) ++ [NPlot; NShow] ++
      [NSetChannel; NSetChannel; NSetDataBuffer; NSetSimpleTrigger] ++
      acquisition (S n3) ++ [NPlot; NShow] ++
      [NStop; NCloseUnit].
Proof.
  assert (H : main (drv := sim_ready) 5 sim_off =
              (Ok 0, (main (drv := sim_ready) 5 sim_off).2))
    by (unfold main; apply run_eq; reflexivity).
  split; [exact H|].
  destruct (proj2 (main_call_sequence (drv := sim_ready)) 5%nat sim_off 0 _ H)
    as (w1 & n1 & n2 & n3 & H1 & H2 & H3).
  exists w1, n1, n2, n3. split_and!; assumption.
Defined.

Lemma stop_scope_closes_witness :
  main (drv := sim_failing) 5 sim_off =
    (Ok 7, (main (drv := sim_failing) 5 sim_off).2) /\
  exists before h st_stop,
    trace (main (drv := sim_failing) 5 sim_off).2 =
      before ++ [Api (Stop h) st_stop []; Api (CloseUnit h) 7 []] /\
    status (self (main (drv := sim_failing) 5 sim_off).2) !! "close" = Some 7.
Proof.
  assert (H : main (drv := sim_failing) 5 sim_off =
              (Ok 7, (main (drv := sim_failing) 5 sim_off).2))
    by (unfold main; apply run_eq; reflexivity).
  split; [exact H|].
  exact (proj2 (stop_scope_closes (drv := sim_failing)) 5%nat sim_off 7 _ H).
Defined.

Lemma ready_flag_invariant_witness :
  reachable (drv := sim_ready) (run_block (drv := sim_ready) 5 sim_world).2 /\
  ready (self (run_block (drv := sim_ready) 5 sim_world).2) = 0 /\
  check (self (run_block (drv := sim_ready) 5 sim_world).2) = 0.
Proof.
  assert (H : reachable (drv := sim_ready) (run_block (drv := sim_ready) 5 sim_world).2).
  { apply (reachable_step (drv := sim_ready) (call_run_block 5) sim_world (Ok tt)).
    - apply reachable_init.
    - apply run_eq. reflexivity.
    - discriminate. }
  split; [exact H|].
  exact (proj1 (ready_flag_invariant (drv := sim_ready) _ H)).
Defined.

Lemma initalise_parameters_set_source_witness :
  initalise_parameters (drv := sim_failing) sim_world =
    (Ok tt, (initalise_parameters (drv := sim_failing) sim_world).2) /\
  exists st_open h st_max m st0 st1 st2 st3 thr st_trig st_mem n st_cap b0 st_buf,
    trace (initalise_parameters (drv := sim_failing) sim_world).2 =
      trace sim_world ++
      [Api (OpenUnit (handle (self sim_world)) None (resolution (self sim_world)))
           st_open [h];
       Api (MaximumValue h (max_adc (self sim_world))) st_max [m];
       Api (SetChannel h 0 1 0 9 0) st0 [];
       Api (SetChannel h 1 0 0 9 0) st1 [];
       Api (SetChannel h 2 0 0 9 0) st2 [];
       Api (SetChannel h 3 0 0 9 0) st3 [];
       Api (SetSimpleTrigger h 1 0 thr 2 0 10) st_trig [];
       Api (MemorySegments h 1 (samples_per_seg (self sim_world))) st_mem [n];
       Api (SetNoOfCaptures h 1) st_cap [];
       Api (SetDataBuffer h 0 b0 (max_samples (self sim_world)) 0 0) st_buf []] /\
    status (self (initalise_parameters (drv := sim_failing) sim_world).2)
      !! "set_source" = Some st3.
Proof.
  assert (H : initalise_parameters (drv := sim_failing) sim_world =
              (Ok tt, (initalise_parameters (drv := sim_failing) sim_world).2))
    by (apply run_eq; reflexivity).
  split; [exact H|].
  destruct (initalise_parameters_set_source (drv := sim_failing) sim_world _ H)
    as (st_open & h & st_max & m & st0 & st1 & st2 & st3 & thr & st_trig &
        st_mem & n & st_cap & b0 & st_buf & H1 & H2 & _).
  exists st_open, h, st_max, m, st0, st1, st2, st3, thr, st_trig, st_mem, n,
    st_cap, b0, st_buf. split; assumption.
Defined.

Lemma status_codes_never_checked_witness :
  same_answers sim_ready sim_failing /\
  same_outcome (main (drv := sim_ready) 5 sim_off).1
               (main (drv := sim_failing) 5 sim_off).1 /\
  same_world (main (drv := sim_ready) 5 sim_off).2
             (main (drv := sim_failing) 5 sim_off).2.
Proof.
  assert (H : same_answers sim_ready sim_failing).
  { constructor; intros; cbn; try split; try reflexivity;
      destruct (countdown d) as [[|n]|]; reflexivity. }
  split; [exact H|].
  exact (proj1 (status_codes_never_checked sim_ready sim_failing H 5 sim_off)).
Defined.


End block_capture_single_spec.

Module readhdf5_spec.
Import readhdf5.

(** The first loop copies the attributes as they are and draws nothing. *)
Lemma copy_attrs_run keys (attrs md : gmap string attr_value) tr :
  (forall k, k ∈ keys -> is_Some (attrs !! k)) ->
  exists md',
    copy_attrs keys attrs md tr = (Ok md', tr) /\
    forall k, md' !! k = if decide (k ∈ keys) then attrs !! k else md !! k.
Proof.
  revert md. induction keys as [|key keys IH]; intros md Hkeys; cbn.
  - exists md. split; [done|]. intros k.
    case_decide as Hk; [by apply elem_of_nil in Hk|done].
  - destruct (Hkeys key) as [v Hv]; [apply elem_of_cons; by left|].
    unfold bind. rewrite Hv. cbn.
    destruct (IH (<[key := v]> md)) as (md' & Hrun & Hmd').
    { intros k Hk. apply Hkeys, elem_of_cons. by right. }
    exists md'. split; [done|]. intros k. rewrite Hmd'.
    destruct (decide (k ∈ keys)) as [Hin|Hnin].
    + rewrite decide_True; [done|]. apply elem_of_cons. by right.
    + destruct (decide (k = key)) as [->|Hne].
      * rewrite lookup_insert_eq, decide_True; [done|]. apply elem_of_cons. by left.
      * rewrite lookup_insert_ne by done. rewrite decide_False; [done|].
        intros [?|?]%elem_of_cons; done.
Qed.

Lemma copy_attrs_all (attrs : gmap string attr_value) tr :
  copy_attrs (map_to_list attrs).*1 attrs ∅ tr = (Ok attrs, tr).
Proof.
  assert (Hkeys : forall k, k ∈ (map_to_list attrs).*1 <-> is_Some (attrs !! k)).
  { intros k. rewrite list_elem_of_fmap. split.
    - intros ([k' v] & -> & Hin). apply elem_of_map_to_list in Hin. by exists v.
    - intros [v Hv]. exists (k, v). split; [done|]. by apply elem_of_map_to_list. }
  destruct (copy_attrs_run (map_to_list attrs).*1 attrs ∅ tr) as (md' & Hrun & Hmd').
  { intros k. apply Hkeys. }
  rewrite Hrun. repeat f_equal. apply map_eq. intros k. rewrite Hmd'.
  case_decide as Hk; [done|]. rewrite lookup_empty. symmetry.
  apply eq_None_not_Some. by rewrite <- Hkeys.
Qed.

Lemma string_items_length s : length (string_items s) = String.length s.
Proof. induction s as [|c s IH]; cbn; congruence. Qed.

Lemma string_items_lookup s i :
  string_items s !! i = (fun c => ItemStr (String c EmptyString)) <$> String.get i s.
Proof.
  revert i. induction s as [|c s IH]; intros [|i]; cbn; done.
Qed.

Lemma py_len_items ac tr :
  py_len ac tr =
  match items ac with
  | Some ids => (Ok (length ids), tr)
  | None => (Raise TypeError, tr)
  end.
Proof.
  destruct ac as [v|s|l]; cbn; [done| |].
  - by rewrite string_items_length.
  - by rewrite length_fmap.
Qed.

Lemma getitem_items ac ids i tr :
  items ac = Some ids ->
  getitem ac i tr =
  match ids !! i with
  | Some id => (Ok id, tr)
  | None => (Raise IndexError, tr)
  end.
Proof.
  destruct ac as [v|s|l]; cbn; intros H; simplify_eq.
  - rewrite string_items_lookup. by destruct (String.get i s).
  - rewrite list_lookup_fmap. by destruct (l !! i).
Qed.

(** One turn of the second loop returns exactly when both datasets of the
    channel are there with the rows that are plotted, and then draws the
    waveform and the histogram, each followed by its display. *)
Lemma plot_channel_ok f (md : gmap string attr_value) ac ids ch id tr tr' :
  md !! "active_channels" = Some ac ->
  items ac = Some ids ->
  ids !! ch = Some id ->
  plot_channel f md ch tr = (Ok tt, tr') <->
  exists evs, channel_drawn f id evs /\ tr' = tr ++ evs.
Proof.
  intros Hmd Hitems Hid. unfold plot_channel, bind, channel_drawn.
  rewrite Hmd. cbn. rewrite (getitem_items _ _ _ _ Hitems), Hid. cbn.
  unfold or_raise, emit, modify, row, ret, raise. split.
  - intros H.
    repeat (first [ rewrite (getitem_items _ _ _ _ Hitems), Hid in H
                  | case_match ];
            unfold or_raise, ret, raise in *; cbn in *; simplify_eq).
    eexists. split; [by repeat eexists|]. by rewrite <- !app_assoc.
  - intros (evs & (ca & counts & pa & pha & c0 & p0 & p1 &
                   Hc & Hp & Hc0 & Hp0 & Hp1 & ->) & ->).
    rewrite Hc. cbn. rewrite (getitem_items _ _ _ _ Hitems), Hid. cbn.
    rewrite Hp. cbn. rewrite Hc0. cbn. rewrite Hp0. cbn. rewrite Hp1. cbn.
    by rewrite <- !app_assoc.
Qed.

Lemma for_each_channels f (md : gmap string attr_value) ac ids m k tr tr' :
  md !! "active_channels" = Some ac ->
  items ac = Some ids ->
  (k + m <= length ids)%nat ->
  for_each (seq k m) (plot_channel f md) tr = (Ok tt, tr') <->
  exists evss,
    Forall2 (channel_drawn f) (take m (drop k ids)) evss /\ tr' = tr ++ concat evss.
Proof.
  intros Hmd Hitems. revert k tr.
  induction m as [|m IH]; intros k tr Hlen; cbn.
  - unfold ret. split.
    + intros H. simplify_eq. exists []. split; [constructor|]. by rewrite app_nil_r.
    + intros (evss & Hall & ->). apply Forall2_nil_inv_l in Hall as ->.
      cbn. by rewrite app_nil_r.
  - destruct (lookup_lt_is_Some_2 ids k) as [id Hid]; [lia|].
    rewrite (drop_S _ _ _ Hid). cbn. unfold bind.
    split.
    + destruct (plot_channel f md k tr) as [[[]| e |] tr1] eqn:E; try done.
      intros H. apply (plot_channel_ok _ _ _ _ _ _ _ _ Hmd Hitems Hid) in E
        as (evs & Hdrawn & ->).
      apply IH in H as (evss & Hall & ->); [|lia].
      exists (evs :: evss). split; [by constructor|]. cbn. by rewrite app_assoc.
    + intros (evss & Hall & ->).
      apply Forall2_cons_inv_l in Hall as (evs & evss' & Hdrawn & Hall & ->).
      assert (plot_channel f md k tr = (Ok tt, tr ++ evs)) as ->.
      { apply (plot_channel_ok _ _ _ _ _ _ _ _ Hmd Hitems Hid). by exists evs. }
      apply IH; [lia|]. exists evss'. split; [done|]. cbn. by rewrite app_assoc.
Qed.

(** C4. [read_hdf5] returns exactly when the file opens, its [metadata]
    group has an [active_channels] attribute with entries, and for every
    entry [id] the datasets [adc_counts_<id>] and [pha_<id>] are in the file
    with the rows that are plotted; and what it has drawn then is, for the
    entries in their order, the waveform [counts[0]], its display, the
    histogram [pha[0]] against [pha[1]] with the format ['bo-'], and its
    display: one waveform plot and one histogram plot for each entry, and
    no other. *)
Theorem read_hdf5_plots fs filename tr tr' :
  read_hdf5 fs filename tr = (Ok tt, tr') <->
  exists f g ac ids evss,
    fs !! filename = Some f /\
    f !! "metadata" = Some g /\
    attrs_of g !! "active_channels" = Some ac /\
    items ac = Some ids /\
    Forall2 (channel_drawn f) ids evss /\
    tr' = tr ++ concat evss /\
    length (filter is_waveform_plot (concat evss)) = length ids /\
    length (filter is_pha_plot (concat evss)) = length ids.
Proof.
  assert (Hcount : forall f ids evss,
    Forall2 (channel_drawn f) ids evss ->
    length (filter is_waveform_plot (concat evss)) = length ids /\
    length (filter is_pha_plot (concat evss)) = length ids).
  { intros f ids evss Hall.
    induction Hall as [|id evs ids evss Hd _ [IH1 IH2]]; [done|].
    destruct Hd as (? & ? & ? & ? & ? & ? & ? & _ & _ & _ & _ & _ & ->).
    cbn [concat]. rewrite !filter_app, !length_app, IH1, IH2. done. }
  assert (Hdead : forall (r : outcome unit * list event) (P : Prop),
            r.1 <> Ok tt -> (P -> False) -> (r = (Ok tt, tr') <-> P)).
  { intros [r t] P Hr HP. split; [|done]. intros H. by simplify_eq. }
  unfold read_hdf5, bind.
  destruct (fs !! filename) as [f|] eqn:Ef; cbn.
  2: { apply Hdead; [done|]. intros (? & ? & ? & ? & ? & ? & _). done. }
  destruct (f !! "metadata") as [g|] eqn:Eg; cbn.
  2: { apply Hdead; [done|]. intros (? & ? & ? & ? & ? & ? & ? & _).
       by simplify_eq. }
  rewrite copy_attrs_all.
  destruct (attrs_of g !! "active_channels") as [ac|] eqn:Eac; cbn.
  2: { apply Hdead; [done|]. intros (? & ? & ? & ? & ? & ? & ? & ? & _).
       by simplify_eq. }
  rewrite py_len_items.
  destruct (items ac) as [ids|] eqn:Eitems.
  2: { apply Hdead; [done|]. intros (? & ? & ? & ? & ? & ? & ? & ? & ? & _).
       by simplify_eq. }
  rewrite (for_each_channels f (attrs_of g) ac ids (length ids) 0 tr tr' Eac Eitems)
    by done.
  rewrite drop_0, firstn_all. split.
  - intros (evss & Hall & ->). destruct (Hcount _ _ _ Hall).
    by exists f, g, ac, ids, evss.
  - intros (f' & g' & ac' & ids' & evss & ? & ? & ? & ? & Hall & -> & _).
    simplify_eq. by exists evss.
Qed.
Lemma read_hdf5_plots_witness :
  read_hdf5 sample_fs "/tmp/pico_captures/2023-06-12_10:44:59.084709.hdf5" [] =
    (Ok tt,
     [Plot [1; 2; 3]; Show; PlotXY [10; 20] [7; 9] "bo-"; Show;
      Plot [-1; -2; -3]; Show; PlotXY [10; 20] [0; 4] "bo-"; Show]) /\
  exists f g ac ids evss,
    sample_fs !! "/tmp/pico_captures/2023-06-12_10:44:59.084709.hdf5" = Some f /\
    f !! "metadata" = Some g /\
    attrs_of g !! "active_channels" = Some ac /\
    items ac = Some ids /\
    Forall2 (channel_drawn f) ids evss /\
    [Plot [1; 2; 3]; Show; PlotXY [10; 20] [7; 9] "bo-"; Show;
     Plot [-1; -2; -3]; Show; PlotXY [10; 20] [0; 4] "bo-"; Show] =
      [] ++ concat evss /\
    length (filter is_waveform_plot (concat evss)) = length ids /\
    length (filter is_pha_plot (concat evss)) = length ids.
Proof.
  assert (H : read_hdf5 sample_fs
                "/tmp/pico_captures/2023-06-12_10:44:59.084709.hdf5" [] =
              (Ok tt,
               [Plot [1; 2; 3]; Show; PlotXY [10; 20] [7; 9] "bo-"; Show;
                Plot [-1; -2; -3]; Show; PlotXY [10; 20] [0; 4] "bo-"; Show]))
    by (vm_compute; reflexivity).
  split; [exact H|].
  exact (proj1 (read_hdf5_plots _ _ _ _) H).
Defined.


End readhdf5_spec.

(** * Further properties of block_capture_single.py *)

Module block_capture_single_footprint.
Import block_capture_single block_capture_single_spec.

(** ** What a computation keeps and what it adds to the trace

    One induction over the code of the class serves several properties:
    [I] is what is kept of the object, [P] what holds of every entry
    added to the trace, [Q] the calls the computation is allowed to make.
    What is asked of [I] is that each write the class makes keeps it. *)

Section footprint.
Context {D : Type} {drv : ps5000a D}.
Variables (I : PicoBlockCap -> Prop) (P : event -> Prop) (Q : api_name -> Prop).

Hypothesis HI_status : forall key st o, I o -> I (set_status (insert key st) o).
Hypothesis HI_handle : forall v o, I o -> I (set_handle (c_int16 v) o).
Hypothesis HI_max_adc : forall v o, I o -> I (set_max_adc (c_int16 v) o).
Hypothesis HI_samples_per_seg :
  forall v o, I o -> I (set_samples_per_seg (c_int32 v) o).
Hypothesis HI_overflow_new :
  forall n o, I o -> I (set_overflow (replicate n 0) o).
Hypothesis HI_overflow :
  forall l o, I o -> I (set_overflow (c_int16 <$> l) o).
Hypothesis HI_max_samples : forall v o, I o -> I (set_max_samples (c_int32 v) o).
Hypothesis HI_ready : forall v o, I o -> I (set_ready (c_int16 v) o).

Hypothesis HP_api :
  forall o c st out, I o -> made_by o c -> Q (name_of_call c) -> P (Api c st out).
Hypothesis HP_plot : forall ys, P (Plot ys).
Hypothesis HP_show : P Show.

Hypothesis HQ_OpenUnit : Q NOpenUnit.
Hypothesis HQ_MaximumValue : Q NMaximumValue.
Hypothesis HQ_SetChannel : Q NSetChannel.
Hypothesis HQ_SetSimpleTrigger : Q NSetSimpleTrigger.
Hypothesis HQ_SetDataBuffer : Q NSetDataBuffer.
Hypothesis HQ_MemorySegments : Q NMemorySegments.
Hypothesis HQ_SetNoOfCaptures : Q NSetNoOfCaptures.
Hypothesis HQ_RunBlock : Q NRunBlock.
Hypothesis HQ_IsReady : Q NIsReady.
Hypothesis HQ_GetValuesBulk : Q NGetValuesBulk.
Hypothesis HQ_Stop : Q NStop.
Hypothesis HQ_CloseUnit : Q NCloseUnit.

Lemma adds_ret {A} (a : A) o : adds_from (D := D) I P o (ret a).
Proof. intros w Hw Ho. cbn. rewrite Hw. split; [done|]. exists []. by rewrite app_nil_r. Qed.

Lemma adds_raise {A} e o : adds_from (D := D) (A := A) I P o (raise e).
Proof. intros w Hw Ho. cbn. rewrite Hw. split; [done|]. exists []. by rewrite app_nil_r. Qed.

Lemma adds_out_of_fuel {A} o : adds_from (D := D) (A := A) I P o out_of_fuel.
Proof. intros w Hw Ho. cbn. rewrite Hw. split; [done|]. exists []. by rewrite app_nil_r. Qed.

Lemma adds_or_raise {A} e (x : option A) o : adds_from (D := D) I P o (or_raise e x).
Proof. destruct x; [apply adds_ret|apply adds_raise]. Qed.

Lemma adds_or_raise_bind {A B} e (x : option A) (k : A -> M (world D) B) o :
  (forall a, adds_from I P o (k a)) -> adds_from I P o (bind (or_raise e x) k).
Proof.
  intros Hk. destruct x as [a|]; [apply (Hk a)|]. apply (adds_raise (A := B)).
Qed.

Lemma adds_get_self_bind {B} (k : PicoBlockCap -> M (world D) B) o :
  adds_from I P o (k o) -> adds_from I P o (bind get_self k).
Proof. intros Hk w Hw Ho. unfold bind, get_self. rewrite Hw. by apply Hk. Qed.

Lemma adds_get_bind {B} (k : world D -> M (world D) B) o :
  (forall w0, adds_from I P o (k w0)) -> adds_from I P o (bind get k).
Proof. intros Hk w Hw Ho. unfold bind, get. by apply Hk. Qed.

Lemma adds_bind {A B} (m : M (world D) A) (k : A -> M (world D) B) o :
  adds_from I P o m ->
  (forall a o', adds_from I P o' (k a)) ->
  adds_from I P o (bind m k).
Proof.
  intros Hm Hk w Hw Ho. unfold bind.
  destruct (Hm w Hw Ho) as (Ho1 & t1 & Ht1 & HP1).
  destruct (m w) as [[a | e |] w1]; cbn in *; [|by eauto..].
  destruct (Hk a (self w1) w1 eq_refl Ho1) as (Ho2 & t2 & Ht2 & HP2).
  split; [done|]. exists (t1 ++ t2). rewrite Ht2, Ht1, app_assoc.
  split; [done|]. by apply Forall_app.
Qed.

Lemma adds_emit e o : P e -> adds_from (D := D) I P o (emit e).
Proof.
  intros He w Hw Ho. cbn. rewrite Hw. split; [done|]. exists [e]. by split; [|constructor].
Qed.

Lemma adds_update_self f o :
  (I o -> I (f o)) -> adds_from (D := D) I P o (update_self f).
Proof.
  intros Hf w Hw Ho. cbn. rewrite Hw. split; [by apply Hf|].
  exists []. by rewrite app_nil_r.
Qed.

Lemma adds_store_status key st o : adds_from (D := D) I P o (store_status key st).
Proof. apply adds_update_self. apply HI_status. Qed.

Lemma adds_load_status key o : adds_from (D := D) I P o (load_status key).
Proof. apply adds_get_self_bind, adds_or_raise. Qed.

Lemma adds_sdk {A} c (f : D -> Z * A * D) out o :
  made_by o c -> Q (name_of_call c) -> adds_from I P o (sdk c f out).
Proof.
  intros Hc HQ w Hw Ho. unfold sdk. destruct (f (device w)) as [[st a] d].
  cbn. rewrite Hw. split; [done|]. eexists [_]. split; [done|].
  constructor; [|done]. by apply HP_api with o.
Qed.

Lemma adds_sdk0 c (f : D -> Z * D) o :
  made_by o c -> Q (name_of_call c) -> adds_from I P o (sdk0 c f).
Proof.
  intros Hc HQ. apply adds_bind; [by apply adds_sdk|].
  intros [st []] o'. apply adds_ret.
Qed.

Lemma adds_sdk_get_values_bulk h n from_seg to_seg ratio mode ov o :
  made_by o (GetValuesBulk h n from_seg to_seg ratio mode ov) ->
  adds_from I P o (sdk_get_values_bulk h n from_seg to_seg ratio mode ov).
Proof.
  intros Hc w Hw Ho. unfold sdk_get_values_bulk.
  destruct (ps5000aGetValuesBulk _ _ _ _ _ _ _ _ _) as [[st [[n' ov'] hp']] d].
  cbn. rewrite Hw. split; [done|]. eexists [_]. split; [done|].
  constructor; [|done]. by apply HP_api with o.
Qed.

Lemma adds_sdk_get_values_bulk_bind {B} h n from_seg to_seg ratio mode ov
  (k : Z * (Z * list Z) -> M (world D) B) o :
  made_by o (GetValuesBulk h n from_seg to_seg ratio mode ov) ->
  (forall st n' ov' o', adds_from I P o' (k (st, (c_int32 n', c_int16 <$> ov')))) ->
  adds_from I P o (bind (sdk_get_values_bulk h n from_seg to_seg ratio mode ov) k).
Proof.
  intros Hc Hk w Hw Ho. unfold bind.
  destruct (adds_sdk_get_values_bulk _ _ _ _ _ _ _ _ Hc w Hw Ho)
    as (Ho1 & t1 & Ht1 & HP1).
  unfold sdk_get_values_bulk in *.
  destruct (ps5000aGetValuesBulk _ _ _ _ _ _ _ _ _) as [[st [[n' ov'] hp']] d].
  cbn in *.
  match goal with |- context [k ?a ?w1] =>
    destruct (Hk st n' ov' (self w1) w1 eq_refl Ho1) as (Ho2 & t2 & Ht2 & HP2)
  end.
  split; [done|]. exists (t1 ++ t2). rewrite Ht2. cbn. rewrite Ht1, app_assoc.
  split; [done|]. by apply Forall_app.
Qed.

Ltac adds_step :=
  cbv beta;
  lazymatch goal with
  | |- adds_from _ _ _ (bind (sdk_get_values_bulk _ _ _ _ _ _ _) _) =>
      apply adds_sdk_get_values_bulk_bind; [by repeat split | intros ? ? ? ?]
  | |- adds_from _ _ _ (bind get_self _) => apply adds_get_self_bind
  | |- adds_from _ _ _ (bind (or_raise _ _) _) => apply adds_or_raise_bind; intros ?
  | |- adds_from _ _ _ (bind get _) => apply adds_get_bind; intros ?
  | |- adds_from _ _ _ (bind _ _) => apply adds_bind; [|intros ? ?]
  | |- adds_from _ _ _ (ret _) => apply adds_ret
  | |- adds_from _ _ _ (raise _) => apply adds_raise
  | |- adds_from _ _ _ out_of_fuel => apply adds_out_of_fuel
  | |- adds_from _ _ _ (or_raise _ _) => apply adds_or_raise
  | |- adds_from _ _ _ (store_status _ _) => apply adds_store_status
  | |- adds_from _ _ _ (load_status _) => apply adds_load_status
  | |- adds_from _ _ _ (emit _) =>
      apply adds_emit; first [apply HP_plot | apply HP_show]
  | |- adds_from _ _ _ plt_show =>
      apply adds_emit; apply HP_show
  | |- adds_from _ _ _ (sdk0 _ _) => apply adds_sdk0; [by repeat split | assumption]
  | |- adds_from _ _ _ (sdk _ _ _) => apply adds_sdk; [by repeat split | assumption]
  | |- adds_from _ _ _ (sdk_get_values_bulk _ _ _ _ _ _ _) =>
      apply adds_sdk_get_values_bulk; by repeat split
  | |- adds_from _ _ _ (update_self _) =>
      apply adds_update_self;
      first [apply HI_handle | apply HI_max_adc | apply HI_samples_per_seg
            | apply HI_overflow_new | apply HI_overflow | apply HI_max_samples
            | apply HI_ready]
  | |- adds_from _ _ _ (match ?x with pair _ _ => _ end) => destruct x
  | |- adds_from _ _ _ (if ?b then _ else _) => destruct b
  end.

Lemma adds_open_unit res o : adds_from I P o (open_unit res).
Proof. unfold open_unit. repeat adds_step. Qed.

Lemma adds_set_channel channel en coupling range offset o :
  adds_from I P o (set_channel channel en coupling range offset).
Proof. unfold set_channel. repeat adds_step. Qed.

Lemma adds_set_simple_trigger en source range threshold_mv direction delay auto_ms o :
  adds_from I P o
    (set_simple_trigger en source range threshold_mv direction delay auto_ms).
Proof. unfold set_simple_trigger. repeat adds_step. Qed.

Lemma adds_set_buffer channel buf segment o :
  adds_from I P o (set_buffer channel buf segment).
Proof. unfold set_buffer. repeat adds_step. Qed.

Lemma adds_set_captures captures o : adds_from I P o (set_captures captures).
Proof. unfold set_captures. repeat adds_step. Qed.

Lemma adds_stop_scope o : adds_from I P o stop_scope.
Proof. unfold stop_scope. repeat adds_step. Qed.

Lemma adds_plt_plot arrays o : adds_from (D := D) I P o (plt_plot arrays).
Proof. unfold plt_plot. repeat adds_step. Qed.

Lemma adds_plt_show o : adds_from (D := D) I P o plt_show.
Proof. unfold plt_show. repeat adds_step. Qed.

Lemma adds_poll fuel o : adds_from I P o (poll fuel).
Proof.
  revert o. induction fuel as [|fuel IH]; intros o; cbn [poll]; repeat adds_step.
  apply IH.
Qed.

Ltac adds_call :=
  cbv beta;
  lazymatch goal with
  | |- adds_from _ _ _ (open_unit _) => apply adds_open_unit
  | |- adds_from _ _ _ (set_channel _ _ _ _ _) => apply adds_set_channel
  | |- adds_from _ _ _ (set_simple_trigger _ _ _ _ _ _ _) =>
      apply adds_set_simple_trigger
  | |- adds_from _ _ _ (set_buffer _ _ _) => apply adds_set_buffer
  | |- adds_from _ _ _ (set_captures _) => apply adds_set_captures
  | |- adds_from _ _ _ stop_scope => apply adds_stop_scope
  | |- adds_from _ _ _ (plt_plot _) => apply adds_plt_plot
  | |- adds_from _ _ _ plt_show => apply adds_plt_show
  | |- adds_from _ _ _ (poll _) => apply adds_poll
  | |- adds_from _ _ _ (store_status _ _) => apply adds_store_status
  | |- adds_from _ _ _ (bind get_self _) => apply adds_get_self_bind
  | |- adds_from _ _ _ (bind _ _) => apply adds_bind; [|intros ? ?]
  end.

Lemma adds_run_block fuel o : adds_from I P o (run_block fuel).
Proof.
  unfold run_block. repeat adds_step. apply adds_poll.
Qed.

Lemma adds_initalise_parameters o : adds_from I P o initalise_parameters.
Proof. unfold initalise_parameters. repeat adds_call. Qed.

Ltac adds_method :=
  cbv beta;
  lazymatch goal with
  | |- adds_from _ _ _ (run_block _) => apply adds_run_block
  | |- adds_from _ _ _ initalise_parameters => apply adds_initalise_parameters
  | |- adds_from _ _ _ (ret _) => apply adds_ret
  | _ => adds_call
  end.

Lemma adds_take_step s o : adds_from I P o (take_step s).
Proof. destruct s; cbn [take_step]; repeat adds_method. Qed.

Lemma adds_script fuel sb o : adds_from I P o (script fuel sb).
Proof. unfold script. repeat adds_method. Qed.

End footprint.

(** The same steps outside the section, for given [I], [P] and [Q], with
    what is asked of them among the assumptions. *)
Ltac adds_auto Q :=
  repeat
    (cbv beta;
     lazymatch goal with
     | |- adds_from ?I ?P _ (open_unit _) =>
         apply (adds_open_unit I P Q); assumption
     | |- adds_from ?I ?P _ (set_channel _ _ _ _ _) =>
         apply (adds_set_channel I P Q); assumption
     | |- adds_from ?I ?P _ (set_simple_trigger _ _ _ _ _ _ _) =>
         apply (adds_set_simple_trigger I P Q); assumption
     | |- adds_from ?I ?P _ (set_buffer _ _ _) =>
         apply (adds_set_buffer I P Q); assumption
     | |- adds_from ?I ?P _ (set_captures _) =>
         apply (adds_set_captures I P Q); assumption
     | |- adds_from ?I ?P _ stop_scope =>
         apply (adds_stop_scope I P Q); assumption
     | |- adds_from ?I ?P _ (plt_plot _) => apply (adds_plt_plot I P); assumption
     | |- adds_from ?I ?P _ plt_show => apply (adds_plt_show I P); assumption
     | |- adds_from ?I ?P _ (run_block _) =>
         apply (adds_run_block I P Q); assumption
     | |- adds_from ?I ?P _ initalise_parameters =>
         apply (adds_initalise_parameters I P Q); assumption
     | |- adds_from ?I ?P _ (store_status _ _) =>
         apply (adds_store_status I P); assumption
     | |- adds_from ?I ?P _ (ret _) => apply adds_ret
     | |- adds_from ?I ?P _ (bind get_self _) => apply adds_get_self_bind
     | |- adds_from ?I ?P _ (bind _ _) => apply adds_bind; [|intros ? ?]
     end).

End block_capture_single_footprint.

Module block_capture_single_more.
Import block_capture_single block_capture_single_spec block_capture_single_footprint.

Lemma int16_c_int16 v : int16 (c_int16 v).
Proof.
  unfold int16, c_int16. pose proof (Z.mod_pos_bound (v + 2 ^ 15) (2 ^ 16)). lia.
Qed.

Lemma int32_c_int32 v : int32 (c_int32 v).
Proof.
  unfold int32, c_int32. pose proof (Z.mod_pos_bound (v + 2 ^ 31) (2 ^ 32)). lia.
Qed.

Section more.
Context {D : Type} {drv : ps5000a D}.

(** The example script is such a client: the state it ends in, unless it
    is still polling, is one a client can be in. *)
Lemma reachable_bind {A B} (m : M (world D) A) (k : A -> M (world D) B) :
  (forall w r w', reachable w -> m w = (r, w') -> r <> OutOfFuel -> reachable w') ->
  (forall a w r w', reachable w -> k a w = (r, w') -> r <> OutOfFuel -> reachable w') ->
  forall w r w', reachable w -> bind m k w = (r, w') -> r <> OutOfFuel -> reachable w'.
Proof.
  intros Hm Hk w r w' Hw Hrun Hr. unfold bind in Hrun.
  destruct (m w) as [[a | e |] w1] eqn:E.
  - eapply Hk; [|exact Hrun|exact Hr]. by eapply Hm.
  - simplify_eq. by eapply Hm.
  - by simplify_eq.
Qed.

Lemma reachable_take_step {A} (m : M (world D) A) s :
  (forall w, take_step s w = bind m (fun _ => ret tt) w) ->
  forall w r w', reachable w -> m w = (r, w') -> r <> OutOfFuel -> reachable w'.
Proof.
  intros Hs w r w' Hw Hrun Hr.
  apply (reachable_step s w (match r with
                             | Ok _ => Ok tt
                             | Raise e => Raise e
                             | OutOfFuel => OutOfFuel
                             end) w' Hw).
  - rewrite Hs. unfold bind. rewrite Hrun. by destruct r.
  - by destruct r.
Qed.

Lemma reachable_script fuel sb (w : world D) r w' :
  reachable w -> script fuel sb w = (r, w') -> r <> OutOfFuel -> reachable w'.
Proof.
  assert (Hunit : forall (m : M (world D) unit) w0,
            m w0 = bind m (fun _ => ret tt) w0).
  { intros m w0. unfold bind, ret. by destruct (m w0) as [[[]| |] ?]. }
  revert w r w'. unfold script.
  repeat
    (cbv beta;
     lazymatch goal with
     | |- forall w r w', _ -> initalise_parameters w = _ -> _ =>
         apply (reachable_take_step _ call_initalise_parameters); apply Hunit
     | |- forall w r w', _ -> run_block _ w = _ -> _ =>
         apply (reachable_take_step _ (call_run_block fuel)); apply Hunit
     | |- forall w r w', _ -> plt_plot _ w = _ -> _ =>
         apply (reachable_take_step _ (do_plot sb)); apply Hunit
     | |- forall w r w', _ -> plt_show w = _ -> _ =>
         apply (reachable_take_step _ do_show); apply Hunit
     | |- forall w r w', _ -> store_status ?key ?st w = _ -> _ =>
         apply (reachable_take_step _ (do_store_status key st)); apply Hunit
     | |- forall w r w', _ -> set_channel ?c ?e ?cp ?rg ?off w = _ -> _ =>
         by apply (reachable_take_step _ (call_set_channel c e cp rg off))
     | |- forall w r w', _ -> set_buffer ?c ?b ?sg w = _ -> _ =>
         by apply (reachable_take_step _ (call_set_buffer c b sg))
     | |- forall w r w', _ -> set_simple_trigger ?a ?b ?c ?d ?e ?f ?g w = _ -> _ =>
         by apply (reachable_take_step _ (call_set_simple_trigger a b c d e f g))
     | |- forall w r w', _ -> stop_scope w = _ -> _ =>
         by apply (reachable_take_step _ call_stop_scope)
     | |- forall w r w', _ -> get_self w = _ -> _ =>
         by intros w r w' Hw Hrun _; unfold get_self in Hrun; simplify_eq
     | |- forall w r w', _ -> bind _ _ w = _ -> _ =>
         apply reachable_bind; [|intros ?]
     end).
Qed.

Lemma reachable_main fuel (d : D) :
  (main fuel d).1 <> OutOfFuel -> reachable (main fuel d).2.
Proof.
  intros Hr. unfold main in *.
  eapply (reachable_script fuel streaming_buffer (initial_world d));
    [apply reachable_init | apply surjective_pairing | done].
Qed.

(** X1. No step a client takes assigns [resolution], [timebase],
    [samples], [buffer] or [check]; so in every state a client can be in
    the resolution and the timebase are the 1 the constructor wrote, and
    every [ps5000aRunBlock] made so far asked for no pre-trigger samples,
    [samples] post-trigger samples (the constructor's [buffer_size]),
    timebase 1, segment 0 and no callback. *)
Theorem settings_never_assigned :
  (forall s (w : world D), settings (self (take_step s w).2) = settings (self w)) /\
  forall w : world D,
    reachable w ->
    resolution (self w) = 1 /\ timebase (self w) = 1 /\
    Forall (run_block_request (samples (self w))) (trace w).
Proof.
  split.
  - intros s w.
    refine (proj1 (adds_take_step (fun o => settings o = settings (self w))
                     (fun _ => True) (fun _ => True)
                     _ _ _ _ _ _ _ _ _ _ _ I I I I I I I I I I I I s (self w) w
                     eq_refl eq_refl)); done.
  - intros w Hreach.
    induction Hreach as [h buf n d hp | s w r w' _ (Hres & Htb & Htr) Hstep _].
    { split_and!; [done | done | constructor]. }
    pose proof (adds_take_step
                  (fun o => settings o = settings (self w))
                  (run_block_request (samples (self w))) (fun _ => True)) as Hadd.
    destruct (Hadd ltac:(done) ltac:(done) ltac:(done) ltac:(done) ltac:(done)
                ltac:(done) ltac:(done) ltac:(done)) with (s := s) (o := self w) (w := w)
      as (Hset & t & Ht & HPt); try done.
    { intros o c st out Ho Hc _. destruct c; try done. cbn in *.
      unfold settings in Ho. destruct Hc as (_ & -> & -> & -> & -> & -> & -> & ->).
      injection Ho as ? ? ? ? ?. split_and!; congruence. }
    rewrite Hstep in Hset, Ht. cbn in Hset, Ht. unfold settings in Hset.
    injection Hset as ? ? Hsamples ? ?. rewrite Hsamples.
    split_and!; [congruence | congruence |].
    rewrite Ht. by apply Forall_app.
Qed.

(** X2. Whatever handle the constructor is given and whatever the driver
    writes into the cells it is handed, the object holds in [handle],
    [max_adc], [ready], [check] and the entries of [overflow] values of a
    16-bit cell, and in [max_samples] and [samples_per_seg] values of a
    32-bit cell, in every state a client can be in. *)
Theorem cells_stay_in_range (w : world D) :
  reachable w -> cells_in_range (self w).
Proof.
  intros Hreach.
  induction Hreach as [h buf n d hp | s w r w' _ IH Hstep _].
  { unfold cells_in_range. cbn.
    split_and!; try apply int16_c_int16; try apply int32_c_int32.
    repeat constructor; apply int16_c_int16. }
  assert (adds_from cells_in_range (fun _ => True) (self w) (take_step s)) as Hadd.
  { apply (adds_take_step cells_in_range (fun _ => True) (fun _ => True));
      try done; unfold cells_in_range; cbn;
      intros x obj (? & ? & ? & ? & ? & ? & ?); split_and!; try done;
      try apply int16_c_int16; try apply int32_c_int32.
    - apply Forall_replicate. unfold int16. lia.
    - apply Forall_fmap, Forall_forall. intros ? _. apply int16_c_int16. }
  destruct (Hadd w eq_refl IH) as [Hcells _]. by rewrite Hstep in Hcells.
Qed.

(** **** Running a bind whose first part is known *)

Lemma bind_assoc_run {S A B C} (m : M S A) (k1 : A -> M S B) (k2 : B -> M S C) s :
  bind (bind m k1) k2 s = bind m (fun a => bind (k1 a) k2) s.
Proof. unfold bind. by destruct (m s) as [[a | e |] s1]. Qed.

Lemma bind_get_self_run {B} (k : PicoBlockCap -> M (world D) B) w :
  bind get_self k w = k (self w) w.
Proof. done. Qed.

Lemma bind_ok_run {S A B} (m : M S A) (k : A -> M S B) s a s1 :
  m s = (Ok a, s1) -> bind m k s = k a s1.
Proof. intros H. unfold bind. by rewrite H. Qed.

Lemma bind_raise_run {S A B} (m : M S A) (k : A -> M S B) s e s1 :
  m s = (Raise e, s1) -> bind m k s = (Raise e, s1).
Proof. intros H. unfold bind. by rewrite H. Qed.

Lemma made_by_handle o c : made_by o c -> handle_of_call c = handle o.
Proof. destruct c; cbn; intros H; first [exact H | exact (proj1 H)]. Qed.

(** X3. The script talks to one unit: its first call is
    [ps5000aOpenUnit], made with the handle cell as the constructor left
    it, and every call after that, up to wherever the script gets, is made
    with the handle that call wrote.  More generally no step other than
    [open_unit] (alone or inside [initalise_parameters]) writes the handle
    or uses another. *)
Theorem one_handle :
  (forall fuel sb (w : world D),
     let o := self w in
     let r1 := ps5000aOpenUnit (handle o) None (resolution o) (device w) in
     let h := c_int16 r1.1.2 in
     exists t,
       trace (script fuel sb w).2 =
         trace w ++ Api (OpenUnit (handle o) None (resolution o)) r1.1.1 [h] :: t /\
       Forall (with_handle h) t) /\
  forall s (w : world D),
    (forall res, s <> call_open_unit res) ->
    s <> call_initalise_parameters ->
    handle (self (take_step s w).2) = handle (self w) /\
    exists t,
      trace (take_step s w).2 = trace w ++ t /\
      Forall (with_handle (handle (self w))) t.
Proof.
  assert (Hfacts : forall h : Z,
    let I := fun o => handle o = h in
    let P := with_handle h in
    let Q := fun _ : api_name => True in
    (forall key st o, I o -> I (set_status (insert key st) o)) /\
    (forall v o, I o -> I (set_max_adc (c_int16 v) o)) /\
    (forall v o, I o -> I (set_samples_per_seg (c_int32 v) o)) /\
    (forall n o, I o -> I (set_overflow (replicate n 0) o)) /\
    (forall l o, I o -> I (set_overflow (c_int16 <$> l) o)) /\
    (forall v o, I o -> I (set_max_samples (c_int32 v) o)) /\
    (forall v o, I o -> I (set_ready (c_int16 v) o)) /\
    (forall o c st out, I o -> made_by o c -> Q (name_of_call c) -> P (Api c st out)) /\
    (forall ys, P (Plot ys)) /\ P Show /\ Q NSetChannel).
  { intros h I P Q. subst I P Q. split_and!; try done.
    intros o c st out Ho Hc _. cbn. by rewrite (made_by_handle _ _ Hc). }
  split.
  - intros fuel sb w o r1 h.
    destruct (Hfacts h) as (? & ? & ? & ? & ? & ? & ? & ? & ? & ? & ?).
    unfold script, initalise_parameters.
    rewrite !bind_assoc_run, bind_get_self_run, !bind_assoc_run.
    rewrite (bind_ok_run _ _ _ _ _ (open_unit_unfold _ _)).
    match goal with |- context [trace (?m ?w1).2] =>
      assert (adds_from (fun o => handle o = h) (with_handle h) (self w1) m) as Hadd
    end.
    { adds_auto (fun _ : api_name => True). }
    destruct (Hadd _ eq_refl eq_refl) as (_ & t & Ht & HPt).
    rewrite Ht. cbn. rewrite <- app_assoc. cbn.
    eexists. split; [done|]. constructor; [done|]. exact HPt.
  - intros s w Hopen Hinit.
    destruct (Hfacts (handle (self w))) as (? & ? & ? & ? & ? & ? & ? & ? & ? & ? & ?).
    assert (adds_from (fun o => handle o = handle (self w))
              (with_handle (handle (self w))) (self w) (take_step s)) as Hadd.
    { destruct s; cbn [take_step]; try done;
        try (exfalso; by eapply Hopen);
        adds_auto (fun _ : api_name => True). }
    destruct (Hadd _ eq_refl eq_refl) as (Hh & t & Ht & HPt). eauto.
Qed.

(** **** The unit is closed by a script that returns, and only then *)

Lemma adds_get_self I P o : adds_from (D := D) I P o get_self.
Proof.
  intros w Hw Ho. cbn. rewrite Hw. split; [done|]. exists []. by rewrite app_nil_r.
Qed.

Lemma closes_bind {A} (m : M (world D) A) (k : A -> M (world D) Z) :
  (forall o, adds_from (fun _ => True) keeps_open o m) ->
  (forall a, closes_on_return (k a)) ->
  closes_on_return (bind m k).
Proof.
  intros Hm Hk w. unfold bind.
  destruct (Hm (self w) w eq_refl Logic.I) as (_ & t1 & Ht1 & HP1).
  destruct (m w) as [[a | e |] w1]; cbn in *; [|by eauto..].
  destruct (Hk a w1) as (t2 & HP2 & Hend).
  exists (t1 ++ t2). split; [by apply Forall_app|].
  destruct ((k a w1).1) as [r | e |].
  - destruct Hend as (h & st & Hend). exists h, st.
    by rewrite Hend, Ht1, <- !app_assoc.
  - by rewrite Hend, Ht1, app_assoc.
  - by rewrite Hend, Ht1, app_assoc.
Qed.

Lemma closes_stop_scope : closes_on_return (D := D) stop_scope.
Proof.
  intros w. exists []. split; [constructor|].
  rewrite stop_scope_unfold. cbn. by eexists _, _.
Qed.

Lemma keeps_open_facts :
  let I := fun _ : PicoBlockCap => True in
  let P := keeps_open in
  let Q := fun n : api_name => n <> NStop /\ n <> NCloseUnit in
  (forall key st o, I o -> I (set_status (insert key st) o)) /\
  (forall v o, I o -> I (set_handle (c_int16 v) o)) /\
  (forall v o, I o -> I (set_max_adc (c_int16 v) o)) /\
  (forall v o, I o -> I (set_samples_per_seg (c_int32 v) o)) /\
  (forall n o, I o -> I (set_overflow (replicate n 0) o)) /\
  (forall l o, I o -> I (set_overflow (c_int16 <$> l) o)) /\
  (forall v o, I o -> I (set_max_samples (c_int32 v) o)) /\
  (forall v o, I o -> I (set_ready (c_int16 v) o)) /\
  (forall o c st out, I o -> made_by o c -> Q (name_of_call c) -> P (Api c st out)) /\
  (forall ys, P (Plot ys)) /\ P Show /\
  Q NOpenUnit /\ Q NMaximumValue /\ Q NSetChannel /\ Q NSetSimpleTrigger /\
  Q NSetDataBuffer /\ Q NMemorySegments /\ Q NSetNoOfCaptures /\ Q NRunBlock /\
  Q NIsReady /\ Q NGetValuesBulk.
Proof. cbn. split_and!; done. Qed.

Lemma closes_script fuel sb : closes_on_return (D := D) (script fuel sb).
Proof.
  destruct keeps_open_facts
    as (? & ? & ? & ? & ? & ? & ? & ? & ? & ? & ? & ? & ? & ? & ? & ? & ? & ? & ? & ? & ?).
  unfold script.
  repeat
    (cbv beta;
     lazymatch goal with
     | |- closes_on_return stop_scope => apply closes_stop_scope
     | |- closes_on_return (bind get_self _) =>
         apply closes_bind; [intros ?; apply adds_get_self | intros ?]
     | |- closes_on_return (bind _ _) =>
         apply closes_bind;
         [intros ?; adds_auto (fun n : api_name => n <> NStop /\ n <> NCloseUnit)
         | intros ?]
     end).
Qed.

(** X4. The script stops and closes the unit exactly when it runs to its
    end: then [ps5000aStop] and [ps5000aCloseUnit] are the last two calls
    and the only ones of their kind; when it raises or does not get out of
    a poll loop, neither has been made and the unit is left open.  No step
    other than [stop_scope] makes either call. *)
Theorem unit_closed_exactly_on_return :
  (forall fuel sb (w : world D),
     exists t,
       Forall keeps_open t /\
       match (script fuel sb w).1 with
       | Ok r =>
           exists h st,
             trace (script fuel sb w).2 =
               trace w ++ t ++ [Api (Stop h) st []; Api (CloseUnit h) r []]
       | _ => trace (script fuel sb w).2 = trace w ++ t
       end) /\
  (forall fuel (d : D),
     NCloseUnit ∈ names (trace (main fuel d).2) <-> exists r, (main fuel d).1 = Ok r) /\
  forall s (w : world D),
    s <> call_stop_scope ->
    exists t, trace (take_step s w).2 = trace w ++ t /\ Forall keeps_open t.
Proof.
  split_and!.
  - intros fuel sb w. apply closes_script.
  - intros fuel d. unfold main.
    destruct (closes_script fuel streaming_buffer (initial_world d)) as (t & HP & Hend).
    assert (Hnot : NCloseUnit ∉ names t).
    { unfold names. intros (e & He & Hin)%list_elem_of_fmap.
      rewrite Forall_forall in HP. by destruct (HP e Hin). }
    destruct (script fuel streaming_buffer (initial_world d)).1 as [r | e |].
    + destruct Hend as (h & st & ->). split; [by eexists|]. intros _.
      unfold names. cbn. rewrite !fmap_app. cbn.
      apply elem_of_app. right. apply elem_of_cons. right. by apply elem_of_cons; left.
    + rewrite Hend. cbn. split; [done|]. by intros [? ?].
    + rewrite Hend. cbn. split; [done|]. by intros [? ?].
  - intros s w Hs.
    destruct keeps_open_facts
      as (? & ? & ? & ? & ? & ? & ? & ? & ? & ? & ? & ? & ? & ? & ? & ? & ? & ? & ? & ? & ?).
    assert (adds_from (fun _ => True) keeps_open (self w) (take_step s)) as Hadd.
    { destruct s; cbn [take_step]; try done;
        adds_auto (fun n : api_name => n <> NStop /\ n <> NCloseUnit). }
    destruct (Hadd _ eq_refl Logic.I) as (_ & t & Ht & HPt). eauto.
Qed.

(** **** The arrays *)







(** **** What an acquisition leaves in the object *)

Lemma run_block_written_out fuel (w : world D) :
  let o := self w in
  let w' := (run_block fuel w).2 in
  exists st t,
    trace w' =
      trace w ++ Api (RunBlock (handle o) 0 (samples o) (timebase o) None 0 None None)
                   st [] :: t /\
    match (run_block fuel w).1 with
    | Ok _ =>
        exists t0 st' n ov,
          t = t0 ++ [Api (GetValuesBulk (handle o) (max_samples o) 0 0 0 0 (overflow o))
                       st' (n :: ov)] /\
          Forall (fun e => name_of e = NIsReady) t0 /\
          max_samples (self w') = n /\ overflow (self w') = ov /\
          settings (self w') = settings o /\ handle (self w') = handle o
    | Raise _ => False
    | OutOfFuel => Forall (fun e => name_of e = NIsReady) t
    end.
Proof.
  intros o w'. subst o w'. rewrite run_block_unfold.
  pose proof (poll_frame fuel (after_run_block_call w)) as [Hsame _].
  pose proof (poll_outcome fuel (after_run_block_call w)) as Hout.
  pose proof (f_equal handle Hsame) as Hh.
  pose proof (f_equal max_samples Hsame) as Hn.
  pose proof (f_equal overflow Hsame) as Hov.
  pose proof (f_equal settings Hsame) as Hset.
  assert (Hpolls : exists t, trace (poll fuel (after_run_block_call w)).2 =
                               trace (after_run_block_call w) ++ t /\
                             Forall (fun e => name_of e = NIsReady) t).
  { generalize (after_run_block_call w). clear.
    induction fuel as [|fuel IH]; intros w; rewrite poll_unfold; cbn.
    - exists []. split; [|constructor]. case_match; by rewrite app_nil_r.
    - case_match; [|exists []; split; [by rewrite app_nil_r|constructor]].
      destruct (ps5000aIsReady _ _ _) as [[st1 r1] d1].
      edestruct IH as (t & Ht & HP). rewrite Ht. cbn. rewrite <- app_assoc.
      eexists. split; [done|]. by constructor. }
  destruct Hpolls as (t & Ht & HP).
  destruct (poll fuel (after_run_block_call w)) as [[[]| e |] w2]; cbn in *.
  - eexists _, (t ++ [_]). rewrite Ht, <- !app_assoc. cbn [app]. split; [reflexivity|].
    eexists t, _, _, _. rewrite <- Hh, <- Hn, <- Hov.
    split_and!; try done.
  - by destruct Hout.
  - eexists _, t. by rewrite Ht, <- app_assoc.
Qed.

(** X6. [ps5000aGetValuesBulk] is handed [self.max_samples] and
    [self.overflow] by reference, so after a [run_block] that returns the
    two cells hold what the driver wrote, not what the constructor and
    [set_captures] put there.  A [set_buffer] after that registers the
    array with the count the driver left, and the next [run_block] asks
    [ps5000aGetValuesBulk] for that many samples, while its
    [ps5000aRunBlock] still asks for [self.samples]. *)
Theorem get_values_bulk_writes_back fuel (w w1 : world D) :
  run_block fuel w = (Ok tt, w1) ->
  let o := self w in
  exists t st n ov,
    trace w1 =
      trace w ++ t ++
        [Api (GetValuesBulk (handle o) (max_samples o) 0 0 0 0 (overflow o)) st (n :: ov)] /\
    max_samples (self w1) = n /\
    overflow (self w1) = ov /\
    samples (self w1) = samples o /\
    (forall channel buf segment b0,
       buf !! 0%nat = Some b0 ->
       exists st',
         set_buffer channel buf segment w1 =
           (Ok st',
            {| self := self w1;
               device := (ps5000aSetDataBuffer (handle o) channel b0 n segment 0
                            (device w1)).2;
               heap := heap w1;
               trace := trace w1 ++
                 [Api (SetDataBuffer (handle o) channel b0 n segment 0) st' []] |})) /\
    forall fuel',
      exists st1 t',
        trace (run_block fuel' w1).2 =
          trace w1 ++
            Api (RunBlock (handle o) 0 (samples o) (timebase o) None 0 None None) st1 []
            :: t' /\
        Forall (fun e => name_of e = NIsReady) t' \/
        exists st2 out,
          trace (run_block fuel' w1).2 =
            trace w1 ++
              Api (RunBlock (handle o) 0 (samples o) (timebase o) None 0 None None) st1 []
              :: t' ++ [Api (GetValuesBulk (handle o) n 0 0 0 0 ov) st2 out].
Proof.
  intros Hrun o. subst o.
  destruct (run_block_written_out fuel w) as (st & t & Ht & Hend).
  rewrite Hrun in Ht, Hend. cbn in Ht, Hend.
  destruct Hend as (t0 & st' & n & ov & -> & _ & Hn & Hov & Hset & Hh).
  injection Hset as Hres Htb Hsamples Hbuf Hcheck.
  exists (Api (RunBlock (handle (self w)) 0 (samples (self w)) (timebase (self w))
                 None 0 None None) st [] :: t0), st', n, ov.
  split_and!; try done.
  - intros channel buf segment b0 Hb0. rewrite set_buffer_unfold, Hb0. cbn.
    rewrite Hh, Hn. by eexists.
  - intros fuel'.
    destruct (run_block_written_out fuel' w1) as (st1 & t' & Ht' & Hend').
    rewrite Hh, Hsamples, Htb, Hn, Hov in *.
    destruct (run_block fuel' w1).1 as [[]| e |].
    + destruct Hend' as (t0' & st2 & n' & ov' & -> & _).
      exists st1, t0'. right. by exists st2, (n' :: ov').
    + done.
    + exists st1, t'. left. done.
Qed.

(** **** Exceptions *)


(** **** initalise_parameters, however it ends *)

Lemma initalise_parameters_outcome (w : world D) :
  let o := self w in
  let r1 := ps5000aOpenUnit (handle o) None (resolution o) (device w) in
  let r2 := ps5000aMaximumValue (c_int16 r1.1.2) (max_adc o) r1.2 in
  let m := c_int16 r2.1.2 in
  let r := initalise_parameters w in
  handle (self r.2) = c_int16 r1.1.2 /\
  max_adc (self r.2) = m /\
  heap r.2 = heap w /\
  match r.1 with
  | Ok _ =>
      is_Some (mV2adc 0 9 m) /\ buffer o <> [] /\
      overflow (self r.2) = [0] /\
      names (trace r.2) = names (trace w) ++
        [NOpenUnit; NMaximumValue; NSetChannel; NSetChannel; NSetChannel; NSetChannel;
         NSetSimpleTrigger; NMemorySegments; NSetNoOfCaptures; NSetDataBuffer]
  | Raise e =>
      e = IndexError /\
      (mV2adc 0 9 m = None /\
       overflow (self r.2) = overflow o /\
       names (trace r.2) = names (trace w) ++
         [NOpenUnit; NMaximumValue; NSetChannel; NSetChannel; NSetChannel; NSetChannel]
       \/
       is_Some (mV2adc 0 9 m) /\ buffer o = [] /\
       overflow (self r.2) = [0] /\
       names (trace r.2) = names (trace w) ++
         [NOpenUnit; NMaximumValue; NSetChannel; NSetChannel; NSetChannel; NSetChannel;
          NSetSimpleTrigger; NMemorySegments; NSetNoOfCaptures])
  | OutOfFuel => False
  end.
Proof.
  intros o r1 r2 m r. subst o r1 r2 m r.
  unfold_py. cbn.
  destruct (ps5000aOpenUnit _ _ _ _) as [[st1 h] d1]. cbn.
  destruct (ps5000aMaximumValue _ _ _) as [[st2 m] d2]. cbn.
  rewrite lookup_insert_ne, lookup_insert_eq by done. cbn.
  do 4 (destruct (ps5000aSetChannel _ _ _ _ _ _ _) as [? ?]; cbn).
  destruct (mV2adc 0 9 (c_int16 m)) as [adc|]; cbn.
  2:{ split_and!; try done. left. split_and!; try done.
      unfold names. by rewrite <- !app_assoc, fmap_app. }
  destruct (ps5000aSetSimpleTrigger _ _ _ _ _ _ _ _) as [? ?]. cbn.
  destruct (ps5000aMemorySegments _ _ _ _) as [[? ?] ?]. cbn.
  destruct (ps5000aSetNoOfCaptures _ _ _) as [? ?]. cbn.
  rewrite lookup_insert_eq. cbn.
  destruct (buffer (self w)) as [|b0 buf]; cbn.
  { split_and!; try done. right. split_and!; try done.
    unfold names. by rewrite <- !app_assoc, fmap_app. }
  destruct (ps5000aSetDataBuffer _ _ _ _ _ _ _) as [? ?]. cbn.
  split_and!; try done.
  unfold names. by rewrite <- !app_assoc, fmap_app.
Qed.

(** X8. How [initalise_parameters] ends.  It returns exactly when
    [mV2adc(0, 9, self.max_adc)] succeeds for the value [ps5000aMaximumValue]
    has just written and the buffer list is not empty, and then after its
    ten calls.  Otherwise it raises IndexError: from [set_simple_trigger]
    after six calls (the unit open, the four channels set, no trigger, no
    capture count, no buffer), or from [set_buffer] after nine calls, with
    [overflow] already replaced, when the buffer list is empty.  In no case
    does it touch the arrays. *)
Theorem initalise_parameters_ends (w : world D) :
  let o := self w in
  let r1 := ps5000aOpenUnit (handle o) None (resolution o) (device w) in
  let r2 := ps5000aMaximumValue (c_int16 r1.1.2) (max_adc o) r1.2 in
  let m := c_int16 r2.1.2 in
  let r := initalise_parameters w in
  let setup := [NOpenUnit; NMaximumValue; NSetChannel; NSetChannel; NSetChannel;
                NSetChannel] in
  (r.1 = Ok tt <-> is_Some (mV2adc 0 9 m) /\ buffer o <> []) /\
  (r.1 = Raise IndexError <-> mV2adc 0 9 m = None \/ buffer o = []) /\
  heap r.2 = heap w /\
  names (trace r.2) = names (trace w) ++ setup ++
    match mV2adc 0 9 m, buffer o with
    | None, _ => []
    | Some _, [] => [NSetSimpleTrigger; NMemorySegments; NSetNoOfCaptures]
    | Some _, _ :: _ =>
        [NSetSimpleTrigger; NMemorySegments; NSetNoOfCaptures; NSetDataBuffer]
    end /\
  overflow (self r.2) = match mV2adc 0 9 m with None => overflow o | Some _ => [0] end.
Proof.
  intros o r1 r2 m r setup.
  pose proof (initalise_parameters_outcome w) as (_ & _ & Hheap & Hend).
  fold o r1 r2 m r in Hheap, Hend.
  destruct r.1 as [[]| e |].
  - destruct Hend as ([adc Hadc] & Hbuf & Hov & Hnames). rewrite Hadc.
    split_and!.
    + split; [intros _; split; [by eexists|done] | done].
    + split; [done | intros [?|?]; done].
    + done.
    + rewrite Hnames. by destruct (buffer o).
    + done.
  - destruct Hend as (-> & [(Hadc & Hov & Hnames)|([adc Hadc] & Hbuf & Hov & Hnames)]).
    + rewrite Hadc. split_and!.
      * split; [done | by intros [[? ?] _]].
      * split; [by left | done].
      * done.
      * done.
      * done.
    + rewrite Hadc, Hbuf. split_and!.
      * split; [done | by intros [_ ?]].
      * split; [by right | done].
      * done.
      * done.
      * done.
  - done.
Qed.

(** **** The script after the set-up *)

Lemma runs_safely_bind {A B} J (m : M (world D) A) (k : A -> M (world D) B) :
  runs_safely J m -> (forall a, runs_safely J (k a)) -> runs_safely J (bind m k).
Proof.
  intros Hm Hk w HJ. unfold bind. destruct (Hm w HJ) as [HJ1 Hne].
  destruct (m w) as [[a | e |] w1]; cbn in *.
  - by apply Hk.
  - by destruct (Hne e).
  - done.
Qed.

Lemma run_block_frame fuel (w : world D) :
  let w' := (run_block fuel w).2 in
  max_adc (self w') = max_adc (self w) /\
  buffer (self w') = buffer (self w) /\
  (arrays_stay drv -> forall a, is_Some (heap w !! a) -> is_Some (heap w' !! a)).
Proof.
  intros w'. subst w'. rewrite run_block_unfold.
  pose proof (poll_frame fuel (after_run_block_call w)) as [Hsame Hheap].
  pose proof (f_equal max_adc Hsame) as Hm.
  pose proof (f_equal buffer Hsame) as Hb.
  destruct (poll fuel (after_run_block_call w)) as [[[]| e |] w2]; cbn in *;
    (split_and!; [done | done |]); intros Hdrv a Ha.
  - apply Hdrv. by rewrite Hheap.
  - by rewrite Hheap.
  - by rewrite Hheap.
Qed.

Lemma runs_safely_run_block m sb fuel :
  arrays_stay drv -> runs_safely (set_up m sb) (run_block fuel).
Proof.
  intros Hdrv w (Hm & Hbuf & a & Ha & Hsome).
  destruct (run_block_frame fuel w) as (Hm' & Hbuf' & Hheap').
  split.
  - split_and!; [congruence | congruence |]. exists a. split; [done|]. by apply Hheap'.
  - intros e He.
    pose proof (run_block_written_out fuel w) as (st & t & _ & Hend).
    by rewrite He in Hend.
Qed.

Lemma runs_safely_plt_plot m sb : runs_safely (D := D) (set_up m sb) (plt_plot sb).
Proof.
  intros w (Hm & Hbuf & a & Ha & [ys Hys]). rewrite plt_plot_unfold, Ha, Hys. cbn.
  split; [|done]. split_and!; try done. exists a. split; [done|]. by eexists.
Qed.

Lemma runs_safely_plt_show m sb : runs_safely (D := D) (set_up m sb) plt_show.
Proof. intros w HJ. done. Qed.

Lemma runs_safely_store_status m sb key st :
  runs_safely (D := D) (set_up m sb) (store_status key st).
Proof. intros w HJ. done. Qed.

Lemma runs_safely_set_channel m sb channel en coupling range offset :
  runs_safely (set_up m sb) (set_channel channel en coupling range offset).
Proof. intros w HJ. rewrite set_channel_unfold. done. Qed.

Lemma runs_safely_stop_scope m sb : runs_safely (set_up m sb) stop_scope.
Proof. intros w HJ. rewrite stop_scope_unfold. done. Qed.

Lemma runs_safely_set_buffer m sb channel segment {B} (k : Z -> M (world D) B) :
  (forall st, runs_safely (set_up m sb) (k st)) ->
  runs_safely (set_up m sb)
    (bind get_self (fun o => bind (set_buffer channel (buffer o) segment) k)).
Proof.
  intros Hk w HJ. rewrite bind_get_self_run.
  pose proof HJ as (Hm & Hbuf & a & Ha & Hsome).
  pose proof (set_buffer_unfold channel sb segment w) as Hrun.
  rewrite Ha in Hrun. cbv zeta in Hrun.
  rewrite Hbuf, (bind_ok_run _ _ _ _ _ Hrun). by apply Hk.
Qed.

Lemma runs_safely_set_simple_trigger m sb en source range threshold_mv direction
    delay auto_ms :
  is_Some (mV2adc threshold_mv range m) ->
  runs_safely (set_up m sb)
    (set_simple_trigger en source range threshold_mv direction delay auto_ms).
Proof.
  intros [adc Hadc] w HJ. pose proof HJ as (Hm & _).
  rewrite set_simple_trigger_unfold. cbn. rewrite Hm, Hadc. done.
Qed.

(** X9. The script fails during the set-up or not at all.  Run with the
    list its object was built with, the first array of which exists, on a
    driver that frees no array, it raises only IndexError, only when
    [mV2adc(0, 9, max_adc)] does for the value [ps5000aMaximumValue] wrote,
    and then after the six calls that open the unit and set the channels:
    no acquisition is started.  When the conversion succeeds, every later
    step goes through: the second conversion uses the same value, the
    buffer list is the same, and the arrays are where they were, so the
    script returns or keeps polling. *)
Theorem script_fails_in_setup_only fuel sb (w : world D) :
  arrays_stay drv ->
  buffer (self w) = sb ->
  (exists a, sb !! 0%nat = Some a /\ is_Some (heap w !! a)) ->
  let o := self w in
  let r1 := ps5000aOpenUnit (handle o) None (resolution o) (device w) in
  let r2 := ps5000aMaximumValue (c_int16 r1.1.2) (max_adc o) r1.2 in
  let m := c_int16 r2.1.2 in
  let r := script fuel sb w in
  match r.1 with
  | Raise e =>
      e = IndexError /\ mV2adc 0 9 m = None /\
      names (trace r.2) = names (trace w) ++
        [NOpenUnit; NMaximumValue; NSetChannel; NSetChannel; NSetChannel; NSetChannel]
  | _ => is_Some (mV2adc 0 9 m)
  end.
Proof.
  intros Hdrv Hbuf (a & Ha & Hsome) o r1 r2 m r. subst r. unfold script.
  pose proof (initalise_parameters_outcome w) as (_ & Hm & Hheap & Hend).
  fold o r1 r2 m in Hm, Hend.
  destruct (initalise_parameters w) as [[[]| e |] w1] eqn:Hinit; cbn in Hm, Hheap, Hend.
  - rewrite (bind_ok_run _ _ _ _ _ Hinit).
    destruct Hend as (Hadc & _ & _ & _).
    assert (set_up m sb w1) as HJ.
    { split_and!; [done | | exists a; split; [done|by rewrite Hheap]].
      pose proof (adds_initalise_parameters (fun o' => buffer o' = sb) (fun _ => True)
                    (fun _ => True)) as Hadd.
      destruct (Hadd ltac:(done) ltac:(done) ltac:(done) ltac:(done) ltac:(done)
                  ltac:(done) I I I I I I I o w eq_refl Hbuf) as [Hb _].
      by rewrite Hinit in Hb. }
    match goal with |- context [(?m1 w1).1] =>
      assert (runs_safely (set_up m sb) m1) as Hsafe
    end.
    { repeat
        (cbv beta;
         lazymatch goal with
         | |- runs_safely _ (run_block _) => by apply runs_safely_run_block
         | |- runs_safely _ (plt_plot _) => apply runs_safely_plt_plot
         | |- runs_safely _ plt_show => apply runs_safely_plt_show
         | |- runs_safely _ (store_status _ _) => apply runs_safely_store_status
         | |- runs_safely _ (set_channel _ _ _ _ _) => apply runs_safely_set_channel
         | |- runs_safely _ stop_scope => apply runs_safely_stop_scope
         | |- runs_safely _ (set_simple_trigger _ _ _ _ _ _ _) =>
             by apply runs_safely_set_simple_trigger
         | |- runs_safely _ (bind get_self _) =>
             apply runs_safely_set_buffer; intros ?
         | |- runs_safely _ (bind _ _) => apply runs_safely_bind; [|intros ?]
         end). }
    destruct (Hsafe w1 HJ) as [_ Hne].
    match goal with |- match ?x with _ => _ end => destruct x as [st | e |] end;
      [done | by destruct (Hne e) | done].
  - rewrite (bind_raise_run _ _ _ _ _ Hinit). cbn.
    destruct Hend as (-> & [(Hadc & _ & Hnames)|(_ & Hempty & _)]); [done|].
    subst o. rewrite Hbuf in Hempty. by rewrite Hempty in Ha.
  - done.
Qed.

(** **** The status dictionary *)

Lemma poll_status fuel (w w' : world D) :
  poll fuel w = (Ok tt, w') ->
  ready (self w) = check (self w) ->
  exists t r st out,
    trace w' = trace w ++ t ++ [Api (IsReady (handle (self w)) r) st out] /\
    Forall (fun e => name_of e = NIsReady) t /\
    status (self w') = <["isReady" := st]> (status (self w)).
Proof.
  revert w. induction fuel as [|fuel IH]; intros w; rewrite poll_unfold; cbn;
    intros H Hr; apply Z.eqb_eq in Hr; rewrite Hr in H; [done|].
  destruct (ps5000aIsReady _ _ _) as [[st1 r1] d1].
  destruct (decide (c_int16 r1 = check (self w))) as [Hz|Hnz].
  - apply IH in H; [|done]. cbn in H.
    destruct H as (t & r & st & out & Htr & Hall & Hst).
    eexists (_ :: t), r, st, out. split_and!.
    + by rewrite Htr, <- app_assoc.
    + by constructor.
    + by rewrite Hst, insert_insert_eq.
  - rewrite poll_unfold in H. cbn in H.
    apply Z.eqb_neq in Hnz. rewrite Hnz in H. simplify_eq. cbn.
    by eexists [], _, _, _.
Qed.

(** X10. The status dictionary only grows: no step removes a key.  And a
    [run_block] that returns leaves in it, under "runblock", "isReady" and
    "GetValuesBulk", the codes returned by its [ps5000aRunBlock] call, by
    the last of its polls and by its [ps5000aGetValuesBulk] call; the codes
    of the earlier polls are overwritten, and every other entry is as it
    was. *)
Theorem status_after_run_block :
  (forall s (w : world D) key,
     is_Some (status (self w) !! key) ->
     is_Some (status (self (take_step s w).2) !! key)) /\
  forall fuel (w w' : world D),
    run_block fuel w = (Ok tt, w') ->
    ready (self w) = check (self w) ->
    let o := self w in
    exists st_run polls r st_poll out_poll st_get out_get,
      trace w' = trace w ++
        Api (RunBlock (handle o) 0 (samples o) (timebase o) None 0 None None) st_run []
        :: polls ++
        [Api (IsReady (handle o) r) st_poll out_poll;
         Api (GetValuesBulk (handle o) (max_samples o) 0 0 0 0 (overflow o))
           st_get out_get] /\
      Forall (fun e => name_of e = NIsReady) polls /\
      status (self w') =
        <["GetValuesBulk" := st_get]>
          (<["isReady" := st_poll]> (<["runblock" := st_run]> (status o))).
Proof.
  split.
  - intros s w key Hkey.
    refine (proj1 (adds_take_step (fun o => is_Some (status o !! key))
                     (fun _ => True) (fun _ => True)
                     _ _ _ _ _ _ _ _ _ _ _ I I I I I I I I I I I I s (self w) w
                     eq_refl Hkey)); try done.
    intros key' st o Ho. cbn. by apply lookup_insert_is_Some'; right.
  - intros fuel w w' Hrun Hr o. subst o. rewrite run_block_unfold in Hrun.
    destruct (poll fuel (after_run_block_call w)) as [[[]| e |] w2] eqn:Hpoll;
      simplify_eq.
    pose proof (poll_frame fuel (after_run_block_call w)) as [Hsame _].
    rewrite Hpoll in Hsame. cbn in Hsame.
    pose proof (f_equal handle Hsame) as Hh.
    pose proof (f_equal max_samples Hsame) as Hn.
    pose proof (f_equal overflow Hsame) as Hov.
    cbn in Hh, Hn, Hov.
    apply poll_status in Hpoll; [|done].
    destruct Hpoll as (t & r & st & out & Htr & Hall & Hst). cbn in Htr, Hst.
    eexists _, t, r, st, out, _, _. cbn. rewrite Htr, Hst, <- Hh, <- Hn, <- Hov.
    split_and!; [|done..]. by rewrite <- !app_assoc.
Qed.

(** **** The bound on the poll loop *)






End more.

(** **** On the simulated instrument *)

Example sim_short_leaves_3 :
  max_samples (self (run_block (drv := sim_short) 5 sim_world).2) = 3 /\
  samples (self (run_block (drv := sim_short) 5 sim_world).2) = 100000.
Proof. split; reflexivity. Qed.

Example main_raises_on_sim_no_range :
  (main (drv := sim_no_range) 5 sim_off).1 = Raise IndexError.
Proof. reflexivity. Qed.

Lemma reachable_after_run_block :
  reachable (drv := sim_ready) (run_block (drv := sim_ready) 5 sim_world).2.
Proof.
  apply (reachable_step (drv := sim_ready) (call_run_block 5) sim_world (Ok tt)).
  - apply reachable_init.
  - apply run_eq. reflexivity.
  - discriminate.
Defined.

Lemma arrays_stay_sim code delay : arrays_stay (sim_driver code delay).
Proof.
  intros h n from_seg to_seg ratio mode ov hp d a Ha. cbn.
  destruct (registered d) as [a'|]; [|exact Ha].
  apply lookup_insert_is_Some'. right. exact Ha.
Defined.

Lemma arrays_stay_sim_no_range : arrays_stay sim_no_range.
Proof. exact (arrays_stay_sim 0 (Some 2%nat)). Defined.

Lemma settings_never_assigned_witness :
  reachable (drv := sim_ready) (run_block (drv := sim_ready) 5 sim_world).2 /\
  resolution (self (run_block (drv := sim_ready) 5 sim_world).2) = 1 /\
  timebase (self (run_block (drv := sim_ready) 5 sim_world).2) = 1 /\
  Forall (run_block_request (samples (self (run_block (drv := sim_ready) 5 sim_world).2)))
    (trace (run_block (drv := sim_ready) 5 sim_world).2).
Proof.
  split; [exact reachable_after_run_block|].
  exact (proj2 (settings_never_assigned (drv := sim_ready)) _ reachable_after_run_block).
Defined.

Lemma cells_stay_in_range_witness :
  reachable (drv := sim_ready) (main (drv := sim_ready) 5 sim_off).2 /\
  cells_in_range (self (main (drv := sim_ready) 5 sim_off).2).
Proof.
  assert (H : reachable (drv := sim_ready) (main (drv := sim_ready) 5 sim_off).2).
  { apply reachable_main.
    assert (E : (main (drv := sim_ready) 5 sim_off).1 = Ok 0) by reflexivity.
    rewrite E. discriminate. }
  split; [exact H|].
  exact (cells_stay_in_range (drv := sim_ready) _ H).
Defined.

Lemma one_handle_witness :
  handle (self (take_step (drv := sim_ready) (call_run_block 5) sim_world).2) =
    handle (self sim_world) /\
  exists t,
    trace (take_step (drv := sim_ready) (call_run_block 5) sim_world).2 =
      trace sim_world ++ t /\
    Forall (with_handle (handle (self sim_world))) t.
Proof.
  apply (proj2 (one_handle (drv := sim_ready)) (call_run_block 5) sim_world);
    discriminate.
Defined.

Lemma unit_closed_exactly_on_return_witness :
  exists t,
    trace (take_step (drv := sim_ready) (call_run_block 5) sim_world).2 =
      trace sim_world ++ t /\
    Forall keeps_open t.
Proof.
  apply (proj2 (proj2 (unit_closed_exactly_on_return (drv := sim_ready)))
           (call_run_block 5) sim_world).
  discriminate.
Defined.


Lemma get_values_bulk_writes_back_witness :
  run_block (drv := sim_short) 5 sim_world =
    (Ok tt, (run_block (drv := sim_short) 5 sim_world).2) /\
  exists t st n ov,
    trace (run_block (drv := sim_short) 5 sim_world).2 =
      trace sim_world ++ t ++
        [Api (GetValuesBulk (handle (self sim_world)) (max_samples (self sim_world))
                0 0 0 0 (overflow (self sim_world))) st (n :: ov)] /\
    max_samples (self (run_block (drv := sim_short) 5 sim_world).2) = n /\
    overflow (self (run_block (drv := sim_short) 5 sim_world).2) = ov /\
    samples (self (run_block (drv := sim_short) 5 sim_world).2) =
      samples (self sim_world).
Proof.
  assert (H : run_block (drv := sim_short) 5 sim_world =
              (Ok tt, (run_block (drv := sim_short) 5 sim_world).2))
    by (apply run_eq; reflexivity).
  split; [exact H|].
  destruct (get_values_bulk_writes_back (drv := sim_short) 5 sim_world _ H)
    as (t & st & n & ov & H1 & H2 & H3 & H4 & _).
  exists t, st, n, ov. split_and!; assumption.
Defined.

Lemma script_fails_in_setup_only_witness :
  arrays_stay sim_no_range /\
  match (script (drv := sim_no_range) 5 streaming_buffer sim_world).1 with
  | Raise e =>
      e = IndexError /\
      mV2adc (ps5000a := sim_no_range) 0 9
        (c_int16
           (ps5000aMaximumValue (ps5000a := sim_no_range)
              (c_int16
                 (ps5000aOpenUnit (ps5000a := sim_no_range) (handle (self sim_world))
                    None (resolution (self sim_world)) (device sim_world)).1.2)
              (max_adc (self sim_world))
              (ps5000aOpenUnit (ps5000a := sim_no_range) (handle (self sim_world))
                 None (resolution (self sim_world)) (device sim_world)).2).1.2) = None /\
      names (trace (script (drv := sim_no_range) 5 streaming_buffer sim_world).2) =
        names (trace sim_world) ++
        [NOpenUnit; NMaximumValue; NSetChannel; NSetChannel; NSetChannel; NSetChannel]
  | _ =>
      is_Some
        (mV2adc (ps5000a := sim_no_range) 0 9
           (c_int16
              (ps5000aMaximumValue (ps5000a := sim_no_range)
                 (c_int16
                    (ps5000aOpenUnit (ps5000a := sim_no_range) (handle (self sim_world))
                       None (resolution (self sim_world)) (device sim_world)).1.2)
                 (max_adc (self sim_world))
                 (ps5000aOpenUnit (ps5000a := sim_no_range) (handle (self sim_world))
                    None (resolution (self sim_world)) (device sim_world)).2).1.2))
  end.
Proof.
  split; [exact arrays_stay_sim_no_range|].
  apply (script_fails_in_setup_only (drv := sim_no_range) 5 streaming_buffer sim_world
           arrays_stay_sim_no_range eq_refl).
  exists 0%nat. split; [reflexivity|]. eexists. reflexivity.
Defined.

Lemma status_after_run_block_witness :
  run_block (drv := sim_failing) 5 sim_world =
    (Ok tt, (run_block (drv := sim_failing) 5 sim_world).2) /\
  exists st_run st_poll st_get,
    status (self (run_block (drv := sim_failing) 5 sim_world).2) =
      <["GetValuesBulk" := st_get]>
        (<["isReady" := st_poll]> (<["runblock" := st_run]> (status (self sim_world)))).
Proof.
  assert (H : run_block (drv := sim_failing) 5 sim_world =
              (Ok tt, (run_block (drv := sim_failing) 5 sim_world).2))
    by (apply run_eq; reflexivity).
  split; [exact H|].
  destruct (proj2 (status_after_run_block (drv := sim_failing)) 5%nat sim_world _ H
              eq_refl)
    as (st_run & polls & r & st_poll & out_poll & st_get & out_get & _ & _ & Hst).
  exists st_run, st_poll, st_get. exact Hst.
Defined.


End block_capture_single_more.

(** ** readhdf5.py: failures and partial output *)

Module readhdf5_more.
Import readhdf5 readhdf5_spec.

(** X12. What [read_hdf5] does before the second loop.  It raises OSError
    when the file does not open, KeyError when the file has no [metadata]
    object or the group no [active_channels] attribute, and TypeError when
    that attribute is a scalar, which has no length; in each case nothing
    has been drawn.  The first loop cannot fail: the dictionary it fills is
    the attributes as they are, so otherwise the second loop runs over the
    indices of the attribute's entries with that dictionary. *)
Theorem read_hdf5_before_drawing fs filename tr :
  read_hdf5 fs filename tr =
  match fs !! filename with
  | None => (Raise OSError, tr)
  | Some f =>
      match f !! "metadata" with
      | None => (Raise (KeyError "metadata"), tr)
      | Some g =>
          match attrs_of g !! "active_channels" with
          | None => (Raise (KeyError "active_channels"), tr)
          | Some ac =>
              match items ac with
              | None => (Raise TypeError, tr)
              | Some ids =>
                  for_each (seq 0 (length ids)) (plot_channel f (attrs_of g)) tr
              end
          end
      end
  end.
Proof.
  unfold read_hdf5, bind.
  destruct (fs !! filename) as [f|]; cbn; [|done].
  destruct (f !! "metadata") as [g|]; cbn; [|done].
  rewrite copy_attrs_all.
  destruct (attrs_of g !! "active_channels") as [ac|]; cbn; [|done].
  rewrite py_len_items. by destruct (items ac).
Qed.

Section channel.
Variables (f : gmap string h5object) (md : gmap string attr_value).
Variables (ac : attr_value) (ids : list item).
Hypothesis Hmd : md !! "active_channels" = Some ac.
Hypothesis Hitems : items ac = Some ids.

(** X13. One turn of the second loop, for the entry [id].  Both datasets
    are looked up before anything is drawn: when [adc_counts_<id>] or
    [pha_<id>] is missing the turn raises KeyError with that name, the
    first before the second, and has drawn nothing; so it has when
    [adc_counts_<id>] is a group or has no row.  When [pha_<id>] is a group
    or has fewer than two rows the turn raises after the waveform has been
    drawn and shown, and no histogram is drawn. *)
Theorem plot_channel_table ch id tr :
  ids !! ch = Some id ->
  plot_channel f md ch tr =
  match f !! ("adc_counts_" +:+ py_str id) with
  | None => (Raise (KeyError ("adc_counts_" +:+ py_str id)), tr)
  | Some counts =>
      match f !! ("pha_" +:+ py_str id) with
      | None => (Raise (KeyError ("pha_" +:+ py_str id)), tr)
      | Some pha =>
          match counts with
          | Group _ => (Raise TypeError, tr)
          | Dataset _ [] => (Raise IndexError, tr)
          | Dataset _ (c0 :: _) =>
              match pha with
              | Group _ => (Raise TypeError, tr ++ [Plot c0; Show])
              | Dataset _ (p0 :: p1 :: _) =>
                  (Ok tt, tr ++ [Plot c0; Show; PlotXY p0 p1 "bo-"; Show])
              | Dataset _ _ => (Raise IndexError, tr ++ [Plot c0; Show])
              end
          end
      end
  end.
Proof.
  intros Hid. unfold plot_channel, bind.
  rewrite Hmd. cbn. rewrite (getitem_items _ _ _ _ Hitems), Hid. cbn.
  destruct (f !! ("adc_counts_" +:+ py_str id)) as [counts|]; cbn; [|done].
  rewrite (getitem_items _ _ _ _ Hitems), Hid. cbn.
  destruct (f !! ("pha_" +:+ py_str id)) as [pha|]; cbn; [|done].
  destruct counts as [ca|ca [|c0 crows]]; cbn; [done..|].
  destruct pha as [pa|pa [|p0 [|p1 prows]]]; cbn; unfold emit, modify;
    by rewrite <- !app_assoc.
Qed.

Lemma plot_channel_cases ch id tr :
  ids !! ch = Some id ->
  (exists evs, channel_drawn f id evs /\ plot_channel f md ch tr = (Ok tt, tr ++ evs)) \/
  (exists e rest,
     ~ (exists evs, channel_drawn f id evs) /\
     (rest = [] \/ waveform_only f id rest) /\
     plot_channel f md ch tr = (Raise e, tr ++ rest)).
Proof.
  intros Hid. unfold plot_channel, bind, channel_drawn, waveform_only.
  rewrite Hmd. cbn. rewrite (getitem_items _ _ _ _ Hitems), Hid. cbn.
  destruct (f !! ("adc_counts_" +:+ py_str id)) as [counts|] eqn:Hc; cbn.
  2:{ right. exists (KeyError ("adc_counts_" +:+ py_str id)), [].
      rewrite app_nil_r. split_and!; [|by left|done].
      by intros (? & ? & ? & ? & ? & ? & ? & ? & ? & _). }
  rewrite (getitem_items _ _ _ _ Hitems), Hid. cbn.
  destruct (f !! ("pha_" +:+ py_str id)) as [pha|] eqn:Hp; cbn.
  2:{ right. exists (KeyError ("pha_" +:+ py_str id)), [].
      rewrite app_nil_r. split_and!; [|by left|done].
      by intros (? & ? & ? & ? & ? & ? & ? & ? & _ & ? & _). }
  destruct counts as [ca|ca [|c0 crows]]; cbn.
  { right. exists TypeError, []. rewrite app_nil_r. split_and!; [|by left|done].
    by intros (? & ? & ? & ? & ? & ? & ? & ? & ? & _). }
  { right. exists IndexError, []. rewrite app_nil_r. split_and!; [|by left|done].
    intros (? & ? & ? & ? & ? & ? & ? & ? & ? & _ & ? & _). by simplify_eq. }
  assert (Hwave : exists ca0 counts c1,
            Some (Dataset ca (c0 :: crows)) = Some (Dataset ca0 counts) /\
            counts !! 0%nat = Some c1 /\ [Plot c0; Show] = [Plot c1; Show]).
  { by eexists _, _, _. }
  destruct pha as [pa|pa [|p0 [|p1 prows]]]; cbn; unfold emit, modify;
    rewrite <- ?app_assoc; cbn.
  - right. exists TypeError, [Plot c0; Show]. split_and!; [|by right|done].
    by intros (? & ? & ? & ? & ? & ? & ? & ? & _ & ? & _).
  - right. exists IndexError, [Plot c0; Show]. split_and!; [|by right|done].
    intros (? & ? & ? & ? & ? & ? & ? & ? & _ & ? & _ & ? & _). by simplify_eq.
  - right. exists IndexError, [Plot c0; Show]. split_and!; [|by right|done].
    intros (? & ? & ? & ? & ? & ? & ? & ? & _ & ? & _ & _ & ? & _). by simplify_eq.
  - left. eexists. split; [|done]. by eexists _, _, _, _, _, _, _.
Qed.

Lemma for_each_prefix m k tr :
  (k + m <= length ids)%nat ->
  exists j evss,
    Forall2 (channel_drawn f) (take j (drop k ids)) evss /\
    ((j = m /\
      for_each (seq k m) (plot_channel f md) tr = (Ok tt, tr ++ concat evss)) \/
     (exists id e rest,
        ids !! (k + j)%nat = Some id /\
        ~ (exists evs, channel_drawn f id evs) /\
        (rest = [] \/ waveform_only f id rest) /\
        for_each (seq k m) (plot_channel f md) tr =
          (Raise e, tr ++ concat evss ++ rest))).
Proof.
  revert k tr. induction m as [|m IH]; intros k tr Hlen; cbn.
  - exists 0%nat, []. split; [constructor|]. left. cbn. by rewrite app_nil_r.
  - destruct (lookup_lt_is_Some_2 ids k) as [id Hid]; [lia|].
    unfold bind.
    destruct (plot_channel_cases k id tr Hid)
      as [(evs & Hdrawn & ->)|(e & rest & Hnot & Hrest & ->)].
    + destruct (IH (S k) (tr ++ evs)) as (j & evss & Hall & Hend); [lia|].
      exists (S j), (evs :: evss). rewrite (drop_S _ _ _ Hid). cbn.
      split; [by constructor|].
      destruct Hend as [[-> ->]|(id' & e & rest & Hid' & Hnot & Hrest & ->)].
      * left. by rewrite <- app_assoc.
      * right. exists id', e, rest. rewrite Nat.add_succ_r, <- !app_assoc.
        split_and!; done.
    + exists 0%nat, []. split; [constructor|]. right. exists id, e, rest.
      rewrite Nat.add_0_r. cbn. split_and!; done.
Qed.

End channel.

(** X14. The channels are drawn in order up to the first one that cannot
    be: once the [active_channels] attribute has been read, [read_hdf5]
    draws waveform and histogram for the entries before the first one whose
    datasets are missing or too short, and for that one nothing, or the
    waveform alone when only the histogram cannot be drawn; then it raises
    and the remaining entries are not looked at.  With no such entry it
    returns having drawn them all. *)
Theorem read_hdf5_stops_at_first_failure fs filename tr f g ac ids :
  fs !! filename = Some f ->
  f !! "metadata" = Some g ->
  attrs_of g !! "active_channels" = Some ac ->
  items ac = Some ids ->
  let r := read_hdf5 fs filename tr in
  exists k evss,
    Forall2 (channel_drawn f) (take k ids) evss /\
    ((k = length ids /\ r = (Ok tt, tr ++ concat evss)) \/
     (exists id e rest,
        ids !! k = Some id /\
        ~ (exists evs, channel_drawn f id evs) /\
        (rest = [] \/ waveform_only f id rest) /\
        r = (Raise e, tr ++ concat evss ++ rest))).
Proof.
  intros Hf Hg Hac Hitems r. subst r. unfold read_hdf5, bind.
  rewrite Hf. cbn. rewrite Hg. cbn. rewrite copy_attrs_all, Hac. cbn.
  rewrite py_len_items, Hitems.
  destruct (for_each_prefix f (attrs_of g) ac ids Hac Hitems (length ids) 0 tr)
    as (k & evss & Hall & Hend); [done|].
  rewrite drop_0 in Hall. exists k, evss. split; [done|].
  destruct Hend as [[-> ->]|(id & e & rest & Hid & Hnot & Hrest & ->)].
  - by left.
  - right. by exists id, e, rest.
Qed.

(** **** On the sample archives *)

Example read_hdf5_short_file :
  read_hdf5 short_fs "/tmp/pico_captures/2023-06-12_10:44:59.084709.hdf5" [] =
    (Raise IndexError,
     [Plot [1; 2; 3]; Show; PlotXY [10; 20] [7; 9] "bo-"; Show;
      Plot [-1; -2; -3]; Show]).
Proof. vm_compute. reflexivity. Qed.

Lemma plot_channel_table_witness :
  let md : gmap string attr_value :=
    <["active_channels" := AttrInts [0; 2]]> (<["resolution" := AttrInt 1]> ∅) in
  plot_channel short_file md 1 [] =
    (Raise IndexError, [Plot [-1; -2; -3]; Show]).
Proof.
  intros md.
  rewrite (plot_channel_table short_file md (AttrInts [0; 2]) [ItemInt 0; ItemInt 2]
             eq_refl eq_refl 1 (ItemInt 2) [] eq_refl).
  vm_compute. reflexivity.
Defined.

Lemma read_hdf5_stops_at_first_failure_witness :
  exists k evss,
    Forall2 (channel_drawn short_file) (take k [ItemInt 0; ItemInt 2]) evss /\
    ((k = length [ItemInt 0; ItemInt 2] /\
      read_hdf5 short_fs "/tmp/pico_captures/2023-06-12_10:44:59.084709.hdf5" [] =
        (Ok tt, [] ++ concat evss)) \/
     (exists id e rest,
        [ItemInt 0; ItemInt 2] !! k = Some id /\
        ~ (exists evs, channel_drawn short_file id evs) /\
        (rest = [] \/ waveform_only short_file id rest) /\
        read_hdf5 short_fs "/tmp/pico_captures/2023-06-12_10:44:59.084709.hdf5" [] =
          (Raise e, [] ++ concat evss ++ rest))).
Proof.
  apply (read_hdf5_stops_at_first_failure short_fs
           "/tmp/pico_captures/2023-06-12_10:44:59.084709.hdf5" [] short_file
           (Group (<["active_channels" := AttrInts [0; 2]]>
                     (<["resolution" := AttrInt 1]> ∅)))
           (AttrInts [0; 2]) [ItemInt 0; ItemInt 2]);
    vm_compute; reflexivity.
Defined.

End readhdf5_more.
